(** * The relevance evaluator of [src/llm_evaluator.py]

    A shallow embedding of [LLMEvaluator]: the response interpreter
    [_parse_response] with the regular expressions it applies, the retry loop
    of [_evaluate_single_paper], and the batch driver [evaluate_papers] with
    the paper dictionaries it mutates.

    Conventions of the model.
    - A Python [str] is a list of characters; a character is a code point of
      the range U+0000..U+00FF, and the character classes below are the ones
      the [re] module and [str] methods use on that range.
    - A Python [float] is the rational number the double denotes;
      [float(s)] of a decimal numeral and the arithmetic on delays round to
      the nearest double as IEEE 754 does ([binary64]).
    - An exception is a value of [exn]; code that may raise returns a
      [result]. *)

From stdpp Require Import gmap strings list.
From Stdlib Require Import ZArith QArith Ascii String List Bool Lia Permutation Sorted.
From Stdlib Require Import DecimalString Lqa.
Import ListNotations.

Local Open Scope Z_scope.
Local Open Scope list_scope.

(** ** Strings *)

Definition str := list ascii.

Definition py (s : string) : str := list_ascii_of_string s.

Definition ord (c : ascii) : N := N_of_ascii c.

Definition in_range (lo hi : N) (c : ascii) : bool :=
  ((lo <=? ord c) && (ord c <=? hi))%N.

Definition chr_eqb (a b : ascii) : bool := (ord a =? ord b)%N.

(** [\d]: the decimal digits. *)
Definition is_digit (c : ascii) : bool := in_range 48 57 c.

(** [\s] and [str.isspace]. *)
Definition is_space (c : ascii) : bool :=
  in_range 9 13 c || in_range 28 32 c || (ord c =? 133)%N || (ord c =? 160)%N.

(** [str.isalnum]: letters and numeric characters. *)
Definition is_alnum (c : ascii) : bool :=
  in_range 48 57 c || in_range 65 90 c || in_range 97 122 c
  || (ord c =? 170)%N || in_range 178 179 c || (ord c =? 181)%N
  || in_range 185 186 c || in_range 188 190 c
  || in_range 192 214 c || in_range 216 246 c || in_range 248 255 c.

(** [\w]: alphanumeric or underscore. *)
Definition is_word (c : ascii) : bool := is_alnum c || (ord c =? 95)%N.

(** [str.lower] on one character. *)
Definition lower (c : ascii) : ascii :=
  if in_range 65 90 c || in_range 192 214 c || in_range 216 222 c
  then ascii_of_N (ord c + 32) else c.

Definition nl : ascii := ascii_of_N 10.

Fixpoint starts_with (p s : str) : bool :=
  match p, s with
  | [], _ => true
  | a :: p', b :: s' => chr_eqb a b && starts_with p' s'
  | _ :: _, [] => false
  end.

(** [needle in hay]. *)
Fixpoint contains (needle hay : str) : bool :=
  starts_with needle hay ||
  match hay with
  | [] => false
  | _ :: hay' => contains needle hay'
  end.

Fixpoint lstrip (s : str) : str :=
  match s with
  | c :: s' => if is_space c then lstrip s' else s
  | [] => []
  end.

Definition rstrip (s : str) : str := rev (lstrip (rev s)).

(** [s.strip()] *)
Definition strip (s : str) : str := rstrip (lstrip s).

(** [s[:n]] *)
Definition slice_to (n : nat) (s : str) : str := firstn n s.

(** ** Exceptions *)

Inductive exn : Type :=
| KeyError (key : string)
| TypeError (message : str)
| ValueError (message : str)
| APIError (message : str).

(** [str(e)] *)
Definition exn_str (e : exn) : str :=
  match e with
  | KeyError key => py "'" ++ py key ++ py "'"
  | TypeError message => message
  | ValueError message => message
  | APIError message => message
  end.

Inductive result (A : Type) : Type :=
| Ok (a : A)
| Raise (e : exn).
Arguments Ok {A} a.
Arguments Raise {A} e.

Global Instance result_ret : MRet result := fun A a => Ok a.

Global Instance result_bind : MBind result := fun A B f m =>
  match m with
  | Ok a => f a
  | Raise e => Raise e
  end.

(** ** Dictionaries and objects

    The values a paper dictionary holds: text, and the floats the evaluator
    attaches.  Dictionaries are objects: a paper is a location of the heap, so
    that two references to one dictionary see the same fields. *)

Inductive value : Type :=
| VStr (s : str)
| VFloat (x : Q).

Abbreviation dict := (gmap string value).

Definition loc := positive.

Abbreviation heap := (gmap loc dict).

(** The object a reference points to.  References always point to objects;
    the empty dictionary stands for an unallocated location. *)
Definition deref (h : heap) (l : loc) : dict := default ∅ (h !! l).

(** [d[key]] *)
Definition getitem (d : dict) (key : string) : result value :=
  match d !! key with
  | Some v => Ok v
  | None => Raise (KeyError key)
  end.

(** [h[l][key] = v] *)
Definition setitem (h : heap) (l : loc) (key : string) (v : value) : heap :=
  <[l := <[key := v]> (deref h l)]> h.

(** [v[:50]] *)
Definition slice50 (v : value) : result str :=
  match v with
  | VStr s => Ok (slice_to 50 s)
  | VFloat _ => Raise (TypeError (py "'float' object is not subscriptable"))
  end.

(** ** Floats

    A [float] is an IEEE 754 double: a multiple [m * 2 ^ e] of a power of
    two with [m < 2 ^ 53] and [-1074 <= e <= 971].  The model holds the
    rational a double denotes and rounds where Python does, to the nearest
    double, a tie to the one with the even [m]. *)

(** [a / b] rounded to the nearest integer, a tie to the even one
    ([0 < b]). *)
Definition round_half_even (a b : Z) : Z :=
  let q := a / b in
  let r := a mod b in
  if 2 * r <? b then q
  else if b <? 2 * r then q + 1
  else if Z.even q then q else q + 1.

(** The double nearest to [n / d], for [0 <= n], counted in units of
    [2 ^ -1074], the least positive double.  A double is [m * 2 ^ t] units
    with [m < 2 ^ 53] and [0 <= t]: [t] is chosen from the binary logarithm
    of the number of units, so that [m] has 53 bits, and is 0 for the
    subnormal numbers.  From [2 ^ 2098] units (that is [2 ^ 1024]) on, the
    result is [inf], which the model represents by [2 ^ 1024] itself: it is
    above every double, and the evaluator only compares and stores its
    floats. *)
Definition binary64_units (n : Z) (d : positive) : Z :=
  let N := n * 2 ^ 1074 in
  let t := Z.max (Z.log2 (N / Zpos d) - 52) 0 in
  Z.min (round_half_even N (Zpos d * 2 ^ t) * 2 ^ t) (2 ^ 2098).

(** The double nearest to the rational [x]. *)
Definition binary64 (x : Q) : Q :=
  match Qnum x with
  | Zneg p => Qopp (Qred (binary64_units (Zpos p) (Qden x) # Z.to_pos (2 ^ 1074)))
  | n => Qred (binary64_units n (Qden x) # Z.to_pos (2 ^ 1074))
  end.
Arguments binary64 : simpl never.
Arguments binary64_units : simpl never.

(** [x + y] and [x * y] on floats. *)
Definition fadd (x y : Q) : Q := binary64 (x + y).

Definition fmul (x y : Q) : Q := binary64 (x * y).

(** ** float() of a decimal numeral *)

Definition digit_val (c : ascii) : Z := Z.of_N (ord c) - 48.

Definition digits_val (l : str) : Z :=
  fold_left (fun acc c => 10 * acc + digit_val c) l 0.

Fixpoint split_dot (l : str) : str * option str :=
  match l with
  | [] => ([], None)
  | c :: l' =>
      if chr_eqb c "."%char then ([], Some l')
      else let (ip, fp) := split_dot l' in (c :: ip, fp)
  end.

(** [float(s)] for [s] made of digits and at most one point: the double
    nearest to the value of the numeral.  Any other text raises
    [ValueError]; the forms Python accepts beyond these (signs, exponents,
    blanks) are never captured by the patterns below. *)
Definition float (s : str) : result Q :=
  let (ip, fp') := split_dot s in
  let fp := match fp' with Some f => f | None => [] end in
  if forallb is_digit ip && forallb is_digit fp
     && negb (Nat.eqb (length ip + length fp) 0)
  then Ok (binary64 (Qmake (digits_val (ip ++ fp))
                            (Z.to_pos (10 ^ Z.of_nat (length fp)))))
  else Raise (ValueError (py "could not convert string to float: '" ++ s ++ py "'")).

(** ** Regular expressions

    The fragment of [re] syntax the evaluator uses, and a backtracking
    matcher that tries alternatives in the order [re] does: the left branch
    of [|] first, greedy repetitions longest first, lazy ones shortest
    first. *)

Inductive regex : Type :=
| Eps
| Lit (c : ascii)
| Cls (p : ascii -> bool)
| Seq (r1 r2 : regex)
| Alt (r1 r2 : regex)
| Rep (greedy : bool) (least : nat) (p : ascii -> bool)
| Grp (r : regex)
| WordB
| EndS.

Declare Scope regex_scope.
Delimit Scope regex_scope with re.
Bind Scope regex_scope with regex.
Notation "r1 +> r2" := (Seq r1 r2) (at level 55, right associativity) : regex_scope.
Notation "r1 <|> r2" := (Alt r1 r2) (at level 56, right associativity) : regex_scope.

(** [r?] *)
Definition Opt (r : regex) : regex := Alt r Eps.

(** A literal word, character by character. *)
Fixpoint Word (s : str) : regex :=
  match s with
  | [] => Eps
  | c :: s' => Seq (Lit c) (Word s')
  end.

(** A position in the subject: the character before it, the text from it on,
    and what group 1 has captured so far. *)
Record cursor : Type := Cursor {
  before : option ascii;
  rest : str;
  group1 : option str
}.

Definition word_before (c : cursor) : bool :=
  match before c with Some x => is_word x | None => false end.

Definition word_after (c : cursor) : bool :=
  match rest c with x :: _ => is_word x | [] => false end.

(** [\b] *)
Definition at_boundary (c : cursor) : bool := xorb (word_before c) (word_after c).

(** [$] without MULTILINE: the end of the text, or just before a final
    newline. *)
Definition at_end (c : cursor) : bool :=
  match rest c with
  | [] => true
  | [x] => chr_eqb x nl
  | _ => false
  end.

Section Matcher.
Variable ignorecase : bool.
Context {A : Type}.

Definition lit_eqb (p x : ascii) : bool :=
  if ignorecase then chr_eqb (lower p) (lower x) else chr_eqb p x.

Fixpoint rep (greedy : bool) (p : ascii -> bool) (least : nat)
    (bf : option ascii) (l : str) (g : option str)
    (k : cursor -> option A) : option A :=
  if greedy then
    match
      match l with
      | x :: l' => if p x then rep greedy p (pred least) (Some x) l' g k else None
      | [] => None
      end
    with
    | Some a => Some a
    | None =>
        match least with
        | O => k (Cursor bf l g)
        | S _ => None
        end
    end
  else
    match
      match least with
      | O => k (Cursor bf l g)
      | S _ => None
      end
    with
    | Some a => Some a
    | None =>
        match l with
        | x :: l' => if p x then rep greedy p (pred least) (Some x) l' g k else None
        | [] => None
        end
    end.

Fixpoint run (r : regex) (c : cursor) (k : cursor -> option A) : option A :=
  match r with
  | Eps => k c
  | Lit a =>
      match rest c with
      | x :: l' => if lit_eqb a x then k (Cursor (Some x) l' (group1 c)) else None
      | [] => None
      end
  | Cls p =>
      match rest c with
      | x :: l' => if p x then k (Cursor (Some x) l' (group1 c)) else None
      | [] => None
      end
  | Seq r1 r2 => run r1 c (fun c' => run r2 c' k)
  | Alt r1 r2 =>
      match run r1 c k with
      | Some a => Some a
      | None => run r2 c k
      end
  | Rep greedy least p => rep greedy p least (before c) (rest c) (group1 c) k
  | Grp r' =>
      run r' c (fun c' =>
        k (Cursor (before c') (rest c')
             (Some (firstn (length (rest c) - length (rest c')) (rest c)))))
  | WordB => if at_boundary c then k c else None
  | EndS => if at_end c then k c else None
  end.
End Matcher.

(** [pattern.match] at one position: the cursor after the match. *)
Definition match_at (ignorecase : bool) (r : regex) (bf : option ascii) (l : str)
    : option cursor :=
  run ignorecase r (Cursor bf l None) Some.

(** [re.search]: the match at the leftmost position that has one. *)
Fixpoint search_from (ignorecase : bool) (r : regex) (bf : option ascii) (l : str)
    : option cursor :=
  match match_at ignorecase r bf l with
  | Some c => Some c
  | None =>
      match l with
      | [] => None
      | x :: l' => search_from ignorecase r (Some x) l'
      end
  end.

Definition re_search (ignorecase : bool) (r : regex) (text : str) : option cursor :=
  search_from ignorecase r None text.

(** [m.group(1)] *)
Definition group (m : cursor) : result str :=
  match group1 m with
  | Some g => Ok g
  | None => Raise (TypeError (py "float() argument must be a string or a real number, not 'NoneType'"))
  end.

(** [re.split] for a pattern without groups whose matches are not empty:
    [skip] counts the characters of the current match still to pass, [piece]
    holds the current piece in reverse. *)
Fixpoint split_scan (ignorecase : bool) (r : regex) (bf : option ascii) (l : str)
    (skip : nat) (piece : str) : list str :=
  match l with
  | [] => [rev piece]
  | x :: l' =>
      match skip with
      | S n => split_scan ignorecase r (Some x) l' n piece
      | O =>
          match match_at ignorecase r bf l with
          | Some c =>
              rev piece ::
              split_scan ignorecase r (Some x) l' (length l' - length (rest c)) []
          | None => split_scan ignorecase r (Some x) l' O (x :: piece)
          end
      end
  end.

Definition re_split (ignorecase : bool) (r : regex) (text : str) : list str :=
  split_scan ignorecase r None text O [].

(** ** The response interpreter: [_parse_response] *)

(** The shared tail of the two labelled patterns: a group of digits, an
    optional point, and further digits. *)
Definition number_group : regex :=
  Grp (Rep true 1 is_digit +> Opt (Lit ".") +> Rep true 0 is_digit).

(** Strategy 1 (line 262): SCORE: then blanks then the number group, used
    with IGNORECASE. *)
Definition score_re : regex :=
  (Word (py "SCORE:") +> Rep true 0 is_space +> number_group)%re.

(** Strategy 2 (line 272): score or rating, then one or more blanks or
    colons, then the number group, used with IGNORECASE. *)
Definition alt_re : regex :=
  ((Word (py "score") <|> Word (py "rating"))
   +> Rep true 1 (fun c => is_space c || chr_eqb c ":")
   +> number_group)%re.

(** Strategy 3 (line 281): [\b([0-9]|10)(?:\.\d+)?\b]. *)
Definition num_re : regex :=
  (WordB
   +> Grp (Cls (in_range 48 57) <|> Word (py "10"))
   +> Opt (Lit "." +> Rep true 1 is_digit)
   +> WordB)%re.

(** The reason pattern (line 291): [REASON:\s*(.+?)(?:\n|$)], used with
    IGNORECASE and DOTALL (the dot matches every character). *)
Definition reason_re : regex :=
  (Word (py "REASON:") +> Rep true 0 is_space
   +> Grp (Rep false 1 (fun _ => true))
   +> (Lit nl <|> EndS))%re.

(** The sentence separator (line 299): [[.!?]\s+]. *)
Definition sentence_re : regex :=
  (Cls (fun c => chr_eqb c "." || chr_eqb c "!" || chr_eqb c "?")
   +> Rep true 1 is_space)%re.

Definition Qleb (x y : Q) : bool := Qle_bool x y.

(** The score cascade of [_parse_response] (lines 255-287). *)
Definition parse_score (content : str) : result Q :=
  match re_search true score_re content with
  | Some score_match => g ← group score_match; float g
  | None =>
      match re_search true alt_re content with
      | Some alt_match => g ← group alt_match; float g
      | None =>
          match re_search false num_re content with
          | Some num_match =>
              g ← group num_match;
              potential_score ← float g;
              if Qleb 0 potential_score && Qleb potential_score 10
              then Ok potential_score
              else Ok 0%Q
          | None => Ok 0%Q
          end
      end
  end.

(** The reason cascade of [_parse_response] (lines 256, 289-303).  The
    initial value ["No reason provided"] is assigned first and then
    overwritten by one of the branches. *)
Definition parse_reason (content : str) : result str :=
  let reason := py "No reason provided" in
  match re_search true reason_re content with
  | Some reason_match => g ← group reason_match; Ok (strip g)
  | None =>
      let sentences := re_split false sentence_re content in
      if (1 <? length sentences)%nat
      then Ok (slice_to 100 (nth 1 sentences []))
      else Ok (slice_to 100 content)
  end.

(** [_parse_response(content, paper_title)].  The title is only printed, as
    is the debugging output for a score of 0.0; standard output is not part of
    the model. *)
Definition _parse_response (content : str) (paper_title : value) : result (Q * str) :=
  score ← parse_score content;
  reason ← parse_reason content;
  Ok (score, reason).

(** ** The evaluator object and its environment *)

(** The fields of [LLMEvaluator] set by [__init__]; the client is the [create]
    function of the environment below. *)
Record LLMEvaluator : Type := {
  model : str;
  threshold : Q;
  max_workers : nat;
  verbose : bool;
  sample_count : nat
}.

(** What [response.choices[0].message.content] evaluates to after a call of
    [client.chat.completions.create]: a text, [None], or an exception with the
    given [str(e)]. *)
Inductive reply : Type :=
| Content (content : option str)
| Failure (error_str : str).

(** What one task meets: the remote endpoint, asked with the model, the
    messages (role and content), the token limit and the number of the
    attempt; and the values [random.uniform(0, 1)] returns, by attempt. *)
Record environment : Type := {
  create : str -> list (str * str) -> nat -> nat -> reply;
  uniform : nat -> Q
}.

(** What the task does to the outside: calls of the endpoint and sleeps. *)
Inductive event : Type :=
| Create (attempt : nat)
| Sleep (delay : Q).

(** The dictionary with keys [score] and [reason] a task returns. *)
Record evaluation : Type := Evaluation {
  score : Q;
  reason : str
}.

Definition system_prompt : str :=
  py "You are an academic research assistant. Evaluate the relevance of papers to the user's research interests.".

Definition max_retries : nat := 5.

Definition base_delay : Q := 1.

(** The test of line 180 on [str(e)]. *)
Definition is_rate_limit (error_str : str) : bool :=
  contains (py "rate_limit") (map lower error_str) || contains (py "429") error_str.

(** [re.search] applied to [None] raises. *)
Definition as_text (content : option str) : result str :=
  match content with
  | Some c => Ok c
  | None => Raise (TypeError (py "expected string or bytes-like object, got 'NoneType'"))
  end.

Section Engine.
(** [str(x)] of a float, as an f-string prints it. *)
Variable float_repr : Q -> str.

Definition format_value (v : value) : str :=
  match v with
  | VStr s => s
  | VFloat x => float_repr x
  end.

(** [_build_prompt] (lines 207-236). *)
Definition _build_prompt (paper : dict) (research_context user_interests : str)
    : result str :=
  title ← getitem paper "title";
  abstract ← getitem paper "abstract";
  Ok (py "Given the following research background " ++ [nl]
      ++ py "and interests, evaluate the relevance of this new arXiv paper." ++ [nl]
      ++ [nl]
      ++ research_context ++ [nl]
      ++ [nl]
      ++ py "CURRENT SPECIFIC INTERESTS:" ++ [nl]
      ++ user_interests ++ [nl]
      ++ [nl]
      ++ py "NEW PAPER TO EVALUATE:" ++ [nl]
      ++ py "Title: " ++ format_value title ++ [nl]
      ++ py "Abstract: " ++ format_value abstract ++ [nl]
      ++ [nl]
      ++ py "Rate the relevance of this paper on a scale of 0-10:" ++ [nl]
      ++ py "- 0-3: Not relevant" ++ [nl]
      ++ py "- 4-6: Somewhat relevant" ++ [nl]
      ++ py "- 7-8: Relevant" ++ [nl]
      ++ py "- 9-10: Highly relevant" ++ [nl]
      ++ [nl]
      ++ py "Respond in the format:" ++ [nl]
      ++ py "SCORE: [0-10]" ++ [nl]
      ++ py "REASON: [One sentence explanation]").

(** The [try] block of one attempt (lines 136-174): the new value of
    [sample_count], and the evaluation or the exception raised.  [count] is
    the value of the field [self.sample_count] when this task tests it
    (line 162) and the result holds the value this task leaves; the field
    is shared by the threads of the pool, which take no lock, so the model
    says nothing of the values the other tasks read meanwhile. *)
Definition attempt_body (self : LLMEvaluator) (env : environment) (paper : dict)
    (prompt : str) (attempt : nat) (count : nat) : nat * result evaluation :=
  match create env (model self)
          [(py "system", system_prompt); (py "user", prompt)] 200%nat attempt with
  | Failure error_str => (count, Raise (APIError error_str))
  | Content content =>
      match (title ← getitem paper "title";
             c ← as_text content;
             _parse_response c title) with
      | Raise e => (count, Raise e)
      | Ok (score, reason) =>
          if verbose self && (count <? 3)%nat then
            match (title ← getitem paper "title"; slice50 title) with
            | Raise e => (S count, Raise e)
            | Ok _ => (S count, Ok (Evaluation score reason))
            end
          else (count, Ok (Evaluation score reason))
      end
  end.

(** The loop [for attempt in range(max_retries)] with its [except] clause
    and the [return] after it (lines 134-205). *)
Fixpoint retry_loop (self : LLMEvaluator) (env : environment) (paper : dict)
    (prompt : str) (range : list nat) (count : nat)
    : list event * nat * result evaluation :=
  match range with
  | [] => ([], count, Ok (Evaluation 0 (py "Max retries exceeded")))
  | attempt :: range' =>
      match attempt_body self env paper prompt attempt count with
      | (count', Ok result) => ([Create attempt], count', Ok result)
      | (count', Raise e) =>
          let error_str := exn_str e in
          if is_rate_limit error_str then
            if (attempt <? max_retries - 1)%nat then
              let delay :=
                fadd (fmul base_delay (inject_Z (2 ^ Z.of_nat attempt)))
                     (uniform env attempt) in
              match retry_loop self env paper prompt range' count' with
              | (events, count'', r) =>
                  (Create attempt :: Sleep delay :: events, count'', r)
              end
            else ([Create attempt], count', Ok (Evaluation 0 (py "Rate limit exceeded")))
          else
            match (title ← getitem paper "title"; slice50 title) with
            | Raise e' => ([Create attempt], count', Raise e')
            | Ok _ => ([Create attempt], count', Ok (Evaluation 0 (py "Evaluation error")))
            end
      end
  end.

(** [_evaluate_single_paper] (lines 109-205): the events of the task, the
    final [sample_count], and the result or the exception that escapes. *)
Definition _evaluate_single_paper (self : LLMEvaluator) (env : environment)
    (paper : dict) (research_context user_interests : str)
    : list event * nat * result evaluation :=
  match _build_prompt paper research_context user_interests with
  | Raise e => ([], sample_count self, Raise e)
  | Ok prompt =>
      retry_loop self env paper prompt (seq 0 max_retries) (sample_count self)
  end.

(** *** The batch *)

(** What the batch meets: the environment of each task (tasks are numbered
    in the order of submission), the value of [sample_count] each task
    reads, and the order in which [as_completed] yields the futures. *)
Record world : Type := {
  task_env : nat -> environment;
  task_count : nat -> nat;
  completed : list nat
}.

(** [relevant_papers.sort(key=..., reverse=True)]: the stable sort by
    decreasing key; an element goes before the first one whose key is not
    greater than its own. *)
Fixpoint insert_desc (x : Q * loc) (l : list (Q * loc)) : list (Q * loc) :=
  match l with
  | [] => [x]
  | y :: l' =>
      if Qleb (fst y) (fst x) then x :: l
      else y :: insert_desc x l'
  end.

Definition sort_desc (l : list (Q * loc)) : list (Q * loc) :=
  foldr insert_desc [] l.

(** The key [x['relevance_score']] of the sort: the float attached to the
    paper. *)
Definition sort_key (h : heap) (x : loc) : result Q :=
  v ← getitem (deref h x) "relevance_score";
  match v with
  | VFloat score => Ok score
  | VStr _ =>
      Raise (TypeError (py "'<' not supported between instances of 'str' and 'float'"))
  end.

Fixpoint sort_keys (h : heap) (l : list loc) : result (list (Q * loc)) :=
  match l with
  | [] => Ok []
  | x :: l' =>
      key ← sort_key h x;
      keyed ← sort_keys h l';
      Ok ((key, x) :: keyed)
  end.

(** The result of the future of task [i] on [paper]. *)
Definition future_result (self : LLMEvaluator) (w : world) (h : heap)
    (research_context user_interests : str) (i : nat) (paper : loc)
    : result evaluation :=
  snd (_evaluate_single_paper
         {| model := model self; threshold := threshold self;
            max_workers := max_workers self; verbose := verbose self;
            sample_count := task_count w i |}
         (task_env w i) (deref h paper) research_context user_interests).

(** The loop over [as_completed] (lines 80-99): the heap and the list
    [relevant_papers].  [h0] is the heap the tasks read. *)
Fixpoint collect (self : LLMEvaluator) (w : world) (h0 : heap)
    (research_context user_interests : str) (future_to_paper : gmap nat loc)
    (futures : list nat) (h : heap) (relevant_papers : list loc)
    : heap * result (list loc) :=
  match futures with
  | [] => (h, Ok relevant_papers)
  | future :: futures' =>
      match future_to_paper !! future with
      | None => (h, Raise (KeyError "future"))
      | Some paper =>
          match future_result self w h0 research_context user_interests future paper with
          | Ok result =>
              if Qleb (threshold self) (score result) then
                let h1 := setitem h paper "relevance_score" (VFloat (score result)) in
                let h2 := setitem h1 paper "relevance_reason" (VStr (reason result)) in
                collect self w h0 research_context user_interests future_to_paper
                  futures' h2 (relevant_papers ++ [paper])
              else
                collect self w h0 research_context user_interests future_to_paper
                  futures' h relevant_papers
          | Raise e =>
              match (title ← getitem (deref h paper) "title"; slice50 title) with
              | Raise e' => (h, Raise e')
              | Ok _ =>
                  collect self w h0 research_context user_interests future_to_paper
                    futures' h relevant_papers
              end
          end
      end
  end.

(** [evaluate_papers] (lines 40-107): the heap after the call, and the
    sorted list of references it returns or the exception that escapes.
    [ThreadPoolExecutor] refuses a pool without workers. *)
Definition evaluate_papers (self : LLMEvaluator) (w : world) (h : heap)
    (papers : list loc) (research_context user_interests : str)
    : heap * result (list loc) :=
  if (max_workers self =? 0)%nat
  then (h, Raise (ValueError (py "max_workers must be greater than 0")))
  else
    let future_to_paper : gmap nat loc :=
      list_to_map (zip (seq 0 (length papers)) papers) in
    match collect self w h research_context user_interests future_to_paper
            (completed w) h [] with
    | (h', Raise e) => (h', Raise e)
    | (h', Ok relevant_papers) =>
        match sort_keys h' relevant_papers with
        | Raise e => (h', Raise e)
        | Ok keyed => (h', Ok (map snd (sort_desc keyed)))
        end
    end.
End Engine.

(** * The Zotero library of [src/zotero_parser.py]

    [ZoteroParser.papers] is a list of dictionaries; the summary built from it
    is the research context the evaluator puts in its prompts.  The fields of
    a paper read from BibTeX are texts; the fields of a paper read from JSON
    hold JSON values. *)

(** ** The papers read from BibTeX, and the summary *)

(** [str(n)] of an integer. *)
Definition str_of_Z (n : Z) : str := py (NilZero.string_of_int (Z.to_int n)).

(** [sep.join(l)] *)
Fixpoint join (sep : str) (l : list str) : str :=
  match l with
  | [] => []
  | [x] => x
  | x :: l' => x ++ sep ++ join sep l'
  end.

(** [d.get(key, default)] *)
Definition get (d : dict) (key : string) (default : value) : value :=
  match d !! key with
  | Some v => v
  | None => default
  end.

(** [l[start:]], for a start of either sign. *)
Definition slice_from {A} (start : Z) (l : list A) : list A :=
  skipn (Z.to_nat (if start <? 0 then Z.max 0 (Z.of_nat (length l) + start) else start)) l.

(** The paper [_parse_bibtex] builds from one entry (lines 47-53). *)
Definition bib_paper (entry : dict) : dict :=
  <["title" := get entry "title" (VStr [])]>
    (<["abstract" := get entry "abstract" (VStr [])]>
       (<["author" := get entry "author" (VStr [])]>
          (<["year" := get entry "year" (VStr [])]>
             (<["keywords" := get entry "keywords" (VStr [])]> ∅)))).

(** [_parse_bibtex] (lines 41-54), from the entries [bibtexparser] has read:
    the new value of [self.papers]. *)
Definition _parse_bibtex (papers : list dict) (entries : list dict) : list dict :=
  foldl (fun papers entry => papers ++ [bib_paper entry]) papers entries.

(** Lines 129-132: the abstract as the summary shows it.  [len(abstract)]
    raises on a value that has no length; of the values a [dict] of the
    model holds, that is a number. *)
Definition shown_abstract (abstract : value) : result str :=
  match abstract with
  | VStr s =>
      if (200 <? length s)%nat then Ok (slice_to 200 s ++ py "...") else Ok s
  | VFloat _ => Raise (TypeError (py "object of type 'float' has no len()"))
  end.

Section Library.
Variable float_repr : Q -> str.

(** The title as lines 128 and 160 read and print it. *)
Definition shown_title (paper : dict) : str :=
  format_value float_repr (get paper "title" (VStr (py "No title"))).

(** The loop of lines 127-139, from the paper numbered [i] on. *)
Fixpoint detailed_lines (i : Z) (papers_with_abstracts : list dict)
    : result (list str) :=
  match papers_with_abstracts with
  | [] => Ok []
  | paper :: papers' =>
      abstract ← shown_abstract (get paper "abstract" (VStr []));
      lines ← detailed_lines (i + 1) papers';
      Ok ([str_of_Z i ++ py ". " ++ shown_title paper]
          ++ (match abstract with
              | [] => []
              | _ :: _ => [py "   Abstract: " ++ abstract]
              end)
          ++ [[]] ++ lines)
  end.

(** The list [summary_lines] at the end of [get_summary] (lines 111-162). *)
Definition summary_lines (papers : list dict) (include_all_titles : bool)
    (detailed_papers : Z) : result (list str) :=
  let count := Z.of_nat (length papers) in
  section1 ←
    (if 0 <? detailed_papers then
       lines ← detailed_lines 1 (firstn (Z.to_nat detailed_papers) papers);
       Ok ([py "Recent papers with details (most recent "
            ++ str_of_Z detailed_papers ++ py "):"; []] ++ lines)
     else Ok []);
  Ok ([py "Research Background from Zotero library ("
       ++ str_of_Z count ++ py " papers):"; []]
      ++ section1
      ++ (if include_all_titles && (detailed_papers <? count) then
            [[]; py "Additional papers in library ("
                 ++ str_of_Z (count - detailed_papers) ++ py " more):"; []]
            ++ map (fun paper => py "- " ++ shown_title paper)
                 (slice_from detailed_papers papers)
          else [])).

(** [get_summary] (lines 100-164), on papers whose fields are texts or
    numbers. *)
Definition get_summary (papers : list dict) (include_all_titles : bool)
    (detailed_papers : Z) : result str :=
  match papers with
  | [] => Ok (py "No Zotero library provided.")
  | _ :: _ =>
      lines ← summary_lines papers include_all_titles detailed_papers;
      Ok (join [nl] lines)
  end.
End Library.

(** ** The library read from JSON

    What [json.load] returns: [None], booleans, numbers, texts, lists, and
    dictionaries keyed by texts. *)

#[local] Unset Elimination Schemes.
Inductive json : Type :=
| JNull
| JBool (b : bool)
| JNum (x : Q)
| JStr (s : str)
| JList (l : list json)
| JDict (d : gmap string json).
#[local] Set Elimination Schemes.

(** The exceptions [_parse_json] can meet, by the operation that raises:
    a [for] over an object that is not iterable (TypeError); [get] on an
    object that is not a dictionary (AttributeError); [in] with a right
    operand that is not iterable (TypeError); a slice of an object that has
    none (TypeError; for a dictionary TypeError or KeyError, according to the
    version of Python); [join] over an item that is not a text (TypeError). *)
Inductive failure : Type :=
| NotIterable
| NoAttributeGet
| NotContainer
| NotSliceable
| NotText.

Inductive parsed (A : Type) : Type :=
| Done (a : A)
| Fails (f : failure).
Arguments Done {A} a.
Arguments Fails {A} f.

Global Instance parsed_ret : MRet parsed := fun A a => Done a.

Global Instance parsed_bind : MBind parsed := fun A B f m =>
  match m with
  | Done a => f a
  | Fails e => Fails e
  end.

(** The values a [for] loop draws from [v]: the items of a list, the
    characters of a text; a dictionary gives its keys, in an order the model
    leaves open and no result below depends on. *)
Definition iterate (v : json) : parsed (list json) :=
  match v with
  | JList l => Done l
  | JStr s => Done (map (fun c => JStr [c]) s)
  | JDict d => Done (map (fun kv => JStr (py (fst kv))) (map_to_list d))
  | _ => Fails NotIterable
  end.

(** [v.get(key, dflt)] *)
Definition jget (v : json) (key : string) (dflt : json) : parsed json :=
  match v with
  | JDict d => Done (match d !! key with Some x => x | None => dflt end)
  | _ => Fails NoAttributeGet
  end.

(** ['lastName' in c]: a key of a dictionary, a part of a text, an item of a
    list. *)
Definition has_last_name (c : json) : parsed bool :=
  match c with
  | JDict d => Done (bool_decide (is_Some (d !! "lastName")))
  | JStr s => Done (contains (py "lastName") s)
  | JList l =>
      Done (existsb (fun x => match x with
                              | JStr s => bool_decide (s = py "lastName")
                              | _ => false
                              end) l)
  | _ => Fails NotContainer
  end.

(** [v[:4]] *)
Definition slice4 (v : json) : parsed json :=
  match v with
  | JStr s => Done (JStr (firstn 4 s))
  | JList l => Done (JList (firstn 4 l))
  | _ => Fails NotSliceable
  end.

(** The items [', '.join(l)] joins: all of them must be texts. *)
Fixpoint texts (l : list json) : parsed (list str) :=
  match l with
  | [] => Done []
  | JStr s :: l' => ss ← texts l'; Done (s :: ss)
  | _ :: _ => Fails NotText
  end.

(** A paper built from JSON: its fields hold JSON values. *)
Abbreviation jdict := (gmap string json).

Section Json.
(** [str(v)] of a value that is not a text, as an f-string prints it. *)
Variable json_str : json -> str.

Definition fmt (v : json) : str :=
  match v with
  | JStr s => s
  | _ => json_str v
  end.

(** The generator of lines 75-79: the names of the creators that have a
    [lastName]. *)
Fixpoint author_names (creators : list json) : parsed (list str) :=
  match creators with
  | [] => Done []
  | c :: creators' =>
      named ← has_last_name c;
      if (named : bool) then
        first_name ← jget c "firstName" (JStr []);
        last_name ← jget c "lastName" (JStr []);
        names ← author_names creators';
        Done ((fmt first_name ++ py " " ++ fmt last_name) :: names)
      else author_names creators'
  end.

(** The body of the loop of lines 70-94: the paper built from [item].  An
    item that is not a dictionary has no [get]: line 71 raises. *)
Definition json_paper (item : json) : parsed jdict :=
  title ← jget item "title" (JStr []);
  abstract_note ← jget item "abstractNote" (JStr []);
  creators ← jget item "creators" (JList []);
  cs ← iterate creators;
  names ← author_names cs;
  match item with
  | JDict d =>
      year ← match d !! "date" with
             | Some date => slice4 date
             | None => Done (JStr [])
             end;
      keywords ← match d !! "tags" with
                 | Some (JList tags) => ts ← texts tags; Done (JStr (join (py ", ") ts))
                 | _ => Done (JStr [])
                 end;
      Done (<["title" := title]>
              (<["abstract" := abstract_note]>
                 (<["author" := JStr (join (py ", ") names)]>
                    (<["year" := year]>
                       (<["keywords" := keywords]> ∅)))))
  | _ => Fails NoAttributeGet
  end.

(** Lines 62-67: the items of the library. *)
Definition items_of (data : json) : parsed (list json) :=
  match data with
  | JList l => Done l
  | JDict d =>
      match d !! "items" with
      | Some items => iterate items
      | None => Done []
      end
  | _ => Done []
  end.

(** The loop of lines 69-94: [self.papers] when the loop ends or raises. *)
Fixpoint parse_items (papers : list jdict) (items : list json)
    : list jdict * parsed unit :=
  match items with
  | [] => (papers, Done tt)
  | item :: items' =>
      match json_paper item with
      | Done paper => parse_items (papers ++ [paper]) items'
      | Fails f => (papers, Fails f)
      end
  end.

(** [_parse_json] (lines 56-94), from the value [json.load] has read. *)
Definition _parse_json (papers : list jdict) (data : json)
    : list jdict * parsed unit :=
  match items_of data with
  | Done items => parse_items papers items
  | Fails f => (papers, Fails f)
  end.
End Json.

(** * Definitions the statements use *)

(** ** Matches as a relation

    [steps ic r c xs c'] : the pattern [r] can lead from the cursor [c] to the
    cursor [c'], consuming the text [xs].  [advance bf xs] is the character
    before the position reached after [xs]. *)

Definition advance (bf : option ascii) (xs : str) : option ascii :=
  fold_left (fun _ x => Some x) xs bf.

Inductive steps (ic : bool) : regex -> cursor -> str -> cursor -> Prop :=
| steps_eps c : steps ic Eps c [] c
| steps_lit a x l bf g :
    lit_eqb ic a x = true ->
    steps ic (Lit a) (Cursor bf (x :: l) g) [x] (Cursor (Some x) l g)
| steps_cls (p : ascii -> bool) x l bf g :
    p x = true ->
    steps ic (Cls p) (Cursor bf (x :: l) g) [x] (Cursor (Some x) l g)
| steps_seq r1 r2 c xs c1 ys c2 :
    steps ic r1 c xs c1 -> steps ic r2 c1 ys c2 ->
    steps ic (Seq r1 r2) c (xs ++ ys) c2
| steps_alt_l r1 r2 c xs c' :
    steps ic r1 c xs c' -> steps ic (Alt r1 r2) c xs c'
| steps_alt_r r1 r2 c xs c' :
    steps ic r2 c xs c' -> steps ic (Alt r1 r2) c xs c'
| steps_rep greedy least (p : ascii -> bool) bf xs l g :
    forallb p xs = true -> (least <= length xs)%nat ->
    steps ic (Rep greedy least p) (Cursor bf (xs ++ l) g) xs
      (Cursor (advance bf xs) l g)
| steps_grp r c xs c' :
    steps ic r c xs c' ->
    steps ic (Grp r) c xs (Cursor (before c') (rest c') (Some xs))
| steps_wordb c : at_boundary c = true -> steps ic WordB c [] c
| steps_end c : at_end c = true -> steps ic EndS c [] c.

(** A pattern without a group leaves the capture as it is. *)
Fixpoint group_free (r : regex) : bool :=
  match r with
  | Grp _ => false
  | Seq r1 r2 | Alt r1 r2 => group_free r1 && group_free r2
  | _ => true
  end.

(** The text [xs] is the word [w], up to case under IGNORECASE. *)
Fixpoint word_eqb (ic : bool) (w xs : str) : bool :=
  match w, xs with
  | [], [] => true
  | a :: w', x :: xs' => lit_eqb ic a x && word_eqb ic w' xs'
  | _, _ => false
  end.

(** The text [l] begins with the word [w], up to case under IGNORECASE. *)
Fixpoint begins_with (ic : bool) (w l : str) : bool :=
  match w, l with
  | [], _ => true
  | a :: w', x :: l' => lit_eqb ic a x && begins_with ic w' l'
  | _ :: _, [] => false
  end.

(** The first character of [l] exists and satisfies [p]. *)
Definition head_sat (p : ascii -> bool) (l : str) : bool :=
  match l with
  | x :: _ => p x
  | [] => false
  end.

(** The first character of [l], if there is one, satisfies [p]. *)
Definition head_all (p : ascii -> bool) (l : str) : bool :=
  match l with
  | x :: _ => p x
  | [] => true
  end.

Definition head_word (l : str) : bool :=
  match l with
  | x :: _ => is_word x
  | [] => false
  end.

Definition is_word_opt (bf : option ascii) : bool :=
  match bf with
  | Some x => is_word x
  | None => false
  end.

(** ** Labels in either case, trimmed texts *)

(** The other case of a letter A..Z or a..z; any other character is left
    as it is. *)
Definition swap_case (c : ascii) : ascii :=
  if in_range 65 90 c then ascii_of_N (ord c + 32)
  else if in_range 97 122 c then ascii_of_N (ord c - 32)
  else c.

(** The text [xs] is the word [w] with each of its letters in either
    case. *)
Fixpoint any_case (w xs : str) : bool :=
  match w, xs with
  | [], [] => true
  | a :: w', x :: xs' =>
      (chr_eqb x a || chr_eqb x (swap_case a)) && any_case w' xs'
  | _, _ => false
  end.

(** The text [s] is not empty and has no blank at either end. *)
Definition trimmed (s : str) : bool :=
  match s with
  | [] => false
  | x :: _ => negb (is_space x) && negb (head_sat is_space (rev s))
  end.

(** ** Numerals *)

(** A decimal numeral: digits, and possibly a point and further digits. *)
Definition numeral (ip : str) (fp : option str) : str :=
  ip ++ match fp with
        | Some f => "."%char :: f
        | None => []
        end.

(** The value of the numeral, as a fraction. *)
Definition numeral_value (ip : str) (fp : option str) : Q :=
  match fp with
  | Some f => digits_val (ip ++ f) # Z.to_pos (10 ^ Z.of_nat (length f))
  | None => digits_val ip # 1
  end.

Definition not_digit_nor_dot (c : ascii) : bool :=
  negb (is_digit c) && negb (chr_eqb "." c).

Definition not_newline (c : ascii) : bool := negb (chr_eqb nl c).

(** The characters between the SCORE label and the end of its line. *)
Definition plain (c : ascii) : bool :=
  is_space c || is_digit c || chr_eqb "." c.

(** The least double above 10: [10 + 2 ^ -49]. *)
Definition above_ten : Q := 10 + (1 # 562949953421312).

(** The numerals the last strategy captures: one digit, or 10. *)
Definition small_numeral (g : str) : bool :=
  match g with
  | [d] => is_digit d
  | [a; b] => chr_eqb a "1" && chr_eqb b "0"
  | _ => false
  end.

(** ** The last-resort strategy, position by position *)

(** What [num_re] captures when tried at one position: a digit, or 10, that
    has no word character on either side. *)
Definition numeral_at (bf : option ascii) (l : str) : option str :=
  if is_word_opt bf then None
  else
    match l with
    | d :: l1 =>
        if is_digit d && negb (head_word l1) then Some [d]
        else
          match l1 with
          | z :: l2 =>
              if chr_eqb "1" d && chr_eqb "0" z && negb (head_word l2)
              then Some [d; z]
              else None
          | [] => None
          end
    | [] => None
    end.

(** The tail of [num_re] after the group: an optional fraction and a word
    boundary. *)
Definition num_tail : regex :=
  (Opt (Lit "." +> Rep true 1 is_digit) +> WordB)%re.

(** The first position, from the left, at which [num_re] captures. *)
Fixpoint find_numeral (bf : option ascii) (l : str) : option str :=
  match numeral_at bf l with
  | Some g => Some g
  | None =>
      match l with
      | [] => None
      | x :: l' => find_numeral (Some x) l'
      end
  end.

(** ** Tokens

    The words of a text: its maximal runs of word characters, from left to
    right.  A token is what stands between two word boundaries; a decimal
    point is no word character, so the digits on either side of it are
    tokens of their own. *)
Fixpoint tokens (l : str) : list str :=
  match l with
  | [] => []
  | x :: l' =>
      if is_word x then
        if head_word l' then
          match tokens l' with
          | t :: ts => (x :: t) :: ts
          | [] => [[x]]
          end
        else [x] :: tokens l'
      else tokens l'
  end.

(** What the code computes: the first token that is one of the numerals
    0, 1, ..., 10 as [small_numeral] recognises them. *)
Definition first_small_numeral (text : str) : Q :=
  match find small_numeral (tokens text) with
  | Some t => inject_Z (digits_val t)
  | None => 0
  end.

(** ** The retry loop *)

(** The call of attempt [attempt], as [attempt_body] issues it. *)
Definition ask (self : LLMEvaluator) (env : environment) (prompt : str)
    (attempt : nat) : reply :=
  create env (model self) [(py "system", system_prompt); (py "user", prompt)]
    200%nat attempt.

(** The delay slept after a throttled attempt. *)
Definition backoff (env : environment) (attempt : nat) : Q :=
  fadd (fmul base_delay (inject_Z (2 ^ Z.of_nat attempt))) (uniform env attempt).

(** The throttling signal: a failure whose text passes the test of line 180. *)
Definition throttled (r : reply) : bool :=
  match r with
  | Failure error_str => is_rate_limit error_str
  | Content _ => false
  end.

(** [sample_count] after a reply has been parsed (lines 162-163). *)
Definition count_after (self : LLMEvaluator) (count : nat) : nat :=
  if verbose self && (count <? 3)%nat then S count else count.

(** The calls and the sleeps of a trace. *)
Definition creates (events : list event) : list nat :=
  omap (fun e => match e with Create k => Some k | Sleep _ => None end) events.

Definition sleeps (events : list event) : list Q :=
  omap (fun e => match e with Sleep d => Some d | Create _ => None end) events.

(** The trace of a task that stops at attempt [k]: each earlier attempt is
    followed by its sleep, the last one is not. *)
Definition trace_until (env : environment) (from k : nat) : list event :=
  flat_map (fun j => [Create j; Sleep (backoff env j)]) (seq from (k - from))
  ++ [Create k].

(** ** The batch *)

(** The evaluations the threshold lets through. *)
Definition retain (self : LLMEvaluator) (r : result evaluation) : option evaluation :=
  match r with
  | Ok e => if Qleb (threshold self) (score e) then Some e else None
  | Raise _ => None
  end.

(** The papers retained among the futures [futures], each with the evaluation
    that retained it, in the order of the futures. *)
Definition kept (self : LLMEvaluator) (fr : nat -> loc -> result evaluation)
    (future_to_paper : gmap nat loc) (futures : list nat) : list (loc * evaluation) :=
  omap (fun i =>
          match future_to_paper !! i with
          | Some p =>
              match retain self (fr i p) with
              | Some e => Some (p, e)
              | None => None
              end
          | None => None
          end) futures.

(** The two assignments of lines 86-91. *)
Definition attach (h : heap) (pe : loc * evaluation) : heap :=
  setitem (setitem h (fst pe) "relevance_score" (VFloat (score (snd pe))))
    (fst pe) "relevance_reason" (VStr (reason (snd pe))).

(** The papers of the batch whose task returned a score at or above the
    threshold, in the order of submission. *)
Definition relevant (self : LLMEvaluator) (fr : nat -> loc -> result evaluation)
    (papers : list loc) : list loc :=
  omap (fun i =>
          match papers !! i with
          | Some p =>
              match retain self (fr i p) with
              | Some _ => Some p
              | None => None
              end
          | None => None
          end) (seq 0 (length papers)).

(** The score a paper carries. *)
Definition attached_score (h : heap) (p : loc) : Q :=
  match deref h p !! "relevance_score" with
  | Some (VFloat s) => s
  | _ => 0
  end.

(** The paper has a title, and it is a text. *)
Definition titled (h : heap) (p : loc) : Prop :=
  exists t, deref h p !! "title" = Some (VStr t).

Definition by_key_desc (a b : Q * loc) : Prop := (fst b <= fst a)%Q.

(** ** Sample inputs *)

Definition labelled_reply : str :=
  py "SCORE: 8.5" ++ [nl] ++ py "REASON: Directly extends prior work.".

(** The same reply with the labels in other cases and blanks around the
    reason, followed by a further line. *)
Definition padded_reply : str :=
  py "score:8.5" ++ [nl] ++ py "Reason:   Directly extends prior work.  "
  ++ [nl] ++ py "Thanks.".

Definition seven_points : str :=
  py "This paper discusses 7 relevant points about transformers.".

(** A reply without a label whose only number is a decimal above 10. *)
Definition accuracy_reply : str := py "This method reaches 97.3% accuracy.".

(** A reply without a label that holds two decimals, the first above 10. *)
Definition two_decimals : str := py "12.5 and 9.7".

Definition paper_titled (title : string) : dict :=
  <["title" := VStr (py title)]> (<["abstract" := VStr (py "An abstract")]> ∅).

Definition sample_paper : dict := paper_titled "A title".

Definition sample_evaluator : LLMEvaluator :=
  {| model := py "gpt-4o-mini"; threshold := 7; max_workers := 10;
     verbose := false; sample_count := 0 |}.

Definition no_repr : Q -> str := fun _ => [].

Definition sample_prompt : str :=
  match _build_prompt no_repr sample_paper [] [] with
  | Ok prompt => prompt
  | Raise _ => []
  end.

(** An endpoint that always answers with a 429. *)
Definition always_throttled : environment :=
  {| create := fun _ _ _ _ => Failure (py "Error code: 429");
     uniform := fun _ => 0%Q |}.

(** An endpoint that answers with a 429 four times, and then with a
    well-formed reply. *)
Definition throttled_four_times : environment :=
  {| create := fun _ _ _ attempt =>
       if (attempt <? 4)%nat then Failure (py "Error code: 429")
       else Content (Some labelled_reply);
     uniform := fun _ => (1 # 2)%Q |}.

(** A jitter that is the greatest double below 1 at the first attempt,
    [1 - 2 ^ -53], and 0 afterwards. *)
Definition jitter_below_one : environment :=
  {| create := fun _ _ _ _ => Failure (py "Error code: 429");
     uniform := fun attempt =>
       match attempt with
       | O => (9007199254740991 # 9007199254740992)%Q
       | S _ => 0%Q
       end |}.

(** An endpoint that cannot be reached. *)
Definition always_failing : environment :=
  {| create := fun _ _ _ _ => Failure (py "Connection error.");
     uniform := fun _ => 0%Q |}.

(** An endpoint that refuses every request with an error of its own, which
    is no throttling signal; the message names the request. *)
Definition refusing_request_14290 : environment :=
  {| create := fun _ _ _ _ => Failure (py "Request id 14290 failed");
     uniform := fun _ => 0%Q |}.

(** An endpoint that always answers with the text [content]. *)
Definition answering (content : str) : environment :=
  {| create := fun _ _ _ _ => Content (Some content);
     uniform := fun _ => 0%Q |}.

Definition reply_text (score_text reason_text : string) : str :=
  py "SCORE: " ++ py score_text ++ [nl] ++ py "REASON: " ++ py reason_text.

(** A batch of three papers; the second one is scored below the threshold,
    and the third task completes first. *)
Definition sample_heap : heap :=
  <[1%positive := paper_titled "First"]>
    (<[2%positive := paper_titled "Second"]>
       (<[3%positive := paper_titled "Third"]> ∅)).

Definition sample_papers : list loc := [1; 2; 3]%positive.

Definition sample_world : world :=
  {| task_env := fun i =>
       match i with
       | 0%nat => answering (reply_text "8" "Relevant.")
       | 1%nat => answering (reply_text "3" "Unrelated.")
       | _ => answering (reply_text "9.5" "Central.")
       end;
     task_count := fun _ => 0%nat;
     completed := [2; 0; 1]%nat |}.

(** A batch of one paper that already has a field [relevance_score]. *)
Definition rated_heap : heap :=
  <[1%positive := <["relevance_score" := VStr (py "unrated")]> (paper_titled "First")]> ∅.

Definition one_task_world : world :=
  {| task_env := fun _ => answering (reply_text "9" "Central.");
     task_count := fun _ => 0%nat;
     completed := [0%nat] |}.

(** ** Definitions the further statements use *)

(** [s] is a contiguous part of [t]. *)
Definition part_of (s t : str) : Prop := exists a b, t = a ++ s ++ b.

(** The message of a failure names throttling: it holds the digits 429
    somewhere, or the word rate_limit with each letter in either case. *)
Definition names_throttling (msg : str) : Prop :=
  part_of (py "429") msg
  \/ exists v, any_case (py "rate_limit") v = true /\ part_of v msg.

(** The abstract of the paper is a text, or the paper has none. *)
Definition text_abstract (paper : dict) : Prop :=
  paper !! "abstract" = None \/ exists s, paper !! "abstract" = Some (VStr s).

(** A sentence terminator, as the class of the separator pattern has it. *)
Definition terminator (c : ascii) : bool :=
  chr_eqb c "." || chr_eqb c "!" || chr_eqb c "?".

(** The text [l] begins with a sentence separator: a terminator and a blank. *)
Definition breaks_at (l : str) : bool :=
  match l with
  | t :: y :: _ => terminator t && is_space y
  | _ => false
  end.

(** No terminator of [s] is followed by a blank of [s]. *)
Fixpoint no_break (s : str) : bool :=
  match s with
  | x :: s' => negb (breaks_at s) && no_break s'
  | [] => true
  end.

(** The sum of a list of delays. *)
Definition total_delay (delays : list Q) : Q := fold_right Qplus 0%Q delays.

(** The paper carries the score [q]. *)
Definition scored (h : heap) (q : Q) (p : loc) : bool :=
  Qeq_bool (attached_score h p) q.

(** The part of an abstract that reaches the summary is the same: the
    abstracts are equal, or both are texts longer than 200 characters with the
    same first 200. *)
Definition same_excerpt (a a' : value) : Prop :=
  a = a'
  \/ exists s s', a = VStr s /\ a' = VStr s'
       /\ (200 < length s)%nat /\ (200 < length s')%nat
       /\ firstn 200 s = firstn 200 s'.

(** What the summary reads of a paper. *)
Definition same_view (paper paper' : dict) : Prop :=
  paper !! "title" = paper' !! "title"
  /\ same_excerpt (get paper "abstract" (VStr [])) (get paper' "abstract" (VStr [])).

(** No field of the dictionary is a number. *)
Definition text_valued (d : dict) : Prop :=
  forall key x, d !! key <> Some (VFloat x).

(** An item as Zotero writes it: the creators, when given, are a list of
    dictionaries; the date, when given, is a text; the tags, when they are a
    list, are texts. *)
Definition plain_creators (d : jdict) : Prop :=
  match d !! "creators" with
  | Some (JList cs) => Forall (fun c => exists dc, c = JDict dc) cs
  | Some _ => False
  | None => True
  end.

Definition plain_date (d : jdict) : Prop :=
  match d !! "date" with
  | Some (JStr _) | None => True
  | Some _ => False
  end.

Definition plain_tags (d : jdict) : Prop :=
  match d !! "tags" with
  | Some (JList tags) => Forall (fun x => exists s, x = JStr s) tags
  | _ => True
  end.

Definition plain_item (item : json) : Prop :=
  exists d, item = JDict d /\ plain_creators d /\ plain_date d /\ plain_tags d.

(** The paper holds what [_parse_json] takes from the item: the title and
    the abstract as they are (the empty text when missing), the first four
    characters of the date as the year, and texts for the authors and the
    keywords; it has these five keys and no other. *)
Definition built_from (item : json) (paper : jdict) : Prop :=
  exists d, item = JDict d
    /\ paper !! "title" = Some (match d !! "title" with Some x => x | None => JStr [] end)
    /\ paper !! "abstract"
       = Some (match d !! "abstractNote" with Some x => x | None => JStr [] end)
    /\ paper !! "year"
       = Some (JStr (match d !! "date" with Some (JStr s) => firstn 4 s | _ => [] end))
    /\ (exists authors, paper !! "author" = Some (JStr authors))
    /\ (exists keywords, paper !! "keywords" = Some (JStr keywords))
    /\ forall key, is_Some (paper !! key)
         <-> key ∈ ["title"; "abstract"; "author"; "year"; "keywords"]%string.

(** Some item of [l] is not a text. *)
Definition not_all_texts (l : list json) : Prop :=
  exists x, x ∈ l /\ forall s, x <> JStr s.

(** ** Further sample inputs *)

(** The sample batch, its second paper without a title. *)
Definition untitled_heap : heap :=
  <[2%positive := <["abstract" := VStr (py "An abstract")]> ∅]> sample_heap.

(** The sample batch, its second paper without an abstract. *)
Definition no_abstract_heap : heap :=
  <[2%positive := <["title" := VStr (py "Second")]> ∅]> sample_heap.

(** A batch with a tie: the first and the third paper are both scored 8, and
    the third task completes first. *)
Definition tied_world : world :=
  {| task_env := fun i =>
       match i with
       | 1%nat => answering (reply_text "3" "Unrelated.")
       | _ => answering (reply_text "8" "Relevant.")
       end;
     task_count := fun _ => 0%nat;
     completed := [2; 0; 1]%nat |}.

(** A batch that holds the same paper twice; the task submitted second
    completes first. *)
Definition twice_world : world :=
  {| task_env := fun i =>
       match i with
       | 0%nat => answering (reply_text "8" "Relevant.")
       | _ => answering (reply_text "9" "Central.")
       end;
     task_count := fun _ => 0%nat;
     completed := [1; 0]%nat |}.

(** The second task of the batch meets an endpoint that cannot be reached. *)
Definition failing_world : world :=
  {| task_env := fun i =>
       match i with
       | 1%nat => always_failing
       | _ => answering (reply_text "8" "Relevant.")
       end;
     task_count := fun _ => 0%nat;
     completed := [2; 0; 1]%nat |}.

(** A reply of 150 characters without a label, a digit or a sentence. *)
Definition long_text : str := repeat "a"%char 150.

(** A library of three papers. *)
Definition sample_library : list dict :=
  [paper_titled "First"; paper_titled "Second"; paper_titled "Third"].

(** A paper with an abstract of more than 200 characters. *)
Definition excerpt_paper (author rest : string) : dict :=
  <["title" := VStr (py "A title")]>
    (<["abstract" := VStr (repeat "a"%char 200 ++ py rest)]>
       (<["author" := VStr (py author)]> ∅)).

Definition no_str : json -> str := fun _ => [].

(** An item with a tag, as Zotero exports it. *)
Definition tagged_item : json :=
  JDict (<["title" := JStr (py "A title")]>
           (<["creators" := JList [JDict (<["firstName" := JStr (py "Ada")]>
                                            (<["lastName" := JStr (py "Lovelace")]> ∅))]]>
              (<["date" := JStr (py "2020-01-31")]>
                 (<["tags" := JList [JDict (<["tag" := JStr (py "methods")]> ∅)]]> ∅)))).

(** An item without tags, whose second creator has no [lastName]. *)
Definition untagged_item : json :=
  JDict (<["title" := JStr (py "A title")]>
           (<["creators" := JList [JDict (<["firstName" := JStr (py "Ada")]>
                                            (<["lastName" := JStr (py "Lovelace")]> ∅));
                                   JDict (<["name" := JStr (py "A consortium")]> ∅)]]>
              (<["date" := JStr (py "2020-01-31")]> ∅))).

(** * Properties *)

(** ** Characters and lists *)

Lemma chr_eqb_eq a b : chr_eqb a b = true -> a = b.
Proof.
  unfold chr_eqb, ord. intros H%N.eqb_eq.
  rewrite <- (ascii_N_embedding a), <- (ascii_N_embedding b). by rewrite H.
Qed.

Lemma chr_eqb_refl a : chr_eqb a a = true.
Proof. apply N.eqb_refl. Qed.

Lemma lit_dot ic x : lit_eqb ic "." x = true -> x = "."%char.
Proof.
  destruct ic, x as [[] [] [] [] [] [] [] []]; vm_compute; congruence.
Qed.

Lemma is_digit_not_dot x : is_digit x = true -> chr_eqb x "." = false.
Proof.
  destruct x as [[] [] [] [] [] [] [] []]; vm_compute; congruence.
Qed.

Lemma is_digit_word x : is_digit x = true -> is_word x = true.
Proof. destruct x as [[] [] [] [] [] [] [] []]; vm_compute; congruence. Qed.

Lemma is_word_not_dot x : is_word x = true -> chr_eqb "." x = false.
Proof. destruct x as [[] [] [] [] [] [] [] []]; vm_compute; congruence. Qed.

Lemma chr_one_digit x : chr_eqb "1" x = true -> is_digit x = true.
Proof. by intros <-%chr_eqb_eq. Qed.

Lemma lit_eqb_lower a x : lit_eqb true a x = true -> lower x = lower a.
Proof. unfold lit_eqb. by intros ->%chr_eqb_eq. Qed.

Lemma plain_not_r c : plain c = true -> lit_eqb true "R" c = false.
Proof. destruct c as [[] [] [] [] [] [] [] []]; vm_compute; congruence. Qed.

Lemma head_sat_digit_space l : head_sat is_digit l = true -> head_sat is_space l = false.
Proof.
  destruct l as [|x l]; [done|]. simpl.
  destruct x as [[] [] [] [] [] [] [] []]; vm_compute; congruence.
Qed.

Lemma firstn_consumed (xs l : str) :
  firstn (length (xs ++ l) - length l) (xs ++ l) = xs.
Proof.
  rewrite length_app, Nat.add_sub, firstn_app, Nat.sub_diag, firstn_all.
  simpl. apply app_nil_r.
Qed.

Lemma forallb_weaken (p q : ascii -> bool) l :
  (forall c, p c = true -> q c = true) ->
  forallb p l = true -> forallb q l = true.
Proof.
  intros Hpq. induction l as [|x l IH]; simpl; [done|].
  intros [Hx Hl]%andb_prop. by rewrite (Hpq x Hx), IH.
Qed.

Lemma head_sat_app (p : ascii -> bool) xs l :
  xs <> [] -> head_sat p (xs ++ l) = head_sat p xs.
Proof. by destruct xs. Qed.

Lemma head_word_app xs l : xs <> [] -> head_word (xs ++ l) = head_word xs.
Proof. by destruct xs. Qed.

Lemma find_app_none {A} (p : A -> bool) l1 l2 :
  find p l1 = None -> find p (l1 ++ l2) = find p l2.
Proof.
  induction l1 as [|x l1 IH]; simpl; [done|].
  destruct (p x); [discriminate | exact IH].
Qed.

Lemma Qleb_inject (a b : Z) : a <= b -> Qleb (inject_Z a) (inject_Z b) = true.
Proof.
  intros H. unfold Qleb. apply Qle_bool_iff. by rewrite <- Zle_Qle.
Qed.

Lemma map_snd_keyed (key : loc -> Q) (l : list loc) :
  map snd (map (fun p => (key p, p)) l) = l.
Proof. induction l; simpl; congruence. Qed.

(** ** The matcher is sound for [steps] *)

Lemma steps_rest ic r c xs c' : steps ic r c xs c' -> rest c = xs ++ rest c'.
Proof.
  induction 1; simpl in *; try reflexivity.
  - rewrite IHsteps1, IHsteps2. by rewrite <- app_assoc.
  - assumption.
  - assumption.
  - assumption.
Qed.

Lemma rep_sound {A} greedy p least bf l g (k : cursor -> option A) a :
  rep greedy p least bf l g k = Some a ->
  exists xs l', l = xs ++ l' /\ forallb p xs = true /\ (least <= length xs)%nat
    /\ k (Cursor (advance bf xs) l' g) = Some a.
Proof.
  revert least bf.
  induction l as [|x l IH]; intros least bf H.
  - destruct greedy, least; simpl in H; try discriminate;
      exists [], []; repeat split; auto; destruct (k _); congruence.
  - assert (Hmore : (if p x then rep greedy p (pred least) (Some x) l g k else None) = Some a ->
      exists xs l', x :: l = xs ++ l' /\ forallb p xs = true /\ (least <= length xs)%nat
        /\ k (Cursor (advance bf xs) l' g) = Some a).
    { destruct (p x) eqn:Hp; [|discriminate]. intros Hr.
      destruct (IH _ _ Hr) as (xs & l' & -> & Hall & Hlen & Hk).
      exists (x :: xs), l'. simpl. rewrite Hp, Hall. repeat split; auto. lia. }
    assert (Hstop : match least with O => k (Cursor bf (x :: l) g) | S _ => None end = Some a ->
      exists xs l', x :: l = xs ++ l' /\ forallb p xs = true /\ (least <= length xs)%nat
        /\ k (Cursor (advance bf xs) l' g) = Some a).
    { destruct least; [|discriminate]. intros Hk. exists [], (x :: l). auto. }
    destruct greedy; simpl in H.
    + destruct (if p x then _ else _) eqn:E; [inversion H; subst; auto | auto].
    + destruct (match least with O => _ | S _ => _ end) eqn:E;
        [inversion H; subst; auto | auto].
Qed.

Lemma run_sound {A} ic r : forall c (k : cursor -> option A) a,
  run ic r c k = Some a ->
  exists xs c', steps ic r c xs c' /\ k c' = Some a.
Proof.
  induction r as [ | a0 | p | r1 IH1 r2 IH2 | r1 IH1 r2 IH2 | greedy least p
                 | r IH | | ]; intros c k a H; simpl in H.
  - exists [], c. split; [constructor | done].
  - destruct c as [bf [|x l] g]; simpl in H; [discriminate|].
    destruct (lit_eqb ic a0 x) eqn:E; [|discriminate].
    eexists _, _. split; [by constructor | done].
  - destruct c as [bf [|x l] g]; simpl in H; [discriminate|].
    destruct (p x) eqn:E; [|discriminate].
    eexists _, _. split; [by constructor | done].
  - apply IH1 in H as (xs & c1 & H1 & H).
    apply IH2 in H as (ys & c2 & H2 & H).
    eexists _, _. split; [by econstructor | done].
  - destruct (run ic r1 c k) eqn:E.
    + inversion H; subst. apply IH1 in E as (xs & c' & H1 & Hk).
      eexists _, _. split; [by apply steps_alt_l | done].
    + apply IH2 in H as (xs & c' & H1 & Hk).
      eexists _, _. split; [by apply steps_alt_r | done].
  - destruct c as [bf l g]; simpl in H.
    apply rep_sound in H as (xs & l' & -> & Hall & Hlen & Hk).
    eexists _, _. split; [by constructor | done].
  - apply IH in H as (xs & c' & H1 & Hk).
    rewrite (steps_rest _ _ _ _ _ H1) in Hk.
    rewrite length_app, Nat.add_sub, firstn_app, Nat.sub_diag, firstn_all in Hk.
    simpl in Hk. rewrite app_nil_r in Hk.
    eexists _, _. split; [by apply steps_grp | done].
  - destruct (at_boundary c) eqn:E; [|discriminate].
    exists [], c. split; [by constructor | done].
  - destruct (at_end c) eqn:E; [|discriminate].
    exists [], c. split; [by constructor | done].
Qed.

Lemma search_from_sound ic r bf l m :
  search_from ic r bf l = Some m ->
  exists bf' l' xs, steps ic r (Cursor bf' l' None) xs m.
Proof.
  revert bf. induction l as [|x l IH]; intros bf H; simpl in H.
  - destruct (match_at ic r bf []) eqn:E; [|discriminate].
    inversion H; subst. apply run_sound in E as (xs & c' & Hs & Hk).
    inversion Hk; subst. eauto.
  - destruct (match_at ic r bf (x :: l)) eqn:E.
    + inversion H; subst. apply run_sound in E as (xs & c' & Hs & Hk).
      inversion Hk; subst. eauto.
    + eauto.
Qed.

(** ** How the repetitions and the literal words run *)

(** A greedy repetition takes the whole run when the rest of the pattern
    accepts after it. *)
Lemma rep_greedy_all {A} p xs : forall least bf l g (k : cursor -> option A) a,
  forallb p xs = true -> head_sat p l = false -> (least <= length xs)%nat ->
  k (Cursor (advance bf xs) l g) = Some a ->
  rep true p least bf (xs ++ l) g k = Some a.
Proof.
  induction xs as [|x xs IH]; intros least bf l g k a Hall Hl Hlen Hk.
  - simpl in *. destruct least; [|lia].
    destruct l as [|y l]; simpl; [done|]. simpl in Hl. by rewrite Hl.
  - simpl in Hall. apply andb_prop in Hall as [Hx Hall].
    cbn [app rep]. rewrite Hx.
    rewrite (IH (pred least) (Some x) l g k a); try done.
    simpl in Hlen. lia.
Qed.

(** A lazy repetition stops at the first length, from [least] on, after which
    the rest of the pattern accepts. *)
Lemma rep_lazy_first {A} p xs : forall least bf l g (k : cursor -> option A) a,
  forallb p xs = true -> (least <= length xs)%nat ->
  (forall xs1 xs2, xs = xs1 ++ xs2 -> xs2 <> [] -> (least <= length xs1)%nat ->
     k (Cursor (advance bf xs1) (xs2 ++ l) g) = None) ->
  k (Cursor (advance bf xs) l g) = Some a ->
  rep false p least bf (xs ++ l) g k = Some a.
Proof.
  induction xs as [|x xs IH]; intros least bf l g k a Hall Hlen Hfail Hk.
  - simpl in *. destruct least; [|lia].
    destruct l; simpl; by rewrite Hk.
  - simpl in Hall. apply andb_prop in Hall as [Hx Hall].
    cbn [app rep]. rewrite Hx.
    assert (Hrec : rep false p (pred least) (Some x) (xs ++ l) g k = Some a).
    { apply IH; try done.
      - simpl in Hlen. lia.
      - intros xs1 xs2 -> Hne Hl1.
        apply (Hfail (x :: xs1) xs2); [done | done | simpl; lia]. }
    destruct least; [|exact Hrec].
    pose proof (Hfail [] (x :: xs) eq_refl) as H0. simpl in H0.
    rewrite H0; [exact Hrec | done | lia].
Qed.

(** A literal word runs through a text equal to it (up to case under
    IGNORECASE), and fails on any other. *)
Lemma run_word {A} ic w : forall xs bf l g (k : cursor -> option A),
  word_eqb ic w xs = true ->
  run ic (Word w) (Cursor bf (xs ++ l) g) k = k (Cursor (advance bf xs) l g).
Proof.
  induction w as [|a w IH]; intros [|x xs] bf l g k H; try discriminate.
  - reflexivity.
  - simpl in H. apply andb_prop in H as [Hx H].
    cbn [Word run app rest group1]. rewrite Hx. by rewrite IH.
Qed.

Lemma run_word_fails {A} ic w : forall bf l g (k : cursor -> option A),
  begins_with ic w l = false ->
  run ic (Word w) (Cursor bf l g) k = None.
Proof.
  induction w as [|a w IH]; intros bf l g k H; [discriminate|].
  destruct l as [|x l]; [reflexivity|].
  cbn [Word run rest]. simpl in H.
  destruct (lit_eqb ic a x); [|reflexivity]. by apply IH.
Qed.

(** [re.search] passes the positions at which the pattern does not match. *)
Lemma search_from_skip ic r pre : forall bf l,
  (forall pre1 pre2, pre = pre1 ++ pre2 -> pre2 <> [] ->
     match_at ic r (advance bf pre1) (pre2 ++ l) = None) ->
  search_from ic r bf (pre ++ l) = search_from ic r (advance bf pre) l.
Proof.
  induction pre as [|x pre IH]; intros bf l H; [reflexivity|].
  cbn [app search_from].
  pose proof (H [] (x :: pre) eq_refl) as H0. simpl in H0.
  rewrite H0 by done.
  apply IH. intros pre1 pre2 -> Hne. by apply (H (x :: pre1) pre2).
Qed.

Lemma search_from_found ic r bf l m :
  match_at ic r bf l = Some m -> search_from ic r bf l = Some m.
Proof. intros H. destruct l; simpl; by rewrite H. Qed.

(** ** Rounding to the nearest double *)

Lemma round_half_even_spec a b :
  0 < b ->
  b * (2 * round_half_even a b - 1) <= 2 * a <= b * (2 * round_half_even a b + 1)
  /\ (2 * a = b * (2 * round_half_even a b + 1) -> Z.even (round_half_even a b) = true)
  /\ (2 * a = b * (2 * round_half_even a b - 1) -> Z.even (round_half_even a b) = true).
Proof.
  intros Hb. unfold round_half_even.
  pose proof (Z.div_mod a b ltac:(lia)) as Ha.
  pose proof (Z.mod_pos_bound a b Hb) as Hr.
  set (q := a / b) in *. set (r := a mod b) in *.
  destruct (Z.ltb_spec (2 * r) b) as [H1|H1].
  { repeat split; try nia. }
  destruct (Z.ltb_spec b (2 * r)) as [H2|H2].
  { repeat split; try nia. }
  assert (Hrb : 2 * r = b) by lia.
  destruct (Z.even q) eqn:Hq.
  - repeat split; try nia. done.
  - assert (Hq' : Z.even (q + 1) = true).
    { rewrite Z.even_add, Hq. reflexivity. }
    repeat split; try nia; intros _; exact Hq'.
Qed.

Lemma round_half_even_mono a1 b1 a2 b2 :
  0 < b1 -> 0 < b2 -> a1 * b2 <= a2 * b1 ->
  round_half_even a1 b1 <= round_half_even a2 b2.
Proof.
  intros Hb1 Hb2 Hle.
  destruct (round_half_even_spec a1 b1 Hb1) as [[L1 _] [_ T1]].
  destruct (round_half_even_spec a2 b2 Hb2) as [[_ U2] [T2 _]].
  set (m1 := round_half_even a1 b1) in *. set (m2 := round_half_even a2 b2) in *.
  destruct (Z_le_gt_dec m1 m2) as [|Hgt]; [done|exfalso].
  assert (H1 : b2 * (b1 * (2 * m1 - 1)) <= b2 * (2 * a1)) by nia.
  assert (H2 : b1 * (2 * a2) <= b1 * (b2 * (2 * m2 + 1))) by nia.
  assert (H3 : b1 * b2 * (2 * m1 - 1) <= b1 * b2 * (2 * m2 + 1)) by nia.
  assert (H4 : 2 * m1 - 1 <= 2 * m2 + 1).
  { apply Z.mul_le_mono_pos_l with (p := b1 * b2); nia. }
  assert (Hm : m1 = m2 + 1) by lia.
  assert (E1 : 2 * a1 = b1 * (2 * m1 - 1)) by nia.
  assert (E2 : 2 * a2 = b2 * (2 * m2 + 1)) by nia.
  specialize (T1 E1). specialize (T2 E2).
  rewrite Hm, Z.even_add, T2 in T1. discriminate.
Qed.

Lemma round_half_even_exact c b : 0 < b -> round_half_even (c * b) b = c.
Proof.
  intros Hb. unfold round_half_even.
  rewrite Z.div_mul, Z.mod_mul by lia.
  destruct (Z.ltb_spec (2 * 0) b); [done|lia].
Qed.

Lemma round_half_even_ge c a b : 0 < b -> c * b <= a -> c <= round_half_even a b.
Proof.
  intros Hb H. rewrite <- (round_half_even_exact c b Hb).
  apply round_half_even_mono; nia.
Qed.

Lemma round_half_even_le c a b : 0 < b -> a <= c * b -> round_half_even a b <= c.
Proof.
  intros Hb H. rewrite <- (round_half_even_exact c b Hb).
  apply round_half_even_mono; nia.
Qed.

Lemma binary64_units_nonneg n d : 0 <= n -> 0 <= binary64_units n d.
Proof.
  intros Hn. unfold binary64_units.
  apply Z.min_glb; [|by apply Z.pow_nonneg].
  apply Z.mul_nonneg_nonneg; [|by apply Z.pow_nonneg].
  apply (round_half_even_ge 0). { pose proof (Z.pow_pos_nonneg 2 (Z.max (Z.log2 (n * 2 ^ 1074 / Z.pos d) - 52) 0)). lia. }
  pose proof (Z.pow_pos_nonneg 2 1074). nia.
Qed.

Lemma div_le_cross n1 d1 n2 d2 :
  0 < d1 -> 0 < d2 -> n1 * d2 <= n2 * d1 -> n1 / d1 <= n2 / d2.
Proof.
  intros H1 H2 H.
  apply Z.div_le_lower_bound; [done|].
  pose proof (Z.mul_div_le n1 d1 H1).
  apply Z.mul_le_mono_pos_l with (p := d1); [done|]. nia.
Qed.

Lemma binary64_units_mono n1 d1 n2 d2 :
  0 <= n1 -> n1 * Zpos d2 <= n2 * Zpos d1 ->
  binary64_units n1 d1 <= binary64_units n2 d2.
Proof.
  intros Hn1 Hle. unfold binary64_units.
  assert (Hn2 : 0 <= n2) by nia.
  assert (Hp : 0 < 2 ^ 1074) by (by apply Z.pow_pos_nonneg).
  set (N1 := n1 * 2 ^ 1074). set (N2 := n2 * 2 ^ 1074).
  assert (HN1 : 0 <= N1) by (subst N1; nia).
  assert (HN : N1 * Zpos d2 <= N2 * Zpos d1) by (subst N1 N2; nia).
  pose proof (div_le_cross N1 (Zpos d1) N2 (Zpos d2) ltac:(lia) ltac:(lia) HN) as Hq.
  set (q1 := N1 / Zpos d1) in *. set (q2 := N2 / Zpos d2) in *.
  assert (Hq1 : 0 <= q1) by (subst q1; apply Z.div_pos; lia).
  pose proof (Z.log2_le_mono q1 q2 Hq) as Hl.
  set (t1 := Z.max (Z.log2 q1 - 52) 0). set (t2 := Z.max (Z.log2 q2 - 52) 0).
  assert (Ht : 0 <= t1 <= t2) by lia.
  assert (Hp1 : 0 < 2 ^ t1) by (apply Z.pow_pos_nonneg; lia).
  assert (Hp2 : 0 < 2 ^ t2) by (apply Z.pow_pos_nonneg; lia).
  apply Z.min_le_compat_r.
  destruct (Z.eq_dec t1 t2) as [E|NE].
  - rewrite <- E. apply Z.mul_le_mono_nonneg_r; [lia|].
    apply round_half_even_mono; nia.
  - assert (Hlt : t1 < t2) by lia.
    assert (Ht2 : t2 = Z.log2 q2 - 52) by lia.
    assert (Hq2 : 0 < q2).
    { destruct (Z.le_gt_cases q2 0) as [H0|]; [|done].
      rewrite (Z.log2_nonpos q2 H0) in Ht2. lia. }
    (* the larger one is at least 2 ^ (log2 q2) *)
    pose proof (Z.log2_spec q2 Hq2) as [Hlo2 _].
    assert (Hy : 2 ^ 52 * (Zpos d2 * 2 ^ t2) <= N2).
    { assert (2 ^ Z.log2 q2 = 2 ^ 52 * 2 ^ t2) as E.
      { rewrite <- Z.pow_add_r by lia. f_equal. lia. }
      pose proof (Z.mul_div_le N2 (Zpos d2) ltac:(lia)). fold q2 in H. nia. }
    apply (round_half_even_ge (2 ^ 52) N2 (Zpos d2 * 2 ^ t2) ltac:(nia)) in Hy.
    (* the smaller one is below 2 ^ (log2 q1 + 1) *)
    assert (Hup1 : q1 < 2 ^ (Z.log2 q1 + 1)).
    { destruct (Z.eq_dec q1 0) as [->|]; [done|].
      pose proof (Z.log2_spec q1 ltac:(lia)) as [_ Hu]. by rewrite Z.add_1_r. }
    assert (Hx : N1 <= 2 ^ (Z.log2 q1 + 1 - t1) * (Zpos d1 * 2 ^ t1)).
    { assert (2 ^ (Z.log2 q1 + 1 - t1) * 2 ^ t1 = 2 ^ (Z.log2 q1 + 1)) as E.
      { rewrite <- Z.pow_add_r; [f_equal; lia| |lia].
        pose proof (Z.log2_nonneg q1). lia. }
      assert (N1 < (q1 + 1) * Zpos d1).
      { pose proof (Z.mod_pos_bound N1 (Zpos d1) ltac:(lia)).
        pose proof (Z.div_mod N1 (Zpos d1) ltac:(lia)). fold q1 in H0. nia. }
      nia. }
    apply (round_half_even_le _ N1 (Zpos d1 * 2 ^ t1) ltac:(nia)) in Hx.
    set (m1 := round_half_even N1 (Zpos d1 * 2 ^ t1)) in *.
    set (m2 := round_half_even N2 (Zpos d2 * 2 ^ t2)) in *.
    transitivity (2 ^ (Z.log2 q1 + 1)).
    + assert (2 ^ (Z.log2 q1 + 1 - t1) * 2 ^ t1 = 2 ^ (Z.log2 q1 + 1)) as E.
      { rewrite <- Z.pow_add_r; [f_equal; lia| |lia].
        pose proof (Z.log2_nonneg q1). lia. }
      rewrite <- E. apply Z.mul_le_mono_nonneg_r; lia.
    + transitivity (2 ^ 52 * 2 ^ t2); [|apply Z.mul_le_mono_nonneg_r; lia].
      rewrite <- Z.pow_add_r by lia. apply Z.pow_le_mono_r; lia.
Qed.

Lemma binary64_unfold n d :
  0 <= n -> (binary64 (n # d) == binary64_units n d # Z.to_pos (2 ^ 1074))%Q.
Proof.
  intros Hn. unfold binary64. cbn [Qnum Qden].
  destruct n; [| |lia]; apply Qred_correct.
Qed.

Lemma binary64_nonneg x : (0 <= x)%Q -> (0 <= binary64 x)%Q.
Proof.
  destruct x as [n d]. unfold Qle at 1. cbn [Qnum Qden]. intros Hn.
  assert (H0 : 0 <= n) by lia.
  rewrite binary64_unfold by done. unfold Qle. cbn [Qnum Qden].
  pose proof (binary64_units_nonneg n d H0). lia.
Qed.

Lemma binary64_mono x y : (0 <= x)%Q -> (x <= y)%Q -> (binary64 x <= binary64 y)%Q.
Proof.
  destruct x as [n1 d1], y as [n2 d2]. unfold Qle at 1 2. cbn [Qnum Qden].
  intros H0 Hle.
  assert (Hn1 : 0 <= n1) by lia.
  assert (Hn2 : 0 <= n2) by nia.
  pose proof (binary64_units_mono n1 d1 n2 d2 Hn1 Hle) as Hm.
  rewrite !binary64_unfold by done. unfold Qle. cbn [Qnum Qden].
  apply Z.mul_le_mono_nonneg_r; lia.
Qed.

(** ** The captured numerals are numerals *)

Lemma split_dot_digits ds :
  forallb is_digit ds = true -> split_dot ds = (ds, None).
Proof.
  induction ds as [|d ds IH]; simpl; [done|].
  intros [Hd Hds]%andb_prop.
  by rewrite (is_digit_not_dot _ Hd), (IH Hds).
Qed.

Lemma split_dot_point ds fp :
  forallb is_digit ds = true -> split_dot (ds ++ "."%char :: fp) = (ds, Some fp).
Proof.
  induction ds as [|d ds IH]; simpl; [done|].
  intros [Hd Hds]%andb_prop.
  by rewrite (is_digit_not_dot _ Hd), (IH Hds).
Qed.

Lemma float_integer ds :
  ds <> [] -> forallb is_digit ds = true ->
  float ds = Ok (binary64 (digits_val ds # 1)).
Proof.
  intros Hne Hds. unfold float.
  rewrite (split_dot_digits _ Hds), Hds. simpl.
  destruct ds; [done|]. simpl. by rewrite app_nil_r.
Qed.

Lemma float_decimal ip fp :
  ip <> [] -> forallb is_digit ip = true -> forallb is_digit fp = true ->
  float (ip ++ "."%char :: fp)
  = Ok (binary64 (digits_val (ip ++ fp) # Z.to_pos (10 ^ Z.of_nat (length fp)))).
Proof.
  intros Hne Hip Hfp. unfold float.
  rewrite (split_dot_point _ _ Hip), Hip, Hfp. simpl.
  destruct ip; [done|]. reflexivity.
Qed.

(** [float] rounds as Python does: a numeral that is no double gives the
    nearest double. *)
Lemma float_rounds :
  float (py "8.5") = Ok (17 # 2)%Q
  /\ float (py "0.1") = Ok (3602879701896397 # 36028797018963968)%Q
  /\ float (py "6.99999999999999999999") = Ok 7%Q
  /\ float (py "10.00000000000000000001") = Ok 10%Q.
Proof. repeat split; vm_compute; reflexivity. Qed.

Ltac invc H := inversion H; subst; clear H.

Lemma steps_seq_inv ic r1 r2 c xs c' :
  steps ic (Seq r1 r2) c xs c' ->
  exists xs1 c1 xs2,
    steps ic r1 c xs1 c1 /\ steps ic r2 c1 xs2 c' /\ xs = xs1 ++ xs2.
Proof. intros H. invc H. eauto 10. Qed.

Lemma steps_alt_inv ic r1 r2 c xs c' :
  steps ic (Alt r1 r2) c xs c' -> steps ic r1 c xs c' \/ steps ic r2 c xs c'.
Proof. intros H. invc H; auto. Qed.

Lemma steps_grp_inv ic r c xs c' :
  steps ic (Grp r) c xs c' ->
  exists c0, steps ic r c xs c0 /\ c' = Cursor (before c0) (rest c0) (Some xs).
Proof. intros H. invc H. eauto. Qed.

Lemma steps_cls_inv ic p c xs c' :
  steps ic (Cls p) c xs c' -> exists x, xs = [x] /\ p x = true.
Proof. intros H. invc H. eauto. Qed.

Lemma steps_lit_inv ic a c xs c' :
  steps ic (Lit a) c xs c' -> exists x, xs = [x] /\ lit_eqb ic a x = true.
Proof. intros H. invc H. eauto. Qed.

Lemma steps_eps_inv ic c xs c' : steps ic Eps c xs c' -> xs = [] /\ c' = c.
Proof. intros H. invc H. auto. Qed.

Lemma steps_rep_inv ic greedy least p c xs c' :
  steps ic (Rep greedy least p) c xs c' ->
  forallb p xs = true /\ (least <= length xs)%nat.
Proof. intros H. invc H. auto. Qed.

Lemma steps_group_free ic r c xs c' :
  steps ic r c xs c' -> group_free r = true -> group1 c' = group1 c.
Proof.
  induction 1; simpl; try done.
  - intros [H1 H2]%andb_prop. by rewrite IHsteps2, IHsteps1.
  - intros [H1 H2]%andb_prop. auto.
  - intros [H1 H2]%andb_prop. auto.
Qed.

Lemma steps_word_inv ic w : forall c xs c',
  steps ic (Word w) c xs c' -> word_eqb ic w xs = true.
Proof.
  induction w as [|a w IH]; simpl; intros c xs c' H.
  - by apply steps_eps_inv in H as [-> _].
  - apply steps_seq_inv in H as (xs1 & c1 & xs2 & H1 & H2 & ->).
    apply steps_lit_inv in H1 as (x & -> & Hx). simpl.
    rewrite Hx. eauto.
Qed.

Lemma number_group_shape ic c xs c' :
  steps ic number_group c xs c' ->
  group1 c' = Some xs /\ exists q, float xs = Ok q.
Proof.
  unfold number_group, Opt. intros H.
  apply steps_grp_inv in H as (c0 & H & ->). split; [reflexivity|].
  apply steps_seq_inv in H as (ds & c1 & tl & Hd & H & ->).
  apply steps_rep_inv in Hd as [Hds Hlen].
  apply steps_seq_inv in H as (pt & c2 & fs & Hp & Hf & ->).
  apply steps_rep_inv in Hf as [Hfs _].
  assert (Hne : ds <> []) by (destruct ds; simpl in *; [lia | done]).
  apply steps_alt_inv in Hp as [Hp|Hp].
  - apply steps_lit_inv in Hp as (x & -> & Hx). apply lit_dot in Hx as ->.
    simpl. rewrite float_decimal; eauto.
  - apply steps_eps_inv in Hp as [-> _]. simpl.
    rewrite float_integer; eauto.
    + by destruct ds.
    + rewrite forallb_app. by apply andb_true_intro.
Qed.

Lemma score_re_shape m bf l xs :
  steps true score_re (Cursor bf l None) xs m ->
  exists g q, group1 m = Some g /\ float g = Ok q.
Proof.
  unfold score_re. intros H.
  apply steps_seq_inv in H as (? & ? & ? & _ & H & _).
  apply steps_seq_inv in H as (? & ? & ? & _ & H & _).
  apply number_group_shape in H as [Hg [q Hq]]. eauto.
Qed.

Lemma alt_re_shape m bf l xs :
  steps true alt_re (Cursor bf l None) xs m ->
  exists g q, group1 m = Some g /\ float g = Ok q.
Proof.
  unfold alt_re. intros H.
  apply steps_seq_inv in H as (? & ? & ? & _ & H & _).
  apply steps_seq_inv in H as (? & ? & ? & _ & H & _).
  apply number_group_shape in H as [Hg [q Hq]]. eauto.
Qed.

Lemma num_re_shape m bf l xs :
  steps false num_re (Cursor bf l None) xs m ->
  exists g, group1 m = Some g /\ small_numeral g = true.
Proof.
  unfold num_re. intros H.
  apply steps_seq_inv in H as (? & ? & ? & _ & H & _).
  apply steps_seq_inv in H as (g & c1 & ? & Hg & H & _).
  apply steps_group_free in H; [|reflexivity].
  rewrite H. clear H.
  apply steps_grp_inv in Hg as (c0 & Hg & ->). simpl.
  exists g. split; [reflexivity|].
  apply steps_alt_inv in Hg as [Hg|Hg].
  - by apply steps_cls_inv in Hg as (d & -> & Hd).
  - apply steps_word_inv in Hg.
    destruct g as [|a [|b [|? ?]]]; simpl in Hg; try discriminate;
      repeat match goal with
      | H : _ && _ = true |- _ => apply andb_prop in H as [? ?]
      end; try discriminate.
    repeat match goal with
    | H : chr_eqb _ _ = true |- _ => apply chr_eqb_eq in H; subst
    end.
    reflexivity.
Qed.

Lemma small_numeral_float g :
  small_numeral g = true ->
  float g = Ok (inject_Z (digits_val g)) /\ 0 <= digits_val g <= 10.
Proof.
  destruct g as [|a [|b [|? ?]]]; simpl; try discriminate.
  - destruct a as [[] [] [] [] [] [] [] []]; vm_compute; try discriminate;
      intros _; (split; [reflexivity | split; discriminate]).
  - intros [Ha%chr_eqb_eq Hb%chr_eqb_eq]%andb_prop. subst.
    vm_compute. split; [reflexivity | split; discriminate].
Qed.

Lemma reason_re_shape m bf l xs :
  steps true reason_re (Cursor bf l None) xs m ->
  exists g, group1 m = Some g.
Proof.
  unfold reason_re. intros H.
  apply steps_seq_inv in H as (? & ? & ? & _ & H & _).
  apply steps_seq_inv in H as (? & ? & ? & _ & H & _).
  apply steps_seq_inv in H as (g & c1 & ? & Hg & H & _).
  apply steps_group_free in H; [|reflexivity].
  rewrite H.
  apply steps_grp_inv in Hg as (c0 & Hg & ->). simpl. eauto.
Qed.

(** ** [_parse_response] never raises *)

Lemma parse_score_total content : exists score, parse_score content = Ok score.
Proof.
  unfold parse_score, re_search.
  destruct (search_from true score_re None content) as [m|] eqn:E1.
  { apply search_from_sound in E1 as (bf & l & xs & H).
    apply score_re_shape in H as (g & q & Hg & Hq).
    unfold group. rewrite Hg. simpl. rewrite Hq. eauto. }
  destruct (search_from true alt_re None content) as [m|] eqn:E2.
  { apply search_from_sound in E2 as (bf & l & xs & H).
    apply alt_re_shape in H as (g & q & Hg & Hq).
    unfold group. rewrite Hg. simpl. rewrite Hq. eauto. }
  destruct (search_from false num_re None content) as [m|] eqn:E3; [|eauto].
  apply search_from_sound in E3 as (bf & l & xs & H).
  apply num_re_shape in H as (g & Hg & Hn).
  apply small_numeral_float in Hn as [Hf _].
  unfold group. rewrite Hg. simpl. rewrite Hf. simpl.
  destruct (_ && _); eauto.
Qed.

Lemma parse_reason_total content : exists reason, parse_reason content = Ok reason.
Proof.
  unfold parse_reason, re_search.
  destruct (search_from true reason_re None content) as [m|] eqn:E1.
  - apply search_from_sound in E1 as (bf & l & xs & H).
    apply reason_re_shape in H as (g & Hg).
    unfold group. rewrite Hg. simpl. eauto.
  - destruct (_ <? _)%nat; eauto.
Qed.

Lemma parse_response_total content paper_title :
  exists score reason, _parse_response content paper_title = Ok (score, reason).
Proof.
  destruct (parse_score_total content) as [s Hs].
  destruct (parse_reason_total content) as [r Hr].
  exists s, r. unfold _parse_response. by rewrite Hs, Hr.
Qed.

(** ** The labelled strategies on a reply of the requested form *)

Lemma float_numeral ip fp :
  ip <> [] -> forallb is_digit ip = true ->
  forallb is_digit (default [] fp) = true ->
  float (numeral ip fp) = Ok (binary64 (numeral_value ip fp)).
Proof.
  intros Hne Hip Hfp. unfold numeral, numeral_value.
  destruct fp as [f|]; simpl in *.
  - by apply float_decimal.
  - rewrite app_nil_r. by apply float_integer.
Qed.

Lemma run_number_group ic bf ip fp l g :
  ip <> [] -> forallb is_digit ip = true ->
  forallb is_digit (default [] fp) = true ->
  head_all not_digit_nor_dot l = true ->
  run ic number_group (Cursor bf (numeral ip fp ++ l) g) Some
  = Some (Cursor (advance bf (numeral ip fp)) l (Some (numeral ip fp))).
Proof.
  intros Hne Hip Hfp Hl. unfold number_group.
  cbn [run before rest group1].
  assert (Hnd : head_sat is_digit l = false).
  { destruct l as [|x l]; [done|]. simpl in *.
    apply andb_prop in Hl as [Hx _]. by apply negb_true_iff in Hx. }
  unfold numeral at 1. rewrite <- app_assoc.
  apply rep_greedy_all; try done.
  { destruct fp as [f|]; simpl; [|exact Hnd].
    destruct (is_digit ".") eqn:E; [|done]. vm_compute in E. discriminate. }
  { destruct ip; simpl; [done | lia]. }
  unfold Opt. cbn [run rest group1 before].
  destruct fp as [f|]; simpl default in *; cbn [app].
  - assert (Hdot : lit_eqb ic "." "." = true) by (by destruct ic).
    rewrite Hdot.
    rewrite (rep_greedy_all is_digit f 0 (Some "."%char) l g
               _ (Cursor (advance bf (numeral ip (Some f))) l (Some (numeral ip (Some f)))));
      try done; [lia|].
    cbn [before rest]. rewrite firstn_consumed.
    unfold numeral, advance. rewrite fold_left_app. reflexivity.
  - assert (Hgoal : rep true is_digit 0 (advance bf ip) l g
              (fun c' => Some (Cursor (before c') (rest c')
                 (Some (firstn (length (numeral ip None ++ l) - length (rest c'))
                          (numeral ip None ++ l)))))
            = Some (Cursor (advance bf (numeral ip None)) l (Some (numeral ip None)))).
    { apply (rep_greedy_all is_digit [] 0 (advance bf ip) l g); try done.
      cbn [before rest advance fold_left]. rewrite firstn_consumed.
      unfold numeral. by rewrite app_nil_r. }
    destruct l as [|x l']; [exact Hgoal|].
    simpl in Hl. apply andb_prop in Hl as [_ Hx]. apply negb_true_iff in Hx.
    assert (E : lit_eqb ic "." x = false).
    { destruct (lit_eqb ic "." x) eqn:E; [|done].
      apply lit_dot in E. subst. vm_compute in Hx. discriminate. }
    rewrite E. exact Hgoal.
Qed.

Lemma match_score_re bf L ws ip fp l :
  word_eqb true (py "SCORE:") L = true ->
  forallb is_space ws = true ->
  ip <> [] -> forallb is_digit ip = true ->
  forallb is_digit (default [] fp) = true ->
  head_all not_digit_nor_dot l = true ->
  exists m, match_at true score_re bf (L ++ ws ++ numeral ip fp ++ l) = Some m
    /\ group1 m = Some (numeral ip fp).
Proof.
  intros HL Hws Hne Hip Hfp Hl.
  eexists (Cursor _ l (Some (numeral ip fp))). split; [|reflexivity].
  unfold match_at, score_re. cbn [run].
  rewrite run_word by done.
  cbn [run before rest group1].
  apply rep_greedy_all; [done | | lia |].
  - unfold numeral. rewrite <- app_assoc, head_sat_app by done.
    apply head_sat_digit_space. destruct ip as [|d ip]; [done|].
    simpl in *. by apply andb_prop in Hip as [-> _].
  - by apply run_number_group.
Qed.

Lemma match_reason_re bf L ws b tail :
  word_eqb true (py "REASON:") L = true ->
  forallb is_space ws = true ->
  b <> [] -> head_sat is_space b = false ->
  forallb not_newline b = true ->
  head_all (chr_eqb nl) tail = true ->
  exists m, match_at true reason_re bf (L ++ ws ++ b ++ tail) = Some m
    /\ group1 m = Some b.
Proof.
  intros HL Hws Hne Hb Hnl Htail.
  unfold match_at, reason_re. cbn [run].
  rewrite run_word by done.
  cbn [run before rest group1].
  set (K := fun c' : cursor =>
              match
                match rest c' with
                | [] => None
                | x :: l' =>
                    if lit_eqb true nl x
                    then Some (Cursor (Some x) l' (Some (firstn (length (b ++ tail) - length (rest c')) (b ++ tail))))
                    else None
                end
              with
              | Some a => Some a
              | None =>
                  if at_end (Cursor (before c') (rest c')
                               (Some (firstn (length (b ++ tail) - length (rest c')) (b ++ tail))))
                  then Some (Cursor (before c') (rest c')
                               (Some (firstn (length (b ++ tail) - length (rest c')) (b ++ tail))))
                  else None
              end).
  assert (HK : exists m, K (Cursor (advance (advance (advance bf L) ws) b) tail None) = Some m
                 /\ group1 m = Some b).
  { unfold K. cbn [rest before]. rewrite firstn_consumed.
    destruct tail as [|x tl]; [eauto|].
    simpl in Htail. apply chr_eqb_eq in Htail as <-.
    change (lit_eqb true nl nl) with true. cbn. eauto. }
  destruct HK as (m & HK & Hg). exists m. split; [|exact Hg].
  apply rep_greedy_all; [done | | lia |].
  { by rewrite head_sat_app. }
  apply (rep_lazy_first (fun _ => true) b 1 _ tail None K m).
  - by apply forallb_forall.
  - destruct b; simpl; [done | lia].
  - intros xs1 xs2 -> Hxs2 _. unfold K. cbn [rest before].
    destruct xs2 as [|x xs2]; [done|]. cbn [app].
    rewrite forallb_app in Hnl. apply andb_prop in Hnl as [_ Hnl].
    simpl in Hnl. apply andb_prop in Hnl as [Hx Hnl].
    unfold not_newline in Hx. apply negb_true_iff in Hx.
    assert (E : lit_eqb true nl x = false).
    { unfold lit_eqb. destruct (chr_eqb (lower nl) (lower x)) eqn:E; [|done].
      apply chr_eqb_eq in E.
      destruct x as [[] [] [] [] [] [] [] []]; vm_compute in E, Hx; congruence. }
    rewrite E. unfold at_end. cbn [rest].
    destruct (xs2 ++ tail); [|done].
    replace (chr_eqb x nl) with (chr_eqb nl x)
      by (unfold chr_eqb; apply N.eqb_sym).
    by rewrite Hx.
  - exact HK.
Qed.

Lemma match_reason_fails bf l :
  begins_with true (py "REASON:") l = false ->
  match_at true reason_re bf l = None.
Proof.
  intros H. unfold match_at, reason_re. cbn [run]. by apply run_word_fails.
Qed.

Lemma reason_not_in_score_label L l :
  word_eqb true (py "SCORE:") L = true ->
  forall pre1 pre2, L = pre1 ++ pre2 -> pre2 <> [] ->
  begins_with true (py "REASON:") (pre2 ++ l) = false.
Proof.
  intros HL.
  destruct L as [|c0 [|c1 [|c2 [|c3 [|c4 [|c5 [|? ?]]]]]]]; simpl in HL;
    repeat match goal with
    | H : _ && _ = true |- _ => apply andb_prop in H as [? ?]
    end; try discriminate.
  repeat match goal with
  | H : chr_eqb _ (lower _) = true |- _ => apply chr_eqb_eq in H
  end.
  intros pre1 pre2 Heq Hne.
  do 7 (destruct pre1 as [|? pre1];
        [simpl in Heq; subst pre2; try done;
         cbn [begins_with py list_ascii_of_string app];
         unfold lit_eqb;
         repeat match goal with H : _ = lower _ |- _ => rewrite <- H end;
         reflexivity
        |simpl in Heq; try discriminate; injection Heq as <- Heq]).
Qed.

Lemma reason_not_in_plain pre l :
  forallb plain pre = true ->
  forall pre1 pre2, pre = pre1 ++ pre2 -> pre2 <> [] ->
  begins_with true (py "REASON:") (pre2 ++ l) = false.
Proof.
  intros Hall pre1 pre2 -> Hne.
  rewrite forallb_app in Hall. apply andb_prop in Hall as [_ Hall].
  destruct pre2 as [|x pre2]; [done|]. simpl in Hall.
  apply andb_prop in Hall as [Hx _].
  cbn [begins_with py list_ascii_of_string app].
  by rewrite (plain_not_r _ Hx).
Qed.

Lemma swap_case_lower a : lower (swap_case a) = lower a.
Proof. destruct a as [[] [] [] [] [] [] [] []]; reflexivity. Qed.

Lemma any_case_word_eqb w : forall xs,
  any_case w xs = true -> word_eqb true w xs = true.
Proof.
  induction w as [|a w IH]; intros [|x xs]; simpl; try done.
  intros [Hx Hxs]%andb_prop. rewrite (IH _ Hxs), andb_true_r.
  unfold lit_eqb.
  apply orb_prop in Hx as [->%chr_eqb_eq | ->%chr_eqb_eq].
  - apply chr_eqb_refl.
  - rewrite swap_case_lower. apply chr_eqb_refl.
Qed.

Lemma lstrip_blanks ws s : forallb is_space ws = true -> lstrip (ws ++ s) = lstrip s.
Proof.
  induction ws as [|c ws IH]; simpl; [done|].
  intros [-> Hws]%andb_prop. auto.
Qed.

Lemma lstrip_trimmed_head s : head_sat is_space s = false -> lstrip s = s.
Proof. destruct s as [|c s]; simpl; [done|]. by intros ->. Qed.

Lemma strip_core core trail :
  trimmed core = true -> forallb is_space trail = true ->
  strip (core ++ trail) = core.
Proof.
  unfold trimmed. destruct core as [|x core]; [discriminate|].
  intros [Hx Hlast]%andb_prop Htrail.
  apply negb_true_iff in Hx. apply negb_true_iff in Hlast.
  unfold strip. rewrite lstrip_trimmed_head by (simpl; exact Hx).
  unfold rstrip. rewrite rev_app_distr, lstrip_blanks.
  - rewrite lstrip_trimmed_head by exact Hlast. apply rev_involutive.
  - rewrite forallb_forall in *. intros c Hc. apply Htrail. by apply in_rev.
Qed.

Lemma parse_score_labelled L ws ip fp l :
  any_case (py "SCORE:") L = true ->
  forallb is_space ws = true ->
  ip <> [] -> forallb is_digit ip = true ->
  forallb is_digit (default [] fp) = true ->
  head_all not_digit_nor_dot l = true ->
  parse_score (L ++ ws ++ numeral ip fp ++ l) = Ok (binary64 (numeral_value ip fp)).
Proof.
  intros HL%any_case_word_eqb Hws Hne Hip Hfp Hl.
  unfold parse_score, re_search.
  destruct (match_score_re None L ws ip fp l) as (m & Hm & Hg); try done.
  rewrite (search_from_found _ _ _ _ _ Hm).
  unfold group. rewrite Hg. simpl. by apply float_numeral.
Qed.

(** C5: a reply made of a SCORE line and a REASON line parses to the double
    nearest to the numeral and to the text of the reason line without the
    blanks around it, whatever the case of each letter of the two labels:
    the reason runs to the next line break or to the end of the text.  In
    particular "SCORE: 8.5" followed by "REASON: Directly extends prior
    work." parses to (8.5, "Directly extends prior work."). *)
Theorem parse_labelled_reply L1 ws1 ip fp L2 ws2 core trail tail paper_title :
  any_case (py "SCORE:") L1 = true ->
  any_case (py "REASON:") L2 = true ->
  forallb is_space ws1 = true -> forallb is_space ws2 = true ->
  ip <> [] -> forallb is_digit ip = true ->
  forallb is_digit (default [] fp) = true ->
  trimmed core = true -> forallb is_space trail = true ->
  forallb not_newline (core ++ trail) = true ->
  head_all (chr_eqb nl) tail = true ->
  _parse_response
    (L1 ++ ws1 ++ numeral ip fp ++ [nl] ++ L2 ++ ws2 ++ core ++ trail ++ tail)
    paper_title
  = Ok (binary64 (numeral_value ip fp), core).
Proof.
  intros HL1 HL2 Hws1 Hws2 Hne Hip Hfp Hcore Htrail Hnl Htail.
  set (b := core ++ trail).
  assert (Hb : b <> []).
  { subst b. destruct core; [discriminate | done]. }
  assert (Hhead : head_sat is_space b = false).
  { subst b. unfold trimmed in Hcore. destruct core as [|x core]; [discriminate|].
    apply andb_prop in Hcore as [Hx _]. by apply negb_true_iff in Hx. }
  replace (core ++ trail ++ tail) with (b ++ tail) by (subst b; by rewrite <- app_assoc).
  set (line2 := L2 ++ ws2 ++ b ++ tail).
  assert (Hscore : parse_score (L1 ++ ws1 ++ numeral ip fp ++ [nl] ++ line2)
                   = Ok (binary64 (numeral_value ip fp))).
  { by apply parse_score_labelled. }
  apply any_case_word_eqb in HL1, HL2.
  assert (Hreason : parse_reason (L1 ++ ws1 ++ numeral ip fp ++ [nl] ++ line2)
                    = Ok (strip b)).
  { unfold parse_reason, re_search.
    rewrite search_from_skip.
    2:{ intros pre1 pre2 Heq Hpre2. apply match_reason_fails.
        by apply (reason_not_in_score_label L1 _ HL1 pre1 pre2). }
    replace (ws1 ++ numeral ip fp ++ [nl] ++ line2)
      with ((ws1 ++ numeral ip fp ++ [nl]) ++ line2)
      by (by rewrite <- !app_assoc).
    rewrite search_from_skip.
    2:{ intros pre1 pre2 Heq Hpre2. apply match_reason_fails.
        apply (reason_not_in_plain (ws1 ++ numeral ip fp ++ [nl]) _) with pre1;
          [|done|done].
        assert (Hs : forallb plain ws1 = true).
        { eapply forallb_weaken; [|exact Hws1]. intros c Hc. unfold plain. by rewrite Hc. }
        assert (Hnum : forallb plain (numeral ip fp) = true).
        { unfold numeral. rewrite forallb_app. apply andb_true_intro. split.
          - eapply forallb_weaken; [|exact Hip]. intros c Hc. unfold plain.
            rewrite Hc. by rewrite orb_true_r.
          - destruct fp as [f|]; simpl; [|done]. simpl in Hfp.
            eapply forallb_weaken; [|exact Hfp]. intros c Hc. unfold plain.
            rewrite Hc. by rewrite orb_true_r. }
        rewrite !forallb_app, Hs, Hnum. reflexivity. }
    unfold line2.
    destruct (match_reason_re
                (advance (advance None L1) (ws1 ++ numeral ip fp ++ [nl]))
                L2 ws2 b tail) as (m & Hm & Hg); try done.
    rewrite (search_from_found _ _ _ _ _ Hm).
    unfold group. by rewrite Hg. }
  unfold _parse_response. rewrite Hscore, Hreason.
  subst b. by rewrite strip_core.
Qed.

Lemma parse_labelled_reply_witness :
  any_case (py "SCORE:") (py "score:") = true
  /\ any_case (py "REASON:") (py "Reason:") = true
  /\ trimmed (py "Directly extends prior work.") = true
  /\ labelled_reply
     = py "SCORE:" ++ py " " ++ numeral (py "8") (Some (py "5")) ++ [nl]
       ++ py "REASON:" ++ py " " ++ py "Directly extends prior work." ++ [] ++ []
  /\ _parse_response labelled_reply (VStr [])
     = Ok ((17 # 2)%Q, py "Directly extends prior work.")
  /\ padded_reply
     = py "score:" ++ [] ++ numeral (py "8") (Some (py "5")) ++ [nl]
       ++ py "Reason:" ++ py "   " ++ py "Directly extends prior work."
       ++ py "  " ++ nl :: py "Thanks."
  /\ _parse_response padded_reply (VStr [])
     = Ok ((17 # 2)%Q, py "Directly extends prior work.").
Proof.
  split; [reflexivity|]. split; [reflexivity|]. split; [reflexivity|].
  split; [reflexivity|].
  split.
  - exact (parse_labelled_reply (py "SCORE:") (py " ") (py "8") (Some (py "5"))
             (py "REASON:") (py " ") (py "Directly extends prior work.") [] []
             (VStr []) eq_refl eq_refl eq_refl eq_refl
             ltac:(discriminate) eq_refl eq_refl eq_refl eq_refl eq_refl eq_refl).
  - split; [reflexivity|].
    exact (parse_labelled_reply (py "score:") [] (py "8") (Some (py "5"))
             (py "Reason:") (py "   ") (py "Directly extends prior work.")
             (py "  ") (nl :: py "Thanks.")
             (VStr []) eq_refl eq_refl eq_refl eq_refl
             ltac:(discriminate) eq_refl eq_refl eq_refl eq_refl eq_refl eq_refl).
Defined.

Lemma binary64_above_ten : binary64 above_ten = above_ten.
Proof. vm_compute. reflexivity. Qed.

(** C8: the labelled strategies do not clamp.  Whatever numeral follows the
    SCORE label, the score is the double nearest to it; from the least
    double above 10 on, the numeral yields a score above 10, outside
    [0,10].  (A numeral between 10 and that double can round to 10.0.) *)
Theorem labelled_score_not_clamped L ws ip fp l paper_title :
  any_case (py "SCORE:") L = true ->
  forallb is_space ws = true ->
  ip <> [] -> forallb is_digit ip = true ->
  forallb is_digit (default [] fp) = true ->
  head_all not_digit_nor_dot l = true ->
  (exists reason,
     _parse_response (L ++ ws ++ numeral ip fp ++ l) paper_title
     = Ok (binary64 (numeral_value ip fp), reason))
  /\ ((above_ten <= numeral_value ip fp)%Q ->
      (10 < binary64 (numeral_value ip fp))%Q
      /\ ~ (0 <= binary64 (numeral_value ip fp) <= 10)%Q).
Proof.
  intros HL Hws Hne Hip Hfp Hl. split.
  - destruct (parse_reason_total (L ++ ws ++ numeral ip fp ++ l)) as [r Hr].
    exists r. unfold _parse_response. rewrite Hr.
    by rewrite parse_score_labelled.
  - intros Hbig.
    assert (H10 : (10 < binary64 (numeral_value ip fp))%Q).
    { apply Qlt_le_trans with above_ten; [reflexivity|].
      rewrite <- binary64_above_ten at 1.
      apply binary64_mono; [discriminate | exact Hbig]. }
    split; [exact H10|]. intros [_ Hle]. by apply Qlt_not_le in H10.
Qed.

Lemma labelled_score_not_clamped_witness :
  any_case (py "SCORE:") (py "SCORE:") = true
  /\ (above_ten <= numeral_value (py "15") None)%Q
  /\ (exists reason,
        _parse_response (py "SCORE: 15") (VStr []) = Ok (15%Q, reason))
  /\ ~ (0 <= 15 <= 10)%Q
  /\ (exists reason,
        _parse_response (py "rating: 42/10") (VStr []) = Ok (42%Q, reason)).
Proof.
  assert (Hbig : (above_ten <= numeral_value (py "15") None)%Q) by discriminate.
  split; [reflexivity|]. split; [exact Hbig|].
  destruct (labelled_score_not_clamped (py "SCORE:") (py " ") (py "15") None []
              (VStr []) eq_refl eq_refl ltac:(discriminate) eq_refl eq_refl eq_refl)
    as [Hparse Hout].
  split; [exact Hparse|]. split; [exact (proj2 (Hout Hbig))|].
  eexists. vm_compute. reflexivity.
Defined.

(** ** The last-resort score strategy, position by position *)

Lemma num_tail_fails d l g :
  is_word d = true -> head_word l = true ->
  run false num_tail (Cursor (Some d) l g) Some = None.
Proof.
  intros Hd Hl. destruct l as [|x l]; [discriminate|]. simpl in Hl.
  unfold num_tail, Opt. simpl.
  unfold lit_eqb. rewrite (is_word_not_dot _ Hl).
  unfold at_boundary, word_before, word_after. simpl. by rewrite Hd, Hl.
Qed.

Lemma num_tail_succeeds d l g :
  is_word d = true -> head_word l = false ->
  exists m, run false num_tail (Cursor (Some d) l g) Some = Some m /\ group1 m = g.
Proof.
  intros Hd Hl. unfold num_tail.
  change (run false (Opt (Lit "." +> Rep true 1 is_digit) +> WordB)%re
            (Cursor (Some d) l g) Some)
    with (match run false (Lit "." +> Rep true 1 is_digit)%re (Cursor (Some d) l g)
                  (fun c => run false WordB c Some) with
          | Some a => Some a
          | None => run false WordB (Cursor (Some d) l g) Some
          end).
  destruct (run false (Lit "." +> Rep true 1 is_digit)%re _ _) as [m|] eqn:E.
  - exists m. split; [reflexivity|].
    apply run_sound in E as (xs & c' & Hs & Hk).
    simpl in Hk. destruct (at_boundary c'); [|discriminate].
    inversion Hk; subst.
    by apply steps_group_free in Hs.
  - simpl. unfold at_boundary, word_before, word_after. simpl.
    rewrite Hd. destruct l; simpl in *; [eauto|]. rewrite Hl. eauto.
Qed.

Lemma match_at_num_re_unfold bf l :
  match_at false num_re bf l
  = if at_boundary (Cursor bf l None)
    then
      match run false (Cls (in_range 48 57)) (Cursor bf l None)
              (fun c' => run false num_tail
                 (Cursor (before c') (rest c')
                    (Some (firstn (length l - length (rest c')) l))) Some) with
      | Some a => Some a
      | None =>
          run false (Word (py "10")) (Cursor bf l None)
              (fun c' => run false num_tail
                 (Cursor (before c') (rest c')
                    (Some (firstn (length l - length (rest c')) l))) Some)
      end
    else None.
Proof. reflexivity. Qed.

Local Opaque num_tail.

Lemma match_at_num_re bf l :
  match numeral_at bf l with
  | Some g => exists m, match_at false num_re bf l = Some m /\ group1 m = Some g
  | None => match_at false num_re bf l = None
  end.
Proof.
  rewrite match_at_num_re_unfold. unfold numeral_at.
  unfold at_boundary, word_before, word_after. simpl before. simpl rest.
  change (match bf with Some x => is_word x | None => false end) with (is_word_opt bf).
  destruct (is_word_opt bf) eqn:Hbf.
  { (* inside a word: no boundary, or nothing to match *)
    destruct l as [|x l1]; [reflexivity|]. simpl.
    destruct (is_word x) eqn:Hx; [reflexivity|]. simpl.
    assert (Hnd : in_range 48 57 x = false).
    { destruct (in_range 48 57 x) eqn:E; [|done].
      apply is_digit_word in E. congruence. }
    rewrite Hnd. unfold lit_eqb.
    destruct (chr_eqb "1" x) eqn:E1; [|reflexivity].
    apply chr_one_digit in E1. unfold is_digit in E1. congruence. }
  destruct l as [|d l1]; [reflexivity|]. simpl.
  destruct (is_word d) eqn:Hd; simpl.
  2:{ (* not a word character: not a digit *)
    assert (Hnd : is_digit d = false).
    { destruct (is_digit d) eqn:E; [|done]. apply is_digit_word in E. congruence. }
    rewrite Hnd. simpl.
    destruct l1 as [|z l2]; [reflexivity|].
    destruct (chr_eqb "1" d) eqn:E1; [|reflexivity].
    apply chr_one_digit in E1. congruence. }
  change (in_range 48 57 d) with (is_digit d).
  pose proof (firstn_consumed [d] l1) as Hone. simpl in Hone. rewrite Hone.
  destruct (is_digit d) eqn:Hdig; simpl.
  - destruct (head_word l1) eqn:Hl1; simpl.
    + rewrite (num_tail_fails d l1 _ Hd Hl1).
      unfold lit_eqb.
      destruct l1 as [|z l2]; [discriminate|].
      destruct (chr_eqb "1" d) eqn:E1; simpl; [|reflexivity].
      destruct (chr_eqb "0" z) eqn:E0; simpl; [|reflexivity].
      apply chr_eqb_eq in E0 as <-.
      pose proof (firstn_consumed [d; "0"%char] l2) as Htwo. simpl in Htwo.
      rewrite Htwo.
      destruct (head_word l2) eqn:Hl2; simpl.
      * by apply num_tail_fails.
      * apply num_tail_succeeds; done.
    + destruct (num_tail_succeeds d l1 (Some [d]) Hd Hl1) as (m & Hm & Hg).
      exists m. by rewrite Hm.
  - unfold lit_eqb.
    destruct (chr_eqb "1" d) eqn:E1.
    { apply chr_one_digit in E1. congruence. }
    by destruct l1.
Qed.

Local Transparent num_tail.

Lemma search_num_re l : forall bf,
  match find_numeral bf l with
  | Some g => exists m, search_from false num_re bf l = Some m /\ group1 m = Some g
  | None => search_from false num_re bf l = None
  end.
Proof.
  induction l as [|x l IH]; intros bf; simpl;
    pose proof (match_at_num_re bf) as H.
  - specialize (H []). destruct (numeral_at bf []).
    + destruct H as (m & -> & Hg). eauto.
    + by rewrite H.
  - specialize (H (x :: l)). destruct (numeral_at bf (x :: l)).
    + destruct H as (m & -> & Hg). eauto.
    + rewrite H. apply IH.
Qed.

Lemma tokens_head_word l :
  head_word l = true ->
  exists t ts, tokens l = t :: ts /\
    match l with
    | x :: l' => exists t', t = x :: t' /\ (t' = [] <-> head_word l' = false)
    | [] => False
    end.
Proof.
  destruct l as [|x l']; [discriminate|]. simpl. intros ->.
  destruct (head_word l') eqn:Hl'.
  - destruct (tokens l') as [|t ts] eqn:Ht.
    + destruct l' as [|y l'']; [discriminate|]. simpl in Hl'. simpl in Ht.
      rewrite Hl' in Ht. destruct (head_word l''); [destruct (tokens l'')|]; discriminate.
    + exists (x :: t), ts. split; [done|]. exists t. split; [done|].
      split; [|discriminate]. intros ->.
      destruct l' as [|y l'']; [discriminate|]. simpl in Hl'. simpl in Ht.
      rewrite Hl' in Ht. destruct (head_word l''); [destruct (tokens l'')|]; discriminate.
  - exists [x], (tokens l'). split; [done|]. exists []. done.
Qed.

Lemma find_numeral_tokens l : forall bf,
  find_numeral bf l
  = find small_numeral
      (if is_word_opt bf && head_word l then tail (tokens l) else tokens l).
Proof.
  induction l as [|x l IH]; intros bf.
  - simpl. unfold numeral_at. destruct (is_word_opt bf); reflexivity.
  - cbn [find_numeral]. unfold numeral_at.
    destruct (is_word_opt bf) eqn:Hbf; cbn [andb head_word tokens].
    + (* inside a token *)
      rewrite IH. cbn [is_word_opt].
      destruct (is_word x) eqn:Hx; cbn [andb]; [|reflexivity].
      destruct (head_word l) eqn:Hl; [|reflexivity].
      by destruct (tokens l).
    + destruct (is_word x) eqn:Hx.
      2:{ assert (Hnd : is_digit x = false).
          { destruct (is_digit x) eqn:E; [|done]. apply is_digit_word in E. congruence. }
          rewrite Hnd. cbn [andb].
          assert (E1 : chr_eqb "1" x = false).
          { destruct (chr_eqb "1" x) eqn:E; [|done]. apply chr_one_digit in E. congruence. }
          rewrite E1. cbn [andb].
          replace (match l with [] => None | _ :: _ => None end) with (@None str)
            by (by destruct l).
          rewrite IH. cbn [is_word_opt]. rewrite Hx. reflexivity. }
      destruct (head_word l) eqn:Hl.
      * (* the token goes on *)
        rewrite andb_false_r.
        destruct (tokens_head_word l Hl) as (t & ts & Ht & Hshape).
        rewrite Ht.
        destruct l as [|z l2]; [done|].
        destruct Hshape as (t' & -> & Ht').
        cbn [find small_numeral].
        destruct (chr_eqb "1" x && chr_eqb "0" z && negb (head_word l2)) eqn:E.
        -- apply andb_prop in E as [[E1%chr_eqb_eq E0%chr_eqb_eq]%andb_prop E2].
           subst. apply negb_true_iff in E2. apply Ht' in E2 as ->.
           reflexivity.
        -- rewrite IH. cbn [is_word_opt]. rewrite ?Hx, ?Hl. cbn [andb].
           rewrite Ht. cbn [tail].
           destruct t' as [|y t']; [|reflexivity].
           assert (Hl2 : head_word l2 = false) by by apply Ht'.
           rewrite Hl2 in E. cbn [negb] in E. rewrite andb_true_r in E.
           replace (chr_eqb x "1" && chr_eqb z "0") with false; [reflexivity|].
           unfold chr_eqb in *. rewrite (N.eqb_sym (ord x)), (N.eqb_sym (ord z)).
           by rewrite E.
      * (* a token of one character *)
        rewrite andb_true_r. cbn [find small_numeral].
        destruct (is_digit x) eqn:Hdig; [reflexivity|].
        assert (E1 : chr_eqb "1" x = false).
        { destruct (chr_eqb "1" x) eqn:E; [|done]. apply chr_one_digit in E. congruence. }
        rewrite E1, IH. cbn [is_word_opt andb]. rewrite Hx.
        by destruct l.
Qed.

Lemma parse_score_fallback content :
  re_search true score_re content = None ->
  re_search true alt_re content = None ->
  parse_score content = Ok (first_small_numeral content)
  /\ (0 <= first_small_numeral content <= 10)%Q.
Proof.
  intros H1 H2. unfold parse_score, first_small_numeral, re_search.
  unfold re_search in H1, H2. rewrite H1, H2.
  pose proof (search_num_re content None) as Hs.
  rewrite find_numeral_tokens in Hs. simpl in Hs.
  destruct (find small_numeral (tokens content)) as [g|] eqn:Hf.
  - destruct Hs as (m & -> & Hg).
    apply find_some in Hf as [_ Hn].
    apply small_numeral_float in Hn as [Hfl [Hlo Hhi]].
    unfold group. rewrite Hg. simpl. rewrite Hfl. simpl.
    pose proof (Qleb_inject 0 _ Hlo) as E0.
    pose proof (Qleb_inject _ 10 Hhi) as E10.
    change (inject_Z 0) with 0%Q in E0. change (inject_Z 10) with 10%Q in E10.
    rewrite E0, E10. simpl.
    split; [reflexivity|].
    split; [change 0%Q with (inject_Z 0) | change 10%Q with (inject_Z 10)];
      by rewrite <- Zle_Qle.
  - rewrite Hs. split; [reflexivity|]. split; discriminate.
Qed.

Lemma fallback_score_small_numeral_aux content paper_title :
  re_search true score_re content = None ->
  re_search true alt_re content = None ->
  exists reason,
    _parse_response content paper_title = Ok (first_small_numeral content, reason).
Proof.
  intros H1 H2.
  destruct (parse_score_fallback content H1 H2) as [Hs _].
  destruct (parse_reason_total content) as [r Hreason].
  exists r. unfold _parse_response. by rewrite Hs, Hreason.
Qed.

(** What the last strategy computes: when neither labelled strategy matches,
    the score is the value of the first token that is one of the numerals 0
    to 10 (one digit, or 10), and 0.0 when there is none; it lies in
    [0,10].  The tokens are cut at every character that is not a word
    character, a decimal point among them. *)
Lemma fallback_score_first_small_numeral content paper_title :
  re_search true score_re content = None ->
  re_search true alt_re content = None ->
  (exists reason,
     _parse_response content paper_title = Ok (first_small_numeral content, reason))
  /\ (0 <= first_small_numeral content <= 10)%Q.
Proof.
  intros H1 H2. split.
  - by apply fallback_score_small_numeral_aux.
  - by destruct (parse_score_fallback content H1 H2).
Qed.

(** A token with a leading zero is not taken: on "07" the score stays
    0.0. *)
Lemma fallback_score_leading_zero :
  re_search true score_re (py "07") = None
  /\ re_search true alt_re (py "07") = None
  /\ tokens (py "07") = [py "07"]
  /\ digits_val (py "07") = 7
  /\ _parse_response (py "07") (VStr []) = Ok (0%Q, py "07").
Proof. repeat split; vm_compute; reflexivity. Qed.

(** C6: the score of the last strategy is not always the first standalone
    integer of the text that lies in [0,10].  In "This method reaches 97.3%
    accuracy." no label matches and the only number is the decimal 97.3,
    which is above 10: no integer stands alone in the text, and the score
    should default to 0.0.  The pattern takes the digit after the decimal
    point for a token of its own, and the score is 3.0. *)
Theorem fallback_scores_fraction_digit :
  re_search true score_re accuracy_reply = None
  /\ re_search true alt_re accuracy_reply = None
  /\ accuracy_reply
     = py "This method reaches " ++ numeral (py "97") (Some (py "3"))
       ++ py "% accuracy."
  /\ existsb is_digit (py "This method reaches ") = false
  /\ existsb is_digit (py "% accuracy.") = false
  /\ (10 < numeral_value (py "97") (Some (py "3")))%Q
  /\ _parse_response accuracy_reply (VStr [])
     = Ok (3%Q, py "This method reaches 97.3% accuracy.").
Proof. repeat split; vm_compute; reflexivity. Qed.

(** ** A decimal met by the last-resort strategy *)

Lemma advance_snoc bf xs x : advance bf (xs ++ [x]) = Some x.
Proof. unfold advance. by rewrite fold_left_app. Qed.

Lemma advance_word bf xs :
  is_word_opt (advance bf xs)
  = match rev xs with
    | x :: _ => is_word x
    | [] => is_word_opt bf
    end.
Proof.
  destruct xs as [|y xs] using rev_ind; [reflexivity|].
  by rewrite advance_snoc, rev_app_distr.
Qed.

Lemma tokens_cons x l :
  tokens (x :: l)
  = if is_word x then
      if head_word l then
        match tokens l with
        | t :: ts => (x :: t) :: ts
        | [] => [[x]]
        end
      else [x] :: tokens l
    else tokens l.
Proof. reflexivity. Qed.

Lemma tokens_app pre l :
  head_word (rev pre) = false -> tokens (pre ++ l) = tokens pre ++ tokens l.
Proof.
  induction pre as [|x pre IH]; intros Hlast; [reflexivity|].
  destruct pre as [|y pre].
  - simpl in *. by rewrite Hlast.
  - assert (Hlast' : head_word (rev (y :: pre)) = false).
    { change (rev (x :: y :: pre)) with (rev (y :: pre) ++ [x]) in Hlast.
      rewrite head_word_app in Hlast; [done|].
      simpl. by destruct (rev pre). }
    specialize (IH Hlast').
    change ((x :: y :: pre) ++ l) with (x :: ((y :: pre) ++ l)).
    rewrite (tokens_cons x ((y :: pre) ++ l)), (tokens_cons x (y :: pre)), IH.
    rewrite (head_word_app (y :: pre) l) by done.
    destruct (is_word x); [|reflexivity].
    destruct (head_word (y :: pre)) eqn:Hy; [|reflexivity].
    destruct (tokens_head_word _ Hy) as (t & ts & Ht & _).
    rewrite Ht. reflexivity.
Qed.

Lemma tokens_small_numeral ip l :
  small_numeral ip = true -> head_word l = false ->
  tokens (ip ++ l) = ip :: tokens l.
Proof.
  intros Hip Hl.
  destruct ip as [|a [|b [|? ?]]]; simpl in Hip; try discriminate.
  - apply is_digit_word in Hip. cbn [app tokens]. by rewrite Hip, Hl.
  - apply andb_prop in Hip as [->%chr_eqb_eq ->%chr_eqb_eq].
    cbn [app tokens]. rewrite Hl. reflexivity.
Qed.

Lemma digits_end_word bf fp :
  fp <> [] -> forallb is_digit fp = true -> is_word_opt (advance bf fp) = true.
Proof.
  intros Hne Hfp. rewrite advance_word.
  destruct fp as [|x fp] using rev_ind; [done|].
  rewrite rev_app_distr. simpl.
  rewrite forallb_app in Hfp. apply andb_prop in Hfp as [_ Hx].
  simpl in Hx. apply andb_prop in Hx as [Hx _]. by apply is_digit_word.
Qed.

Lemma num_tail_fraction d fp post g :
  fp <> [] -> forallb is_digit fp = true -> head_word post = false ->
  run false num_tail (Cursor (Some d) ("."%char :: fp ++ post) g) Some
  = Some (Cursor (advance (Some "."%char) fp) post g).
Proof.
  intros Hne Hfp Hpost. unfold num_tail, Opt.
  cbn [run rest before group1]. change (lit_eqb false "." ".") with true. cbn iota.
  rewrite (rep_greedy_all is_digit fp 1 (Some "."%char) post g _
             (Cursor (advance (Some "."%char) fp) post g)); try done.
  - destruct post as [|x post]; [done|]. simpl in *.
    destruct (is_digit x) eqn:E; [|done]. apply is_digit_word in E. congruence.
  - destruct fp; simpl; [done | lia].
  - unfold at_boundary, word_before, word_after. cbn [before rest].
    pose proof (digits_end_word (Some "."%char) fp Hne Hfp) as Hw.
    unfold is_word_opt in Hw. rewrite Hw.
    change (match post with x :: _ => is_word x | [] => false end) with (head_word post).
    by rewrite Hpost.
Qed.

(** At the place of a decimal whose integer part is one of the numerals, the
    match consumes the whole decimal and captures the integer part. *)
Lemma match_at_decimal bf ip fp post :
  is_word_opt bf = false -> small_numeral ip = true ->
  fp <> [] -> forallb is_digit fp = true -> head_word post = false ->
  match_at false num_re bf (ip ++ "."%char :: fp ++ post)
  = Some (Cursor (advance (Some "."%char) fp) post (Some ip)).
Proof.
  intros Hbf Hip Hne Hfp Hpost.
  rewrite match_at_num_re_unfold.
  unfold at_boundary, word_before, word_after. cbn [before rest].
  change (match bf with Some x => is_word x | None => false end) with (is_word_opt bf).
  rewrite Hbf.
  destruct ip as [|a [|b [|? ?]]]; simpl in Hip; try discriminate.
  - pose proof (is_digit_word _ Hip) as Hw.
    cbn [app run rest before group1]. rewrite Hw. cbn [xorb].
    change (in_range 48 57 a) with (is_digit a). rewrite Hip.
    pose proof (firstn_consumed [a] ("."%char :: fp ++ post)) as Hone.
    cbn [app] in Hone. rewrite Hone.
    by rewrite num_tail_fraction.
  - apply andb_prop in Hip as [->%chr_eqb_eq ->%chr_eqb_eq].
    cbn [app run rest before group1]. cbn [is_word xorb].
    change (is_word "1") with true. cbn [xorb].
    change (in_range 48 57 "1") with true. cbn iota.
    rewrite num_tail_fails by done.
    cbn [py list_ascii_of_string Word run rest before group1].
    change (lit_eqb false "1" "1") with true.
    change (lit_eqb false "0" "0") with true. cbn iota.
    pose proof (firstn_consumed ["1"%char; "0"%char] ("."%char :: fp ++ post)) as Htwo.
    cbn [app] in Htwo. rewrite Htwo.
    by rewrite num_tail_fraction.
Qed.

(** When no label matches and the first token the last strategy takes is the
    integer part of a decimal such as 9.7, the score is the integer part
    alone (9.0): the match consumes the fraction, the group does not capture
    it. *)
Lemma fallback_drops_fraction pre ip fp post paper_title :
  re_search true score_re (pre ++ ip ++ "."%char :: fp ++ post) = None ->
  re_search true alt_re (pre ++ ip ++ "."%char :: fp ++ post) = None ->
  head_word (rev pre) = false ->
  find small_numeral (tokens pre) = None ->
  small_numeral ip = true ->
  fp <> [] -> forallb is_digit fp = true ->
  head_word post = false ->
  (exists reason,
     _parse_response (pre ++ ip ++ "."%char :: fp ++ post) paper_title
     = Ok (inject_Z (digits_val ip), reason))
  /\ match_at false num_re (advance None pre) (ip ++ "."%char :: fp ++ post)
     = Some (Cursor (advance (Some "."%char) fp) post (Some ip)).
Proof.
  intros H1 H2 Hpre Hnone Hip Hne Hfp Hpost. split.
  - destruct (fallback_score_small_numeral_aux _ paper_title H1 H2) as [r Hr].
    exists r. rewrite Hr. do 2 f_equal.
    unfold first_small_numeral.
    rewrite tokens_app by done.
    rewrite (tokens_small_numeral ip ("."%char :: fp ++ post)) by done.
    rewrite (find_app_none _ _ _ Hnone). simpl. by rewrite Hip.
  - apply match_at_decimal; try done.
    rewrite advance_word. by destruct (rev pre).
Qed.

Lemma fallback_drops_fraction_of_9_7 :
  re_search true score_re (py "9.7") = None
  /\ re_search true alt_re (py "9.7") = None
  /\ (exists reason, _parse_response (py "9.7") (VStr []) = Ok (9%Q, reason))
  /\ match_at false num_re None (py "9.7")
     = Some (Cursor (Some "7"%char) [] (Some (py "9"))).
Proof.
  assert (H1 : re_search true score_re (py "9.7") = None) by (vm_compute; reflexivity).
  assert (H2 : re_search true alt_re (py "9.7") = None) by (vm_compute; reflexivity).
  split; [exact H1|]. split; [exact H2|].
  exact (fallback_drops_fraction [] (py "9") (py "7") [] (VStr [])
           H1 H2 eq_refl eq_refl eq_refl ltac:(discriminate) eq_refl eq_refl).
Qed.

(** C10: the score of the last strategy is not always the integer part of
    the first number of the text that lies in [0,10].  In "12.5 and 9.7" no
    label matches, 12.5 is above 10 and 9.7 is the first number in range, so
    that the score should be 9.0; the pattern takes the digit after the
    decimal point of 12.5 for a token of its own, and the score is 5.0. *)
Theorem fallback_scores_earlier_fraction_digit :
  re_search true score_re two_decimals = None
  /\ re_search true alt_re two_decimals = None
  /\ two_decimals
     = numeral (py "12") (Some (py "5")) ++ py " and "
       ++ numeral (py "9") (Some (py "7"))
  /\ (10 < numeral_value (py "12") (Some (py "5")))%Q
  /\ (0 <= numeral_value (py "9") (Some (py "7")) <= 10)%Q
  /\ _parse_response two_decimals (VStr []) = Ok (5%Q, py "12.5 and 9.7").
Proof.
  repeat split; try (vm_compute; reflexivity); vm_compute; discriminate.
Qed.

(** ** The reason when no REASON label matches *)

Lemma parse_reason_fallback content :
  re_search true reason_re content = None ->
  parse_reason content
  = Ok (if (1 <? length (re_split false sentence_re content))%nat
        then slice_to 100 (nth 1 (re_split false sentence_re content) [])
        else slice_to 100 content).
Proof.
  intros H. unfold parse_reason. rewrite H.
  by destruct (1 <? _)%nat.
Qed.

Lemma parse_reason_fallback_length content reason :
  re_search true reason_re content = None ->
  parse_reason content = Ok reason -> (length reason <= 100)%nat.
Proof.
  intros H Hr. rewrite (parse_reason_fallback _ H) in Hr.
  assert (Hlen : forall s : str, (length (slice_to 100 s) <= 100)%nat).
  { intros s. unfold slice_to. rewrite length_firstn. lia. }
  destruct (1 <? _)%nat; inversion Hr; subst; apply Hlen.
Qed.

(** C7: on the empty text nothing can be extracted, and the reason returned
    is the empty text, not the initial value "No reason provided", which every
    branch of lines 295-303 overwrites. *)
Theorem parse_empty_text paper_title :
  _parse_response [] paper_title = Ok (0%Q, [])
  /\ [] <> py "No reason provided".
Proof. split; [vm_compute; reflexivity | discriminate]. Qed.

(** ** The retry loop *)

Section RetryLoop.
Variables (self : LLMEvaluator) (env : environment) (paper : dict) (prompt : str).

Lemma retry_loop_throttled attempt range count :
  throttled (ask self env prompt attempt) = true ->
  retry_loop self env paper prompt (attempt :: range) count
  = if (attempt <? max_retries - 1)%nat then
      match retry_loop self env paper prompt range count with
      | (events, count', r) =>
          (Create attempt :: Sleep (backoff env attempt) :: events, count', r)
      end
    else ([Create attempt], count, Ok (Evaluation 0 (py "Rate limit exceeded"))).
Proof.
  unfold throttled, ask. intros H. cbn [retry_loop]. unfold attempt_body.
  destruct (create env _ _ _ _) as [c|error_str]; [discriminate|].
  cbn [exn_str]. rewrite H. reflexivity.
Qed.

Lemma retry_loop_failed attempt range count error_str t :
  ask self env prompt attempt = Failure error_str ->
  is_rate_limit error_str = false ->
  paper !! "title" = Some (VStr t) ->
  retry_loop self env paper prompt (attempt :: range) count
  = ([Create attempt], count, Ok (Evaluation 0 (py "Evaluation error"))).
Proof.
  unfold ask. intros H Hrl Ht. cbn [retry_loop]. unfold attempt_body.
  rewrite H. cbn [exn_str]. rewrite Hrl.
  unfold getitem. rewrite Ht. reflexivity.
Qed.

Lemma retry_loop_content attempt range count content t score reason :
  ask self env prompt attempt = Content (Some content) ->
  paper !! "title" = Some (VStr t) ->
  _parse_response content (VStr t) = Ok (score, reason) ->
  retry_loop self env paper prompt (attempt :: range) count
  = ([Create attempt], count_after self count, Ok (Evaluation score reason)).
Proof.
  unfold ask, count_after. intros H Ht Hp. cbn [retry_loop]. unfold attempt_body.
  rewrite H. unfold getitem. rewrite Ht. simpl. rewrite Hp.
  destruct (verbose self && (count <? 3)%nat); reflexivity.
Qed.
End RetryLoop.

Ltac run_attempts Hth :=
  unfold _evaluate_single_paper;
  match goal with H : _build_prompt _ _ _ _ = Ok _ |- _ => rewrite H end;
  cbn [seq max_retries];
  repeat (rewrite retry_loop_throttled by (apply Hth; lia);
          cbn [Nat.ltb Nat.leb max_retries Nat.sub]).

(** C3: throttled on all five attempts, the task makes five calls with four
    sleeps between them and returns the sentinel (0.0, "Rate limit exceeded")
    without raising. *)
Theorem rate_limit_exceeded_after_five_calls
    float_repr self env paper research_context user_interests prompt :
  _build_prompt float_repr paper research_context user_interests = Ok prompt ->
  (forall k, (k < 5)%nat -> throttled (ask self env prompt k) = true) ->
  _evaluate_single_paper float_repr self env paper research_context user_interests
  = ([Create 0; Sleep (backoff env 0); Create 1; Sleep (backoff env 1);
      Create 2; Sleep (backoff env 2); Create 3; Sleep (backoff env 3);
      Create 4],
     sample_count self,
     Ok (Evaluation 0 (py "Rate limit exceeded")))
  /\ length (creates (fst (fst (_evaluate_single_paper float_repr self env paper
                                  research_context user_interests)))) = 5%nat.
Proof.
  intros Hp Hth.
  assert (E : _evaluate_single_paper float_repr self env paper research_context
                user_interests
              = ([Create 0; Sleep (backoff env 0); Create 1; Sleep (backoff env 1);
                  Create 2; Sleep (backoff env 2); Create 3; Sleep (backoff env 3);
                  Create 4],
                 sample_count self,
                 Ok (Evaluation 0 (py "Rate limit exceeded")))).
  { run_attempts Hth. reflexivity. }
  split; [exact E|]. rewrite E. reflexivity.
Qed.

Lemma sample_prompt_built :
  _build_prompt no_repr sample_paper [] [] = Ok sample_prompt.
Proof. vm_compute. reflexivity. Qed.

Lemma rate_limit_exceeded_after_five_calls_witness :
  _build_prompt no_repr sample_paper [] [] = Ok sample_prompt
  /\ (forall k, (k < 5)%nat ->
        throttled (ask sample_evaluator always_throttled sample_prompt k) = true)
  /\ snd (_evaluate_single_paper no_repr sample_evaluator always_throttled
            sample_paper [] [])
     = Ok (Evaluation 0 (py "Rate limit exceeded")).
Proof.
  split; [exact sample_prompt_built|].
  split; [intros k _; reflexivity|].
  destruct (rate_limit_exceeded_after_five_calls no_repr sample_evaluator
              always_throttled sample_paper [] [] sample_prompt
              sample_prompt_built (fun k _ => eq_refl)) as [E _].
  rewrite E. reflexivity.
Defined.

Lemma backoff_value env k :
  (k < 4)%nat ->
  backoff env k = binary64 (inject_Z (2 ^ Z.of_nat k) + uniform env k).
Proof.
  intros Hk. unfold backoff, fadd.
  do 4 (destruct k as [|k]; [reflexivity|]). lia.
Qed.

Lemma backoff_bounds env k :
  (k < 4)%nat -> (0 <= uniform env k)%Q -> (uniform env k <= 1)%Q ->
  (inject_Z (2 ^ Z.of_nat k) <= backoff env k)%Q
  /\ (backoff env k <= inject_Z (2 ^ Z.of_nat k) + 1)%Q.
Proof.
  intros Hk H0 H1. rewrite backoff_value by done.
  set (u := uniform env k) in *. clearbody u.
  assert (Hlo : forall b : Z, 0 <= b ->
            (binary64 (inject_Z b) == inject_Z b)%Q ->
            (inject_Z b <= binary64 (inject_Z b + u))%Q).
  { intros b Hb E. rewrite <- E at 1. apply binary64_mono.
    - change 0%Q with (inject_Z 0). by rewrite <- Zle_Qle.
    - rewrite <- (Qplus_0_r (inject_Z b)) at 1. by apply Qplus_le_r. }
  assert (Hhi : forall b : Z, 0 <= b ->
            (binary64 (inject_Z b + 1) == inject_Z b + 1)%Q ->
            (binary64 (inject_Z b + u) <= inject_Z b + 1)%Q).
  { intros b Hb E. rewrite <- E. apply binary64_mono.
    - apply Qle_trans with (inject_Z b).
      + change 0%Q with (inject_Z 0). by rewrite <- Zle_Qle.
      + rewrite <- (Qplus_0_r (inject_Z b)) at 1. by apply Qplus_le_r.
    - by apply Qplus_le_r. }
  do 4 (destruct k as [|k];
        [split; [apply Hlo | apply Hhi]; (discriminate || (vm_compute; reflexivity))|]).
  lia.
Qed.

Lemma backoff_nondecreasing env k :
  (k < 3)%nat ->
  (forall j, 0 <= uniform env j /\ uniform env j < 1)%Q ->
  (backoff env k <= backoff env (S k))%Q.
Proof.
  intros Hk Hu.
  destruct (Hu k) as [Hk0 Hk1%Qlt_le_weak].
  destruct (Hu (S k)) as [Hs0 Hs1%Qlt_le_weak].
  destruct (backoff_bounds env k ltac:(lia) Hk0 Hk1) as [_ Hhi].
  destruct (backoff_bounds env (S k) ltac:(lia) Hs0 Hs1) as [Hlo _].
  apply Qle_trans with (inject_Z (2 ^ Z.of_nat k) + 1)%Q; [exact Hhi|].
  apply Qle_trans with (inject_Z (2 ^ Z.of_nat (S k))); [|exact Hlo].
  do 3 (destruct k as [|k]; [discriminate|]). lia.
Qed.

(** Whatever the endpoint answers, the trace of the loop is a run of calls,
    each but the last followed by its sleep, and the last call is one of the
    first five. *)
Lemma retry_loop_trace self env paper prompt n : forall from count,
  (1 <= n)%nat -> (from + n = 5)%nat ->
  exists k, (from <= k)%nat /\ (k <= 4)%nat
    /\ fst (fst (retry_loop self env paper prompt (seq from n) count))
       = trace_until env from k.
Proof.
  induction n as [|n IH]; intros from count Hn Hsum; [lia|].
  cbn [seq retry_loop].
  destruct (attempt_body self env paper prompt from count) as [count' [r|e]].
  { exists from. unfold trace_until. rewrite Nat.sub_diag. repeat split; lia || done. }
  destruct (is_rate_limit (exn_str e)).
  - destruct (from <? max_retries - 1)%nat eqn:Hlt.
    + apply Nat.ltb_lt in Hlt. unfold max_retries in Hlt.
      destruct (IH (S from) count') as (k & Hk & Hk4 & E); [lia | lia |].
      destruct (retry_loop self env paper prompt (seq (S from) n) count')
        as [[events count''] r']. simpl in E. subst events.
      exists k. split; [lia|]. split; [lia|].
      simpl. unfold trace_until.
      replace (k - from)%nat with (S (k - S from)) by lia.
      reflexivity.
    + exists from. unfold trace_until. rewrite Nat.sub_diag.
      apply Nat.ltb_ge in Hlt. unfold max_retries in Hlt.
      repeat split; lia || done.
  - exists from. unfold trace_until. rewrite Nat.sub_diag.
    destruct (_ ≫= _); repeat split; lia || done.
Qed.

(** C2, as amended: throttled on the first four attempts and answered on the
    fifth, the task returns the parsed answer after exactly five calls; the
    four sleeps between them are the doubles nearest to 1, 2, 4 and 8 plus
    the jitter, each between its power of two and one more, and they never
    decrease.  They need not increase: with a jitter just below 1 the first
    delay rounds to 2.0, which the second one equals when its jitter is 0.
    Whatever the endpoint does, the task makes at most five calls and sleeps
    after a call only when another call follows: no sleep follows the fifth
    attempt. *)
Theorem success_on_fifth_attempt
    float_repr self env paper research_context user_interests prompt content t :
  _build_prompt float_repr paper research_context user_interests = Ok prompt ->
  paper !! "title" = Some (VStr t) ->
  (forall k, (k < 4)%nat -> throttled (ask self env prompt k) = true) ->
  ask self env prompt 4 = Content (Some content) ->
  (forall k, 0 <= uniform env k /\ uniform env k < 1)%Q ->
  exists score reason,
    _parse_response content (VStr t) = Ok (score, reason)
    /\ _evaluate_single_paper float_repr self env paper research_context user_interests
       = ([Create 0; Sleep (backoff env 0); Create 1; Sleep (backoff env 1);
           Create 2; Sleep (backoff env 2); Create 3; Sleep (backoff env 3);
           Create 4],
          count_after self (sample_count self),
          Ok (Evaluation score reason))
    /\ (forall k, (k < 4)%nat ->
          backoff env k = binary64 (inject_Z (2 ^ Z.of_nat k) + uniform env k)
          /\ (inject_Z (2 ^ Z.of_nat k) <= backoff env k)%Q
          /\ (backoff env k <= inject_Z (2 ^ Z.of_nat k) + 1)%Q)
    /\ (forall k, (k < 3)%nat -> (backoff env k <= backoff env (S k))%Q)
    /\ (forall env', exists k, (k <= 4)%nat
          /\ fst (fst (_evaluate_single_paper float_repr self env' paper
                         research_context user_interests))
             = trace_until env' 0 k)
    /\ (forall k, 0 <= uniform jitter_below_one k /\ uniform jitter_below_one k < 1)%Q
    /\ backoff jitter_below_one 0 = 2%Q
    /\ backoff jitter_below_one 1 = 2%Q.
Proof.
  intros Hp Ht Hth Hok Hu.
  destruct (parse_response_total content (VStr t)) as (score & reason & Hparse).
  exists score, reason. split; [assumption|].
  split.
  { run_attempts Hth.
    by rewrite (retry_loop_content self env paper prompt 4 [] _ content t score reason). }
  split.
  { intros k Hk. split; [by apply backoff_value|].
    destruct (Hu k) as [H0 H1%Qlt_le_weak]. by apply backoff_bounds. }
  split; [intros k Hk; by apply backoff_nondecreasing|].
  split.
  { intros env'. unfold _evaluate_single_paper. rewrite Hp.
    destruct (retry_loop_trace self env' paper prompt 5 0 (sample_count self))
      as (k & Hk & Hk4 & E); [lia | lia |].
    exists k. split; [lia | exact E]. }
  split.
  { intros [|k]; split; vm_compute; congruence. }
  split; vm_compute; reflexivity.
Qed.

Lemma success_on_fifth_attempt_witness :
  _build_prompt no_repr sample_paper [] [] = Ok sample_prompt
  /\ sample_paper !! "title" = Some (VStr (py "A title"))
  /\ snd (_evaluate_single_paper no_repr sample_evaluator throttled_four_times
            sample_paper [] [])
     = Ok (Evaluation (17 # 2) (py "Directly extends prior work."))
  /\ sleeps (fst (fst (_evaluate_single_paper no_repr sample_evaluator
                         throttled_four_times sample_paper [] [])))
     = [backoff throttled_four_times 0; backoff throttled_four_times 1;
        backoff throttled_four_times 2; backoff throttled_four_times 3].
Proof.
  assert (Ht : sample_paper !! "title" = Some (VStr (py "A title")))
    by (vm_compute; reflexivity).
  split; [exact sample_prompt_built|].
  split; [exact Ht|].
  destruct (success_on_fifth_attempt no_repr sample_evaluator throttled_four_times
              sample_paper [] [] sample_prompt
              (py "SCORE: 8.5" ++ [nl] ++ py "REASON: Directly extends prior work.")
              (py "A title") sample_prompt_built Ht)
    as (score & reason & Hparse & Hrun & _).
  - intros k Hk. do 4 (destruct k as [|k]; [reflexivity|]). lia.
  - reflexivity.
  - intros k. split; vm_compute; congruence.
  - rewrite Hrun.
    assert (E : _parse_response
                  (py "SCORE: 8.5" ++ [nl] ++ py "REASON: Directly extends prior work.")
                  (VStr (py "A title"))
                = Ok ((17 # 2)%Q, py "Directly extends prior work."))
      by (vm_compute; reflexivity).
    rewrite E in Hparse. inversion Hparse; subst.
    split; reflexivity.
Defined.

(** C2 as stated lists a fifth delay of 16: even when all five attempts are
    throttled the task sleeps four times only, 1, 2, 4 and 8 (here with a
    jitter of 0), and returns after the fifth call without sleeping. *)
Lemma no_fifth_delay :
  _evaluate_single_paper no_repr sample_evaluator always_throttled sample_paper [] []
  = ([Create 0; Sleep 1; Create 1; Sleep 2; Create 2; Sleep 4; Create 3; Sleep 8;
      Create 4],
     0%nat, Ok (Evaluation 0 (py "Rate limit exceeded")))
  /\ sleeps (fst (fst (_evaluate_single_paper no_repr sample_evaluator
                         always_throttled sample_paper [] [])))
     <> [1; 2; 4; 8; 16]%Q.
Proof.
  split; [vm_compute; reflexivity|].
  vm_compute. discriminate.
Qed.

(** A failure whose text does not pass the test of line 180 ends the task at
    once with the sentinel (0.0, "Evaluation error"): the failing call is the
    last event, nothing is retried and nothing is raised.  When the first
    call fails ([k = 0]) the task makes exactly one call. *)
Lemma other_failure_not_retried
    float_repr self env paper research_context user_interests prompt t k error_str :
  _build_prompt float_repr paper research_context user_interests = Ok prompt ->
  paper !! "title" = Some (VStr t) ->
  (k < 5)%nat ->
  (forall j, (j < k)%nat -> throttled (ask self env prompt j) = true) ->
  ask self env prompt k = Failure error_str ->
  is_rate_limit error_str = false ->
  _evaluate_single_paper float_repr self env paper research_context user_interests
  = (flat_map (fun j => [Create j; Sleep (backoff env j)]) (seq 0 k) ++ [Create k],
     sample_count self,
     Ok (Evaluation 0 (py "Evaluation error"))).
Proof.
  intros Hp Ht Hk Hth Hfail Hrl.
  do 5 (destruct k as [|k];
        [run_attempts Hth;
         by rewrite (retry_loop_failed self env paper prompt _ _ _ error_str t)|]).
  lia.
Qed.

(** C4: a failure that is no throttling signal does not always end the task
    after one call with (0.0, "Evaluation error").  An endpoint that refuses
    every request with "Request id 14290 failed" is called five times, with
    the four sleeps between, and the task returns (0.0, "Rate limit
    exceeded"): the digits 429 within the request number pass the test of
    line 180, which reads the text of the failure and not its kind. *)
Theorem unrelated_failure_retried :
  (forall k, ask sample_evaluator refusing_request_14290 sample_prompt k
             = Failure (py "Request id 14290 failed"))
  /\ _evaluate_single_paper no_repr sample_evaluator refusing_request_14290
       sample_paper [] []
     = ([Create 0; Sleep 1; Create 1; Sleep 2; Create 2; Sleep 4; Create 3; Sleep 8;
         Create 4],
        0%nat, Ok (Evaluation 0 (py "Rate limit exceeded")))
  /\ creates (fst (fst (_evaluate_single_paper no_repr sample_evaluator
                          refusing_request_14290 sample_paper [] [])))
     <> [0%nat]
  /\ snd (_evaluate_single_paper no_repr sample_evaluator refusing_request_14290
            sample_paper [] [])
     <> Ok (Evaluation 0 (py "Evaluation error")).
Proof.
  split; [reflexivity|].
  split; [vm_compute; reflexivity|].
  split; vm_compute; discriminate.
Qed.

(** ** The batch *)

Lemma deref_setitem_eq h l key v :
  deref (setitem h l key v) l = <[key := v]> (deref h l).
Proof. unfold deref, setitem. by rewrite lookup_insert_eq. Qed.

Lemma deref_setitem_ne h l l' key v :
  l <> l' -> deref (setitem h l key v) l' = deref h l'.
Proof. intros Hne. unfold deref, setitem. by rewrite lookup_insert_ne. Qed.

Lemma lookup_setitem_other h l key v l' key' :
  key <> key' ->
  deref (setitem h l key v) l' !! key' = deref h l' !! key'.
Proof.
  intros Hk. destruct (decide (l = l')) as [<-|Hne].
  - by rewrite deref_setitem_eq, lookup_insert_ne.
  - by rewrite deref_setitem_ne.
Qed.

Lemma attach_other_key h pe p key :
  key <> "relevance_score" -> key <> "relevance_reason" ->
  deref (attach h pe) p !! key = deref h p !! key.
Proof.
  intros H1 H2. unfold attach.
  rewrite !lookup_setitem_other; done.
Qed.

Lemma attach_other_loc h pe p : p <> fst pe -> attach h pe !! p = h !! p.
Proof.
  intros Hne. unfold attach, setitem. rewrite !lookup_insert_ne; done.
Qed.

Lemma attach_score h pe :
  deref (attach h pe) (fst pe) !! "relevance_score" = Some (VFloat (score (snd pe))).
Proof.
  unfold attach. rewrite deref_setitem_eq, lookup_insert_ne by done.
  by rewrite deref_setitem_eq, lookup_insert_eq.
Qed.

Lemma attach_reason h pe :
  deref (attach h pe) (fst pe) !! "relevance_reason" = Some (VStr (reason (snd pe))).
Proof. unfold attach. by rewrite deref_setitem_eq, lookup_insert_eq. Qed.

Lemma attach_titled h pe p : titled h p -> titled (attach h pe) p.
Proof. intros [t Ht]. exists t. by rewrite attach_other_key. Qed.

Lemma foldl_attach_other_key l : forall h p key,
  key <> "relevance_score" -> key <> "relevance_reason" ->
  deref (foldl attach h l) p !! key = deref h p !! key.
Proof.
  induction l as [|pe l IH]; intros h p key H1 H2; simpl; [done|].
  by rewrite IH, attach_other_key.
Qed.

Lemma foldl_attach_other_loc l : forall h p,
  p ∉ l.*1 -> foldl attach h l !! p = h !! p.
Proof.
  induction l as [|pe l IH]; intros h p Hp; simpl; [done|].
  rewrite fmap_cons, not_elem_of_cons in Hp. destruct Hp as [Hne Hp].
  by rewrite IH, attach_other_loc.
Qed.

(** After all the assignments a retained paper carries the score and the
    reason of one of the evaluations that retained it (the last one). *)
Lemma foldl_attach_carried l : forall h p,
  p ∈ l.*1 ->
  exists e, (p, e) ∈ l
    /\ deref (foldl attach h l) p !! "relevance_score" = Some (VFloat (score e))
    /\ deref (foldl attach h l) p !! "relevance_reason" = Some (VStr (reason e)).
Proof.
  induction l as [|pe l IH] using rev_ind; intros h p Hp.
  - by apply elem_of_nil in Hp.
  - rewrite foldl_app. simpl.
    destruct (decide (p = fst pe)) as [->|Hne].
    + exists (snd pe). split.
      * apply elem_of_app. right. destruct pe. apply list_elem_of_singleton. done.
      * split; [apply attach_score | apply attach_reason].
    + rewrite fmap_app, elem_of_app in Hp. destruct Hp as [Hp|Hp].
      * destruct (IH h p Hp) as (e & He & Hs & Hr).
        exists e. split; [apply elem_of_app; by left|].
        unfold deref in *. rewrite attach_other_loc by done. done.
      * simpl in Hp. apply list_elem_of_singleton in Hp. done.
Qed.

Lemma kept_cons self fr (future_to_paper : gmap nat loc) i futures :
  kept self fr future_to_paper (i :: futures)
  = match future_to_paper !! i with
    | Some p =>
        match retain self (fr i p) with
        | Some e => (p, e) :: kept self fr future_to_paper futures
        | None => kept self fr future_to_paper futures
        end
    | None => kept self fr future_to_paper futures
    end.
Proof.
  unfold kept. simpl.
  destruct (future_to_paper !! i); [|done]. by destruct (retain _ _).
Qed.

Section Batch.
Variable float_repr : Q -> str.
Variables (self : LLMEvaluator) (w : world) (h0 : heap).
Variables (research_context user_interests : str).

Let fr := future_result float_repr self w h0 research_context user_interests.

Lemma collect_closed (future_to_paper : gmap nat loc) : forall futures h relevant_papers,
  (forall i, i ∈ futures -> is_Some (future_to_paper !! i)) ->
  (forall i p, future_to_paper !! i = Some p -> titled h p) ->
  collect float_repr self w h0 research_context user_interests future_to_paper
    futures h relevant_papers
  = (foldl attach h (kept self fr future_to_paper futures),
     Ok (relevant_papers ++ (kept self fr future_to_paper futures).*1)).
Proof.
  induction futures as [|i futures IH]; intros h rel Hdom Ht.
  - simpl. by rewrite app_nil_r.
  - rewrite kept_cons. cbn [collect].
    destruct (Hdom i) as [p Hp]; [by left|]. rewrite Hp.
    fold fr.
    assert (Hdom' : forall j, j ∈ futures -> is_Some (future_to_paper !! j))
      by (intros j Hj; apply Hdom; by right).
    destruct (fr i p) as [e|exc] eqn:Hfr; cbn [retain].
    + destruct (Qleb (threshold self) (score e)).
      * rewrite IH; [|done|].
        -- cbn [foldl fmap list_fmap fst]. by rewrite <- app_assoc.
        -- intros j q Hq. apply (attach_titled h (p, e)). eauto.
      * by rewrite IH.
    + destruct (Ht i p Hp) as [t Htitle].
      unfold getitem. rewrite Htitle. simpl.
      by rewrite IH.
Qed.
End Batch.

(** *** The sort *)

Lemma insert_desc_perm x l : insert_desc x l ≡ₚ x :: l.
Proof.
  induction l as [|y l IH]; simpl; [done|].
  destruct (Qleb (fst y) (fst x)); [done|].
  rewrite IH. apply perm_swap.
Qed.

Lemma sort_desc_perm l : sort_desc l ≡ₚ l.
Proof.
  induction l as [|x l IH]; simpl; [done|].
  by rewrite insert_desc_perm, IH.
Qed.

Lemma insert_desc_sorted x l :
  StronglySorted by_key_desc l -> StronglySorted by_key_desc (insert_desc x l).
Proof.
  induction 1 as [|y l Hs IH Hall]; simpl.
  - repeat constructor.
  - destruct (Qleb (fst y) (fst x)) eqn:E.
    + apply Qle_bool_iff in E.
      constructor; [by constructor|].
      constructor; [exact E|].
      eapply Forall_impl; [|exact Hall].
      intros z Hz. unfold by_key_desc in *. by apply Qle_trans with (fst y).
    + constructor; [assumption|].
      rewrite insert_desc_perm. constructor; [|assumption].
      unfold by_key_desc. apply Qlt_le_weak, Qnot_le_lt.
      intros Hle. apply Qle_bool_iff in Hle. unfold Qleb in E. congruence.
Qed.

Lemma sort_desc_sorted l : StronglySorted by_key_desc (sort_desc l).
Proof.
  induction l as [|x l IH]; simpl; [constructor|].
  by apply insert_desc_sorted.
Qed.

Lemma sorted_by_key (key : loc -> Q) (l : list (Q * loc)) :
  Forall (fun x => fst x = key (snd x)) l ->
  StronglySorted by_key_desc l ->
  StronglySorted (fun a b => (key b <= key a)%Q) (map snd l).
Proof.
  intros Hkey Hs. induction Hs as [|x l Hs IH Hall]; simpl; [constructor|].
  apply Forall_cons_iff in Hkey as [Hx Hkey].
  constructor; [by apply IH|].
  rewrite Forall_forall in Hall, Hkey. apply Forall_forall.
  intros q Hq. apply in_map_iff in Hq as (y & <- & Hy).
  specialize (Hall y Hy). unfold by_key_desc in Hall.
  by rewrite <- Hx, <- (Hkey y Hy).
Qed.

Lemma sort_keys_ok h l :
  (forall p, p ∈ l -> exists s, deref h p !! "relevance_score" = Some (VFloat s)) ->
  sort_keys h l = Ok (map (fun p => (attached_score h p, p)) l).
Proof.
  induction l as [|p l IH]; intros H; simpl; [done|].
  destruct (H p) as [s Hs]; [by left|].
  unfold sort_key, getitem, attached_score. rewrite Hs. simpl.
  rewrite IH; [done|]. intros q Hq. apply H. by right.
Qed.

(** *** The futures *)

Lemma future_to_paper_lookup_from (papers : list loc) : forall k i,
  (list_to_map (zip (seq k (length papers)) papers) : gmap nat loc) !! i
  = if decide (k <= i)%nat then papers !! (i - k)%nat else None.
Proof.
  induction papers as [|p papers IH]; intros k i; simpl.
  - rewrite lookup_empty. by destruct (decide _).
  - destruct (decide (k = i)) as [->|Hne].
    + rewrite lookup_insert_eq, Nat.sub_diag.
      destruct (decide (i <= i)%nat); [done | lia].
    + rewrite lookup_insert_ne by done. rewrite IH.
      destruct (decide (S k <= i)%nat), (decide (k <= i)%nat); try lia; [|done].
      replace (i - k)%nat with (S (i - S k)) by lia. done.
Qed.

Lemma future_to_paper_lookup (papers : list loc) i :
  (list_to_map (zip (seq 0 (length papers)) papers) : gmap nat loc) !! i
  = papers !! i.
Proof.
  rewrite future_to_paper_lookup_from.
  destruct (decide (0 <= i)%nat); [|lia]. by rewrite Nat.sub_0_r.
Qed.

Lemma kept_elem self fr (future_to_paper : gmap nat loc) futures p e :
  (p, e) ∈ kept self fr future_to_paper futures ->
  exists i, i ∈ futures /\ future_to_paper !! i = Some p
    /\ fr i p = Ok e /\ (threshold self <= score e)%Q.
Proof.
  unfold kept. intros (i & Hi & H)%list_elem_of_omap.
  exists i. split; [assumption|].
  destruct (future_to_paper !! i) as [q|]; [|discriminate].
  destruct (fr i q) as [e'|] eqn:Hfr; simpl in H; [|discriminate].
  destruct (Qleb (threshold self) (score e')) eqn:Hle; [|discriminate].
  inversion H; subst. repeat split; [assumption|].
  by apply Qle_bool_iff.
Qed.

Lemma kept_relevant self fr (papers : list loc) futures :
  futures ≡ₚ seq 0 (length papers) ->
  (kept self fr (list_to_map (zip (seq 0 (length papers)) papers)) futures).*1
  ≡ₚ relevant self fr papers.
Proof.
  intros Hperm. unfold relevant, kept. rewrite Hperm.
  pose proof (future_to_paper_lookup papers) as Hlookup.
  set (future_to_paper := list_to_map _ : gmap nat loc) in *.
  generalize (seq 0 (length papers)). intros l.
  induction l as [|i l IH]; simpl; [done|].
  rewrite Hlookup.
  destruct (papers !! i) as [p|]; [|done].
  destruct (retain self (fr i p)); simpl; [|done].
  by rewrite IH.
Qed.

(** *** What [evaluate_papers] returns *)

Lemma evaluate_papers_closed float_repr self w h papers research_context user_interests :
  max_workers self <> 0%nat ->
  completed w ≡ₚ seq 0 (length papers) ->
  (forall p, p ∈ papers -> titled h p) ->
  let fr := future_result float_repr self w h research_context user_interests in
  let K := kept self fr (list_to_map (zip (seq 0 (length papers)) papers))
             (completed w) in
  let h' := foldl attach h K in
  evaluate_papers float_repr self w h papers research_context user_interests
  = (h', Ok (map snd (sort_desc (map (fun p => (attached_score h' p, p)) K.*1)))).
Proof.
  intros Hworkers Hperm Htitled fr K h'. unfold evaluate_papers.
  apply Nat.eqb_neq in Hworkers. rewrite Hworkers.
  rewrite collect_closed.
  - fold fr. fold K. fold h'. rewrite app_nil_l.
    rewrite sort_keys_ok; [done|].
    intros p Hp. destruct (foldl_attach_carried K h p Hp) as (e & _ & Hs & _).
    eauto.
  - intros i Hi. rewrite future_to_paper_lookup.
    apply lookup_lt_is_Some. rewrite Hperm in Hi.
    apply elem_of_seq in Hi. lia.
  - intros i p Hp. rewrite future_to_paper_lookup in Hp.
    apply Htitled. by eapply list_elem_of_lookup_2.
Qed.

(** C1: for a batch whose papers have a title, run with a pool of at least
    one worker, [evaluate_papers] returns a list that holds exactly the papers
    whose task returned a score at or above the threshold; each of them
    carries the [relevance_score] and the [relevance_reason] of such an
    evaluation of it; and the list is sorted by the score carried, highest
    first. *)
Theorem evaluate_papers_filters_and_sorts
    float_repr self w h papers research_context user_interests :
  max_workers self <> 0%nat ->
  completed w ≡ₚ seq 0 (length papers) ->
  (forall p, p ∈ papers -> titled h p) ->
  exists h' out,
    evaluate_papers float_repr self w h papers research_context user_interests
    = (h', Ok out)
    /\ out ≡ₚ relevant self
                (future_result float_repr self w h research_context user_interests)
                papers
    /\ Forall (fun p => exists i e,
                 papers !! i = Some p
                 /\ future_result float_repr self w h research_context user_interests i p
                    = Ok e
                 /\ (threshold self <= score e)%Q
                 /\ deref h' p !! "relevance_score" = Some (VFloat (score e))
                 /\ deref h' p !! "relevance_reason" = Some (VStr (reason e))) out
    /\ StronglySorted (fun a b => (attached_score h' b <= attached_score h' a)%Q) out.
Proof.
  intros Hworkers Hperm Htitled.
  pose proof (evaluate_papers_closed float_repr self w h papers research_context
                user_interests Hworkers Hperm Htitled) as E.
  cbv zeta in E.
  set (fr := future_result float_repr self w h research_context user_interests) in *.
  set (K := kept self fr _ (completed w)) in *.
  set (h' := foldl attach h K) in *.
  set (keyed := map (fun p => (attached_score h' p, p)) K.*1) in *.
  assert (Hout : map snd (sort_desc keyed) ≡ₚ K.*1).
  { rewrite sort_desc_perm. unfold keyed. by rewrite map_snd_keyed. }
  exists h', (map snd (sort_desc keyed)). split; [exact E|].
  split; [|split].
  - rewrite Hout. by apply kept_relevant.
  - apply Forall_forall. intros p Hp.
    apply list_elem_of_In in Hp. rewrite Hout in Hp.
    destruct (foldl_attach_carried K h p Hp) as (e & He & Hs & Hr).
    apply kept_elem in He as (i & Hi & Hlookup & Hfr & Hle).
    rewrite future_to_paper_lookup in Hlookup.
    exists i, e. done.
  - apply sorted_by_key; [|apply sort_desc_sorted].
    apply Forall_forall. intros x Hx.
    apply list_elem_of_In in Hx. rewrite sort_desc_perm in Hx.
    unfold keyed in Hx. apply list_elem_of_In, in_map_iff in Hx as (p & <- & _).
    reflexivity.
Qed.

Lemma evaluate_papers_filters_and_sorts_witness :
  max_workers sample_evaluator <> 0%nat
  /\ completed sample_world ≡ₚ seq 0 (length sample_papers)
  /\ (forall p, p ∈ sample_papers -> titled sample_heap p)
  /\ snd (evaluate_papers no_repr sample_evaluator sample_world sample_heap
            sample_papers [] []) = Ok [3; 1]%positive
  /\ exists h' out,
       evaluate_papers no_repr sample_evaluator sample_world sample_heap
         sample_papers [] [] = (h', Ok out)
       /\ out ≡ₚ relevant sample_evaluator
                   (future_result no_repr sample_evaluator sample_world sample_heap [] [])
                   sample_papers
       /\ StronglySorted
            (fun a b => (attached_score h' b <= attached_score h' a)%Q) out.
Proof.
  assert (Hperm : completed sample_world ≡ₚ seq 0 (length sample_papers)).
  { simpl. etransitivity; [apply perm_swap|]. apply perm_skip, perm_swap. }
  assert (Htitled : forall p, p ∈ sample_papers -> titled sample_heap p).
  { intros p Hp. unfold sample_papers in Hp.
    repeat (apply elem_of_cons in Hp as [->|Hp]);
      [eexists; vm_compute; reflexivity ..|].
    by apply elem_of_nil in Hp. }
  assert (Hworkers : max_workers sample_evaluator <> 0%nat) by discriminate.
  split; [exact Hworkers|].
  split; [exact Hperm|]. split; [exact Htitled|].
  split; [vm_compute; reflexivity|].
  destruct (evaluate_papers_filters_and_sorts no_repr sample_evaluator sample_world
              sample_heap sample_papers [] [] Hworkers Hperm Htitled)
    as (h' & out & E & Hout & _ & Hsorted).
  exists h', out. auto.
Defined.

(** C9, as amended: [evaluate_papers] writes into the caller's own
    dictionaries.  The papers it returns are the retained ones, and they are
    references of the input list (no copy is made); after the call the
    dictionary of each of them holds, under [relevance_score] and
    [relevance_reason], the score and the reason of its evaluation, whatever
    it held there before.  No other field is changed, and every paper that is
    not returned is left as it was. *)
Theorem evaluate_papers_frame
    float_repr self w h papers research_context user_interests :
  max_workers self <> 0%nat ->
  completed w ≡ₚ seq 0 (length papers) ->
  (forall p, p ∈ papers -> titled h p) ->
  exists h' out,
    evaluate_papers float_repr self w h papers research_context user_interests
    = (h', Ok out)
    /\ out ≡ₚ relevant self
                (future_result float_repr self w h research_context user_interests)
                papers
    /\ (forall p, p ∈ out -> p ∈ papers)
    /\ (forall p, p ∈ out -> exists i e,
          papers !! i = Some p
          /\ future_result float_repr self w h research_context user_interests i p
             = Ok e
          /\ (threshold self <= score e)%Q
          /\ deref h' p !! "relevance_score" = Some (VFloat (score e))
          /\ deref h' p !! "relevance_reason" = Some (VStr (reason e)))
    /\ (forall p key, key <> "relevance_score" -> key <> "relevance_reason" ->
          deref h' p !! key = deref h p !! key)
    /\ (forall p, p ∉ out -> h' !! p = h !! p).
Proof.
  intros Hworkers Hperm Htitled.
  pose proof (evaluate_papers_closed float_repr self w h papers research_context
                user_interests Hworkers Hperm Htitled) as E.
  cbv zeta in E.
  set (fr := future_result float_repr self w h research_context user_interests) in *.
  set (K := kept self fr _ (completed w)) in *.
  set (h' := foldl attach h K) in *.
  set (keyed := map (fun p => (attached_score h' p, p)) K.*1) in *.
  assert (Hout : map snd (sort_desc keyed) ≡ₚ K.*1).
  { rewrite sort_desc_perm. unfold keyed. by rewrite map_snd_keyed. }
  exists h', (map snd (sort_desc keyed)). split; [exact E|].
  split; [|split; [|split; [|split]]].
  - rewrite Hout. by apply kept_relevant.
  - intros p Hp. rewrite Hout in Hp.
    apply list_elem_of_fmap in Hp as ([q e] & -> & Hp).
    apply kept_elem in Hp as (i & _ & Hlookup & _).
    rewrite future_to_paper_lookup in Hlookup.
    by eapply list_elem_of_lookup_2.
  - intros p Hp. rewrite Hout in Hp.
    destruct (foldl_attach_carried K h p Hp) as (e & He & Hs & Hr).
    apply kept_elem in He as (i & Hi & Hlookup & Hfr & Hle).
    rewrite future_to_paper_lookup in Hlookup.
    exists i, e. done.
  - intros p key H1 H2. by apply foldl_attach_other_key.
  - intros p Hp. apply foldl_attach_other_loc. by rewrite <- Hout.
Qed.

Lemma evaluate_papers_frame_witness :
  max_workers sample_evaluator <> 0%nat
  /\ completed sample_world ≡ₚ seq 0 (length sample_papers)
  /\ (forall p, p ∈ sample_papers -> titled sample_heap p)
  /\ exists h' out,
       evaluate_papers no_repr sample_evaluator sample_world sample_heap
         sample_papers [] [] = (h', Ok out)
       /\ (forall p, p ∈ out -> p ∈ sample_papers)
       /\ (forall p key, key <> "relevance_score" -> key <> "relevance_reason" ->
             deref h' p !! key = deref sample_heap p !! key)
       /\ (forall p, p ∉ out -> h' !! p = sample_heap !! p).
Proof.
  assert (Hperm : completed sample_world ≡ₚ seq 0 (length sample_papers)).
  { simpl. etransitivity; [apply perm_swap|]. apply perm_skip, perm_swap. }
  assert (Htitled : forall p, p ∈ sample_papers -> titled sample_heap p).
  { intros p Hp. unfold sample_papers in Hp.
    repeat (apply elem_of_cons in Hp as [->|Hp]);
      [eexists; vm_compute; reflexivity ..|].
    by apply elem_of_nil in Hp. }
  assert (Hworkers : max_workers sample_evaluator <> 0%nat) by discriminate.
  split; [exact Hworkers|].
  split; [exact Hperm|]. split; [exact Htitled|].
  destruct (evaluate_papers_frame no_repr sample_evaluator sample_world sample_heap
              sample_papers [] [] Hworkers Hperm Htitled)
    as (h' & out & E & _ & Hin & _ & Hkeys & Hrest).
  exists h', out. auto.
Defined.

(** C9 as stated fails: the paper returned is the caller's dictionary itself,
    now with the two fields set, and a field the caller had under one of
    these names is overwritten. *)
Lemma evaluate_papers_mutates_input :
  snd (evaluate_papers no_repr sample_evaluator one_task_world rated_heap
         [1%positive] [] []) = Ok [1%positive]
  /\ deref rated_heap 1%positive !! "relevance_score" = Some (VStr (py "unrated"))
  /\ deref rated_heap 1%positive !! "relevance_reason" = None
  /\ deref (fst (evaluate_papers no_repr sample_evaluator one_task_world rated_heap
                   [1%positive] [] [])) 1%positive !! "relevance_score"
     = Some (VFloat 9)
  /\ deref (fst (evaluate_papers no_repr sample_evaluator one_task_world rated_heap
                   [1%positive] [] [])) 1%positive !! "relevance_reason"
     = Some (VStr (py "Central.")).
Proof. repeat split; vm_compute; reflexivity. Qed.

(** ** A task reads the title and the abstract only

    The assignments of the main thread touch [relevance_score] and
    [relevance_reason]; what a task computes does not depend on them, whenever
    it reads its paper. *)

Lemma attempt_body_fields self env paper paper' prompt attempt count :
  paper !! "title" = paper' !! "title" ->
  attempt_body self env paper prompt attempt count
  = attempt_body self env paper' prompt attempt count.
Proof.
  intros Ht. unfold attempt_body, getitem. by rewrite Ht.
Qed.

Lemma retry_loop_fields self env paper paper' prompt range : forall count,
  paper !! "title" = paper' !! "title" ->
  retry_loop self env paper prompt range count
  = retry_loop self env paper' prompt range count.
Proof.
  induction range as [|attempt range IH]; intros count Ht; [reflexivity|].
  cbn [retry_loop]. rewrite (attempt_body_fields _ _ paper paper') by done.
  destruct (attempt_body self env paper' prompt attempt count) as [count' [r|e]];
    [reflexivity|].
  unfold getitem. rewrite Ht.
  destruct (is_rate_limit _); [|reflexivity].
  destruct (_ <? _)%nat; [|reflexivity].
  by rewrite IH.
Qed.

Lemma build_prompt_fields float_repr paper paper' research_context user_interests :
  paper !! "title" = paper' !! "title" ->
  paper !! "abstract" = paper' !! "abstract" ->
  _build_prompt float_repr paper research_context user_interests
  = _build_prompt float_repr paper' research_context user_interests.
Proof.
  intros Ht Ha. unfold _build_prompt, getitem. by rewrite Ht, Ha.
Qed.

Lemma evaluate_single_paper_fields
    float_repr self env paper paper' research_context user_interests :
  paper !! "title" = paper' !! "title" ->
  paper !! "abstract" = paper' !! "abstract" ->
  _evaluate_single_paper float_repr self env paper research_context user_interests
  = _evaluate_single_paper float_repr self env paper' research_context user_interests.
Proof.
  intros Ht Ha. unfold _evaluate_single_paper.
  rewrite (build_prompt_fields float_repr paper paper') by done.
  destruct (_build_prompt float_repr paper' research_context user_interests);
    [|reflexivity].
  by apply retry_loop_fields.
Qed.

Lemma future_result_attached
    float_repr self w h l research_context user_interests i paper :
  future_result float_repr self w (foldl attach h l) research_context user_interests
    i paper
  = future_result float_repr self w h research_context user_interests i paper.
Proof.
  unfold future_result. f_equal.
  apply evaluate_single_paper_fields; by apply foldl_attach_other_key.
Qed.

(** * Further properties of the response interpreter *)

(** ** The score is never negative *)

Lemma digit_val_range c : is_digit c = true -> 0 <= digit_val c <= 9.
Proof. destruct c as [[] [] [] [] [] [] [] []]; vm_compute; intuition congruence. Qed.

Lemma digits_val_nonneg l :
  forallb is_digit l = true -> 0 <= digits_val l.
Proof.
  assert (H : forall acc, 0 <= acc -> forallb is_digit l = true ->
                0 <= fold_left (fun acc c => 10 * acc + digit_val c) l acc).
  { induction l as [|c l IH]; intros acc Hacc Hl; [exact Hacc|].
    simpl in Hl. apply andb_prop in Hl as [Hc Hl].
    apply IH; [|exact Hl]. pose proof (digit_val_range c Hc). lia. }
  apply H. lia.
Qed.

Lemma float_nonneg s q : float s = Ok q -> (0 <= q)%Q.
Proof.
  unfold float. destruct (split_dot s) as [ip fp'].
  destruct (forallb is_digit ip && forallb is_digit _ && _) eqn:E; [|discriminate].
  intros [= <-].
  apply andb_prop in E as [E _]. apply andb_prop in E as [Hip Hfp].
  apply binary64_nonneg. unfold Qle. cbn [Qnum Qden]. rewrite Z.mul_1_r.
  apply digits_val_nonneg. rewrite forallb_app. by rewrite Hip, Hfp.
Qed.

Lemma group_float_nonneg m g q s :
  group1 m = Some g -> float g = Ok q ->
  (g' ← group m; float g') = Ok s -> (0 <= s)%Q.
Proof.
  intros Hg Hq. unfold group. rewrite Hg. cbn [mbind result_bind].
  apply float_nonneg.
Qed.

Lemma parse_score_nonneg content s : parse_score content = Ok s -> (0 <= s)%Q.
Proof.
  unfold parse_score, re_search.
  destruct (search_from true score_re None content) as [m|] eqn:E1.
  { apply search_from_sound in E1 as (bf & l & xs & H).
    apply score_re_shape in H as (g & q & Hg & Hq).
    by apply (group_float_nonneg m g q). }
  destruct (search_from true alt_re None content) as [m|] eqn:E2.
  { apply search_from_sound in E2 as (bf & l & xs & H).
    apply alt_re_shape in H as (g & q & Hg & Hq).
    by apply (group_float_nonneg m g q). }
  destruct (search_from false num_re None content) as [m|] eqn:E3.
  2: { intros [= <-]. apply Qle_refl. }
  apply search_from_sound in E3 as (bf & l & xs & H).
  apply num_re_shape in H as (g & Hg & Hn).
  apply small_numeral_float in Hn as [Hf _].
  unfold group. rewrite Hg. cbn [mbind result_bind]. rewrite Hf.
  cbn [mbind result_bind].
  destruct (Qleb 0 _) eqn:E0; cbn [andb].
  - destruct (Qleb _ 10); intros [= <-]; [by apply Qle_bool_iff | apply Qle_refl].
  - intros [= <-]. apply Qle_refl.
Qed.

(** X1: [_parse_response] returns a pair for every text: whatever a pattern
    captures is a numeral that [float] accepts, so nothing is raised; and the
    score is never negative, since no pattern captures a sign (for "SCORE: -5"
    the labelled patterns fail and the last-resort one finds 5). *)
Theorem parse_response_returns content paper_title :
  (exists score reason,
     _parse_response content paper_title = Ok (score, reason) /\ (0 <= score)%Q)
  /\ exists reason,
       _parse_response (py "SCORE: -5") paper_title = Ok (5%Q, reason).
Proof.
  split; [|eexists; vm_compute; reflexivity].
  destruct (parse_response_total content paper_title) as (score & reason & E).
  exists score, reason. split; [exact E|].
  unfold _parse_response in E.
  destruct (parse_score content) as [s|] eqn:Hs; [|discriminate].
  cbn [mbind result_bind] in E.
  destruct (parse_reason content) as [r|]; [|discriminate].
  cbn [mbind result_bind] in E. inversion E; subst.
  by apply (parse_score_nonneg content).
Qed.

(** ** The length of the reason *)

(** X2: when no REASON label matches, the reason returned has at most 100
    characters.  A reason captured after the label is not cut. *)
Theorem fallback_reason_at_most_100 content paper_title score reason :
  re_search true reason_re content = None ->
  _parse_response content paper_title = Ok (score, reason) ->
  (length reason <= 100)%nat.
Proof.
  intros Hnone E. unfold _parse_response in E.
  destruct (parse_score content) as [s|]; [|discriminate].
  cbn [mbind result_bind] in E.
  destruct (parse_reason content) as [r|] eqn:Hr; [|discriminate].
  cbn [mbind result_bind] in E. inversion E; subst.
  by apply (parse_reason_fallback_length content).
Qed.

Lemma fallback_reason_at_most_100_witness :
  re_search true reason_re long_text = None
  /\ _parse_response long_text (VStr []) = Ok (0%Q, repeat "a"%char 100)
  /\ (length (repeat "a"%char 100) <= 100)%nat
  /\ _parse_response (py "REASON: " ++ long_text) (VStr []) = Ok (0%Q, long_text).
Proof.
  assert (H1 : re_search true reason_re long_text = None) by (vm_compute; reflexivity).
  assert (H2 : _parse_response long_text (VStr []) = Ok (0%Q, repeat "a"%char 100))
    by (vm_compute; reflexivity).
  split; [exact H1|]. split; [exact H2|].
  split; [exact (fallback_reason_at_most_100 long_text (VStr []) 0%Q _ H1 H2)|].
  vm_compute. reflexivity.
Defined.

(** ** The second labelled strategy *)

Lemma is_digit_not_separator x :
  is_digit x = true -> is_space x || chr_eqb x ":" = false.
Proof. destruct x as [[] [] [] [] [] [] [] []]; vm_compute; congruence. Qed.

Lemma rating_is_not_score L l :
  word_eqb true (py "rating") L = true ->
  begins_with true (py "score") (L ++ l) = false.
Proof.
  destruct L as [|x L]; [discriminate|].
  cbn [py list_ascii_of_string word_eqb begins_with app].
  intros [Hx _]%andb_prop. apply lit_eqb_lower in Hx.
  unfold lit_eqb. rewrite Hx. reflexivity.
Qed.

Lemma match_alt_re bf L seps ip fp l :
  word_eqb true (py "score") L = true \/ word_eqb true (py "rating") L = true ->
  seps <> [] ->
  forallb (fun c => is_space c || chr_eqb c ":") seps = true ->
  ip <> [] -> forallb is_digit ip = true ->
  forallb is_digit (default [] fp) = true ->
  head_all not_digit_nor_dot l = true ->
  exists m, match_at true alt_re bf (L ++ seps ++ numeral ip fp ++ l) = Some m
    /\ group1 m = Some (numeral ip fp).
Proof.
  intros HL Hne Hseps Hip0 Hip Hfp Hl.
  eexists (Cursor _ l (Some (numeral ip fp))). split; [|reflexivity].
  assert (Hrest : forall bf',
            rep true (fun c => is_space c || chr_eqb c ":") 1 bf'
              (seps ++ numeral ip fp ++ l) None
              (fun c' => run true number_group c' Some)
            = Some (Cursor (advance (advance bf' seps) (numeral ip fp)) l
                      (Some (numeral ip fp)))).
  { intros bf'. apply rep_greedy_all; [done | | |].
    - unfold numeral. rewrite <- app_assoc, head_sat_app by done.
      destruct ip as [|d ip]; [done|]. simpl in *.
      apply andb_prop in Hip as [Hd _]. by apply is_digit_not_separator.
    - destruct seps; simpl; [done | lia].
    - by apply run_number_group. }
  unfold match_at, alt_re. cbn [run].
  destruct HL as [HL|HL].
  - rewrite run_word by done. cbn [before rest group1]. by rewrite Hrest.
  - rewrite run_word_fails by (by apply rating_is_not_score).
    rewrite run_word by done. cbn [before rest group1]. by rewrite Hrest.
Qed.

(** X3: the second strategy.  When no "SCORE:" label matches, a text that
    begins with the word score or rating (each letter in either case), one
    or more blanks or colons, and a numeral is scored with the double
    nearest to that numeral, which is not clamped. *)
Theorem second_label_score L seps ip fp l paper_title :
  any_case (py "score") L = true \/ any_case (py "rating") L = true ->
  seps <> [] ->
  forallb (fun c => is_space c || chr_eqb c ":") seps = true ->
  ip <> [] -> forallb is_digit ip = true ->
  forallb is_digit (default [] fp) = true ->
  head_all not_digit_nor_dot l = true ->
  re_search true score_re (L ++ seps ++ numeral ip fp ++ l) = None ->
  exists reason,
    _parse_response (L ++ seps ++ numeral ip fp ++ l) paper_title
    = Ok (binary64 (numeral_value ip fp), reason).
Proof.
  intros HL Hne Hseps Hip0 Hip Hfp Hl Hnone.
  destruct (parse_reason_total (L ++ seps ++ numeral ip fp ++ l)) as [r Hr].
  exists r. unfold _parse_response. rewrite Hr.
  unfold parse_score. rewrite Hnone. unfold re_search.
  destruct (match_alt_re None L seps ip fp l) as (m & Hm & Hg); try done.
  { destruct HL as [HL|HL]; [left | right]; by apply any_case_word_eqb. }
  rewrite (search_from_found _ _ _ _ _ Hm).
  unfold group. rewrite Hg. simpl. by rewrite float_numeral.
Qed.

Lemma second_label_score_witness :
  re_search true score_re (py "Rating" ++ py " : " ++ numeral (py "42") None ++ py "/10")
  = None
  /\ exists reason,
       _parse_response (py "Rating : 42/10") (VStr []) = Ok (42%Q, reason).
Proof.
  assert (H : re_search true score_re
                (py "Rating" ++ py " : " ++ numeral (py "42") None ++ py "/10") = None)
    by (vm_compute; reflexivity).
  split; [exact H|].
  exact (second_label_score (py "Rating") (py " : ") (py "42") None (py "/10") (VStr [])
           (or_intror eq_refl) ltac:(discriminate) eq_refl ltac:(discriminate)
           eq_refl eq_refl eq_refl H).
Defined.

(** ** The reason is a part of the reply *)

Lemma part_of_refl s : part_of s s.
Proof. exists [], []. by rewrite app_nil_r. Qed.

Lemma part_of_trans s t u : part_of s t -> part_of t u -> part_of s u.
Proof.
  intros (a & b & ->) (c & d & ->). exists (c ++ a), (b ++ d).
  by rewrite <- !app_assoc.
Qed.

Lemma part_of_app_l s t a : part_of s t -> part_of s (a ++ t).
Proof. intros (c & d & ->). exists (a ++ c), d. by rewrite <- !app_assoc. Qed.

Lemma part_of_app_r s t b : part_of s t -> part_of s (t ++ b).
Proof. intros (c & d & ->). exists c, (d ++ b). by rewrite <- !app_assoc. Qed.

Lemma part_of_firstn n s : part_of (firstn n s) s.
Proof. exists [], (skipn n s). simpl. by rewrite firstn_skipn. Qed.

Lemma lstrip_suffix s : exists a, s = a ++ lstrip s /\ forallb is_space a = true.
Proof.
  induction s as [|c s (a & E & Ha)]; [by exists []|].
  simpl. destruct (is_space c) eqn:Hc.
  - exists (c :: a). simpl. rewrite Hc. split; [by f_equal | exact Ha].
  - by exists [].
Qed.

Lemma rstrip_prefix s : exists b, s = rstrip s ++ b /\ forallb is_space b = true.
Proof.
  unfold rstrip. destruct (lstrip_suffix (rev s)) as (a & E & Ha).
  exists (rev a). split.
  - rewrite <- rev_app_distr, <- E. by rewrite rev_involutive.
  - rewrite forallb_forall in Ha |- *. intros x Hx. apply Ha. by apply in_rev.
Qed.

Lemma part_of_strip s : part_of (strip s) s.
Proof.
  unfold strip. destruct (lstrip_suffix s) as (a & E & _).
  destruct (rstrip_prefix (lstrip s)) as (b & E' & _).
  exists a, b. by rewrite <- E', <- E.
Qed.

Lemma search_from_match ic r l : forall bf m,
  search_from ic r bf l = Some m ->
  exists pre l', l = pre ++ l' /\ match_at ic r (advance bf pre) l' = Some m.
Proof.
  induction l as [|x l IH]; intros bf m H; simpl in H.
  - destruct (match_at ic r bf []) eqn:E; [|discriminate].
    inversion H; subst. by exists [], [].
  - destruct (match_at ic r bf (x :: l)) eqn:E.
    + inversion H; subst. by exists [], (x :: l).
    + apply IH in H as (pre & l' & -> & Hm). by exists (x :: pre), l'.
Qed.

(** A lazy repetition that succeeds has stopped at the first length, from
    [least] on, after which the rest of the pattern accepts. *)
Lemma rep_lazy_sound {A} p l : forall least bf g (k : cursor -> option A) a,
  rep false p least bf l g k = Some a ->
  exists xs l', l = xs ++ l' /\ forallb p xs = true /\ (least <= length xs)%nat
    /\ k (Cursor (advance bf xs) l' g) = Some a
    /\ forall xs1 xs2, xs = xs1 ++ xs2 -> xs2 <> [] -> (least <= length xs1)%nat ->
         k (Cursor (advance bf xs1) (xs2 ++ l') g) = None.
Proof.
  induction l as [|x l IH]; intros least bf g k a H.
  - cbn [rep] in H. destruct least; [|discriminate].
    destruct (k (Cursor bf [] g)) eqn:Hk; [|discriminate].
    inversion H; subst. exists [], []. repeat split; try done.
    intros xs1 xs2 Heq Hne. by destruct xs1, xs2.
  - cbn [rep] in H.
    assert (Hstep : (if p x then rep false p (pred least) (Some x) l g k else None)
                    = Some a ->
                    (least = 0%nat -> k (Cursor bf (x :: l) g) = None) ->
                    exists xs l', x :: l = xs ++ l' /\ forallb p xs = true
                      /\ (least <= length xs)%nat
                      /\ k (Cursor (advance bf xs) l' g) = Some a
                      /\ forall xs1 xs2, xs = xs1 ++ xs2 -> xs2 <> [] ->
                           (least <= length xs1)%nat ->
                           k (Cursor (advance bf xs1) (xs2 ++ l') g) = None).
    { intros Hrec Hfirst. destruct (p x) eqn:Hx; [|discriminate].
      apply IH in Hrec as (xs & l' & -> & Hall & Hlen & Hk & Hmin).
      exists (x :: xs), l'. simpl. rewrite Hx.
      repeat split; try done; [lia|].
      intros xs1 xs2 Heq Hne Hl1. destruct xs1 as [|y xs1].
      - simpl in *. subst xs2. apply Hfirst. lia.
      - simpl in Heq. inversion Heq; subst.
        apply (Hmin xs1 xs2); [done | done | simpl in Hl1; lia]. }
    destruct least as [|least].
    + destruct (k (Cursor bf (x :: l) g)) eqn:Hk.
      * inversion H; subst. exists [], (x :: l). repeat split; try done.
        intros xs1 xs2 Heq Hne. by destruct xs1, xs2.
      * apply Hstep; [exact H | done].
    + apply Hstep; [exact H | discriminate].
Qed.

Lemma lit_nl_newline y : lit_eqb true nl y = false -> not_newline y = true.
Proof.
  intros H. unfold not_newline. destruct (chr_eqb nl y) eqn:E; [|done].
  apply chr_eqb_eq in E. subst y. vm_compute in H. discriminate.
Qed.

(** Where the reason pattern matches, the text from that position on is the
    label, blanks, the captured group and a rest; the group is not empty and
    has no line break after its first character. *)
Lemma match_reason_shape bf l m :
  match_at true reason_re bf l = Some m ->
  exists L ws x g tl,
    l = L ++ ws ++ (x :: g) ++ tl
    /\ group1 m = Some (x :: g)
    /\ forallb not_newline g = true.
Proof.
  unfold match_at, reason_re. cbn [run]. intros H.
  apply run_sound in H as (L & c1 & HL & H).
  pose proof (steps_rest _ _ _ _ _ HL) as E1. cbn [rest] in E1.
  cbn [run] in H.
  apply rep_sound in H as (ws & l2 & E2 & _ & _ & H).
  cbn [before rest group1] in H.
  apply rep_lazy_sound in H as (xs & l3 & E3 & _ & Hlen & Hk & Hmin).
  cbn [before rest group1] in Hk, Hmin.
  destruct xs as [|x g]; [simpl in Hlen; lia|].
  exists L, ws, x, g, l3. split; [by rewrite E1, E2, E3|].
  split.
  - subst l2. rewrite firstn_consumed in Hk.
    destruct l3 as [|y l3'].
    + destruct (at_end _); inversion Hk; reflexivity.
    + destruct (lit_eqb true nl y); [inversion Hk; reflexivity|].
      destruct (at_end _); inversion Hk; reflexivity.
  - apply forallb_forall. intros y Hy.
    apply in_split in Hy as (g1 & g2 & ->).
    specialize (Hmin (x :: g1) (y :: g2) eq_refl ltac:(discriminate)
                  ltac:(simpl; lia)).
    cbn [app run rest] in Hmin.
    apply lit_nl_newline. by destruct (lit_eqb true nl y).
Qed.

(** The pieces [re.split] returns are parts of the text. *)
Lemma split_scan_part ic r l : forall bf skip piece x,
  (skip = 0%nat \/ piece = []) ->
  In x (split_scan ic r bf l skip piece) -> part_of x (rev piece ++ l).
Proof.
  induction l as [|y l IH]; intros bf skip piece x Hinv Hx.
  - simpl in Hx. destruct Hx as [<-|Hx]; [|destruct Hx].
    rewrite app_nil_r. apply part_of_refl.
  - cbn [split_scan] in Hx. destruct skip as [|n].
    + destruct (match_at ic r bf (y :: l)) as [c|].
      * destruct Hx as [<-|Hx].
        -- apply part_of_app_r, part_of_refl.
        -- apply IH in Hx; [|by right]. simpl in Hx.
           apply part_of_app_l. by apply (part_of_app_l _ _ [y]).
      * apply IH in Hx; [|by left].
        simpl in Hx. by rewrite <- app_assoc in Hx.
    + destruct Hinv as [Hskip|Hpiece]; [discriminate|]. subst piece.
      apply IH in Hx; [|by right]. simpl in *.
      by apply (part_of_app_l _ _ [y]).
Qed.

Lemma parse_reason_part content reason :
  parse_reason content = Ok reason -> part_of reason content.
Proof.
  unfold parse_reason, re_search.
  destruct (search_from true reason_re None content) as [m|] eqn:E.
  - apply search_from_match in E as (pre & l' & -> & Hm).
    apply match_reason_shape in Hm as (L & ws & x & g & tl & -> & Hg & _).
    unfold group. rewrite Hg. cbn [mbind result_bind]. intros [= <-].
    apply (part_of_trans _ (x :: g)); [apply part_of_strip|].
    exists (pre ++ L ++ ws), tl. by rewrite <- !app_assoc.
  - assert (Hinj : forall a b : str, Ok a = Ok b -> a = b) by (by intros a b [= ->]).
    destruct (1 <? length _)%nat eqn:Hlen; intros <-%Hinj; unfold slice_to.
    + apply (part_of_trans _ (nth 1 (re_split false sentence_re content) []));
        [apply part_of_firstn|].
      apply (split_scan_part false sentence_re content None 0 []); [by left|].
      apply nth_In. by apply Nat.ltb_lt in Hlen.
    + apply part_of_firstn.
Qed.

(** X4: the reason returned is always a contiguous part of the reply: the
    text captured after the label with its blanks trimmed, or the beginning of
    a sentence or of the reply.  The interpreter never returns a text of its
    own: "No reason provided" comes back only when the reply holds it. *)
Theorem reason_is_part_of_reply content paper_title score reason :
  _parse_response content paper_title = Ok (score, reason) ->
  part_of reason content.
Proof.
  intros E. unfold _parse_response in E.
  destruct (parse_score content) as [s|]; [|discriminate].
  cbn [mbind result_bind] in E.
  destruct (parse_reason content) as [r|] eqn:Hr; [|discriminate].
  cbn [mbind result_bind] in E. inversion E; subst.
  by apply parse_reason_part.
Qed.

Lemma reason_is_part_of_reply_witness :
  _parse_response seven_points (VStr [])
  = Ok (7%Q, py "This paper discusses 7 relevant points about transformers.")
  /\ part_of (py "This paper discusses 7 relevant points about transformers.")
       seven_points.
Proof.
  assert (H : _parse_response seven_points (VStr [])
              = Ok (7%Q, py "This paper discusses 7 relevant points about transformers."))
    by (vm_compute; reflexivity).
  split; [exact H|].
  exact (reason_is_part_of_reply seven_points (VStr []) 7%Q _ H).
Defined.

(** ** The reason captured after the label *)

Lemma lstrip_head s : head_sat is_space (lstrip s) = false.
Proof.
  induction s as [|c s IH]; [reflexivity|].
  simpl. destruct (is_space c) eqn:Hc; [exact IH | exact Hc].
Qed.

Lemma lstrip_keeps_last a x :
  is_space x = false -> exists u, lstrip (a ++ [x]) = u ++ [x].
Proof.
  intros Hx. induction a as [|c a [u IH]]; simpl.
  - rewrite Hx. by exists [].
  - destruct (is_space c); [by exists u|]. by exists (c :: a).
Qed.

Lemma rstrip_head s : head_sat is_space s = false -> head_sat is_space (rstrip s) = false.
Proof.
  destruct s as [|x s]; [reflexivity|]. simpl. intros Hx.
  unfold rstrip. simpl rev.
  destruct (lstrip_keeps_last (rev s) x Hx) as [u ->].
  rewrite rev_app_distr. exact Hx.
Qed.

Lemma rstrip_last s : head_sat is_space (rev (rstrip s)) = false.
Proof. unfold rstrip. rewrite rev_involutive. apply lstrip_head. Qed.

Lemma strip_trimmed s :
  head_sat is_space (strip s) = false /\ head_sat is_space (rev (strip s)) = false.
Proof.
  unfold strip. split; [apply rstrip_head, lstrip_head | apply rstrip_last].
Qed.

Lemma forallb_part (p : ascii -> bool) s t :
  part_of s t -> forallb p t = true -> forallb p s = true.
Proof.
  intros (a & b & ->). rewrite !forallb_app.
  intros [_ [H _]%andb_prop]%andb_prop. exact H.
Qed.

Lemma strip_one_line x g :
  forallb not_newline g = true -> forallb not_newline (strip (x :: g)) = true.
Proof.
  intros Hg. destruct (is_space x) eqn:Hx.
  - apply (forallb_part _ _ g); [|exact Hg].
    unfold strip. simpl. rewrite Hx. apply part_of_strip.
  - apply (forallb_part _ _ (x :: g)); [apply part_of_strip|].
    simpl. rewrite Hg, andb_true_r.
    unfold not_newline. destruct (chr_eqb nl x) eqn:E; [|done].
    apply chr_eqb_eq in E. subst x. vm_compute in Hx. discriminate.
Qed.

(** X5: when the REASON label matches, the reason returned is one trimmed
    line: it holds no line break, and neither begins nor ends with a blank. *)
Theorem labelled_reason_one_trimmed_line content paper_title m :
  re_search true reason_re content = Some m ->
  exists score reason,
    _parse_response content paper_title = Ok (score, reason)
    /\ forallb not_newline reason = true
    /\ head_sat is_space reason = false
    /\ head_sat is_space (rev reason) = false.
Proof.
  intros Hm.
  destruct (parse_score_total content) as [score Hs].
  unfold _parse_response. rewrite Hs. cbn [mbind result_bind].
  unfold parse_reason. rewrite Hm.
  apply search_from_match in Hm as (pre & l' & _ & Hm).
  apply match_reason_shape in Hm as (L & ws & x & g & tl & _ & Hg & Hline).
  unfold group. rewrite Hg. cbn [mbind result_bind].
  exists score, (strip (x :: g)). split; [reflexivity|].
  split; [by apply strip_one_line | apply strip_trimmed].
Qed.

Lemma labelled_reason_one_trimmed_line_witness :
  (exists m, re_search true reason_re
               (py "Reason:  good fit  " ++ [nl] ++ py "More text.") = Some m)
  /\ _parse_response (py "Reason:  good fit  " ++ [nl] ++ py "More text.") (VStr [])
     = Ok (0%Q, py "good fit")
  /\ exists score reason,
       _parse_response (py "Reason:  good fit  " ++ [nl] ++ py "More text.") (VStr [])
       = Ok (score, reason)
       /\ forallb not_newline reason = true
       /\ head_sat is_space reason = false
       /\ head_sat is_space (rev reason) = false.
Proof.
  destruct (re_search true reason_re
              (py "Reason:  good fit  " ++ [nl] ++ py "More text.")) as [m|] eqn:E.
  2: { vm_compute in E. discriminate. }
  split; [by exists m|].
  split; [vm_compute; reflexivity|].
  exact (labelled_reason_one_trimmed_line _ (VStr []) m E).
Defined.

(** ** The reason taken from the sentences *)

Lemma terminator_not_space c : terminator c = true -> is_space c = false.
Proof. destruct c as [[] [] [] [] [] [] [] []]; vm_compute; congruence. Qed.

Lemma span_spaces l :
  exists ws l', l = ws ++ l' /\ forallb is_space ws = true
    /\ head_sat is_space l' = false.
Proof.
  induction l as [|x l (ws & l' & -> & Hws & Hl')]; [by exists [], []|].
  destruct (is_space x) eqn:Hx.
  - exists (x :: ws), l'. simpl. by rewrite Hx.
  - by exists [], (x :: ws ++ l').
Qed.

Lemma match_at_sentence_none bf l :
  breaks_at l = false -> match_at false sentence_re bf l = None.
Proof.
  unfold match_at, sentence_re. cbn [run rest].
  destruct l as [|t [|y l]]; cbn [breaks_at]; [done | |].
  - intros _. fold (terminator t). by destruct (terminator t).
  - fold (terminator t). destruct (terminator t); [|done].
    cbn [andb before rest group1 rep]. intros ->. reflexivity.
Qed.

Lemma match_at_sentence_some bf t ws l :
  terminator t = true -> ws <> [] -> forallb is_space ws = true ->
  head_sat is_space l = false ->
  match_at false sentence_re bf (t :: ws ++ l)
  = Some (Cursor (advance (Some t) ws) l None).
Proof.
  intros Ht Hne Hws Hl. unfold match_at, sentence_re. cbn [run rest].
  fold (terminator t). rewrite Ht. cbn [before rest group1].
  apply rep_greedy_all; try done.
  destruct ws; simpl; [done | lia].
Qed.

Lemma match_at_sentence_break bf l :
  breaks_at l = true -> exists c, match_at false sentence_re bf l = Some c.
Proof.
  destruct l as [|t [|y l]]; try discriminate. cbn [breaks_at].
  intros [Ht Hy]%andb_prop.
  destruct (span_spaces l) as (ws & l' & -> & Hws & Hl').
  exists (Cursor (advance (Some t) (y :: ws)) l' None).
  apply (match_at_sentence_some bf t (y :: ws) l'); try done.
  simpl. by rewrite Hy.
Qed.

Lemma split_scan_skip ic r ws : forall bf l piece,
  split_scan ic r bf (ws ++ l) (length ws) piece
  = split_scan ic r (advance bf ws) l 0 piece.
Proof.
  induction ws as [|x ws IH]; intros bf l piece; [reflexivity|].
  cbn [app length split_scan]. apply IH.
Qed.

Lemma no_break_app_head s l :
  no_break s = true -> head_sat is_space l = false ->
  forall s1 s2, s = s1 ++ s2 -> s2 <> [] -> breaks_at (s2 ++ l) = false.
Proof.
  intros Hs Hl s1. revert s Hs.
  induction s1 as [|x s1 IH]; intros s Hs s2 -> Hne.
  - destruct s2 as [|a [|b s2]]; [done | |].
    + simpl. destruct l as [|y l]; [done|]. simpl in Hl. rewrite Hl.
      apply andb_false_r.
    + simpl in Hs |- *. apply andb_prop in Hs as [Hs _]. by apply negb_true_iff in Hs.
  - cbn [app no_break] in Hs. apply andb_prop in Hs as [_ Hs].
    by apply (IH (s1 ++ s2)).
Qed.

Lemma split_scan_plain s : forall bf l piece,
  (forall s1 s2, s = s1 ++ s2 -> s2 <> [] -> breaks_at (s2 ++ l) = false) ->
  split_scan false sentence_re bf (s ++ l) 0 piece
  = split_scan false sentence_re (advance bf s) l 0 (rev s ++ piece).
Proof.
  induction s as [|x s IH]; intros bf l piece Hs; [reflexivity|].
  cbn [app split_scan].
  rewrite match_at_sentence_none by (by apply (Hs [] (x :: s))).
  rewrite IH.
  - cbn [rev]. by rewrite <- app_assoc.
  - intros s1 s2 -> Hne. by apply (Hs (x :: s1) s2).
Qed.

Lemma split_scan_break bf t ws l piece :
  terminator t = true -> ws <> [] -> forallb is_space ws = true ->
  head_sat is_space l = false ->
  split_scan false sentence_re bf (t :: ws ++ l) 0 piece
  = rev piece :: split_scan false sentence_re (advance (Some t) ws) l 0 [].
Proof.
  intros Ht Hne Hws Hl. cbn [split_scan].
  rewrite match_at_sentence_some by done. cbn [rest].
  rewrite length_app. replace (length ws + length l - length l)%nat with (length ws) by lia.
  by rewrite split_scan_skip.
Qed.

(** The pieces of a text that begins with two sentences. *)
Lemma re_split_two_sentences s1 t ws s2 tail :
  no_break s1 = true -> terminator t = true ->
  ws <> [] -> forallb is_space ws = true ->
  head_sat is_space s2 = false -> no_break s2 = true ->
  tail = [] \/ breaks_at tail = true ->
  exists pieces,
    re_split false sentence_re (s1 ++ t :: ws ++ s2 ++ tail) = s1 :: s2 :: pieces.
Proof.
  intros Hs1 Ht Hne Hws Hhead Hs2 Htail. unfold re_split.
  assert (Htl : head_sat is_space tail = false).
  { destruct Htail as [->|Hb]; [done|].
    destruct tail as [|t' [|y tl]]; try discriminate. simpl in Hb |- *.
    apply andb_prop in Hb as [Hb _]. by apply terminator_not_space. }
  assert (Hnext : head_sat is_space (s2 ++ tail) = false).
  { destruct s2; [exact Htl | exact Hhead]. }
  rewrite split_scan_plain.
  2: { apply no_break_app_head; [done|]. simpl. by apply terminator_not_space. }
  rewrite app_nil_r, split_scan_break, rev_involutive by done.
  rewrite split_scan_plain by (by apply no_break_app_head).
  rewrite app_nil_r.
  destruct Htail as [->|Hb].
  - exists []. cbn [split_scan]. by rewrite rev_involutive.
  - destruct (match_at_sentence_break
                (advance (advance (Some t) ws) s2) tail Hb) as [c Hc].
    destruct tail as [|x tail]; [discriminate|].
    cbn [split_scan]. rewrite Hc, rev_involutive. eauto.
Qed.

(** X6: when no REASON label matches and the text begins with two
    sentences, the reason is the second one, cut at 100 characters; the first
    sentence is not used.  A sentence ends at a terminator (one of the
    characters . ! ?) followed by a blank. *)
Theorem second_sentence_reason s1 t ws s2 tail paper_title :
  no_break s1 = true -> terminator t = true ->
  ws <> [] -> forallb is_space ws = true ->
  head_sat is_space s2 = false -> no_break s2 = true ->
  tail = [] \/ breaks_at tail = true ->
  re_search true reason_re (s1 ++ t :: ws ++ s2 ++ tail) = None ->
  exists score,
    _parse_response (s1 ++ t :: ws ++ s2 ++ tail) paper_title
    = Ok (score, slice_to 100 s2).
Proof.
  intros Hs1 Ht Hne Hws Hhead Hs2 Htail Hnone.
  destruct (parse_score_total (s1 ++ t :: ws ++ s2 ++ tail)) as [score Hscore].
  exists score. unfold _parse_response. rewrite Hscore. cbn [mbind result_bind].
  rewrite (parse_reason_fallback _ Hnone).
  destruct (re_split_two_sentences s1 t ws s2 tail) as [pieces ->]; try done.
Qed.

Lemma second_sentence_reason_witness :
  re_search true reason_re
    (py "Looks relevant" ++ "."%char :: py " " ++ py "It extends the method" ++ py ". Done.")
  = None
  /\ _parse_response (py "Looks relevant. It extends the method. Done.") (VStr [])
     = Ok (0%Q, py "It extends the method").
Proof.
  assert (H : re_search true reason_re
                (py "Looks relevant" ++ "."%char :: py " " ++ py "It extends the method"
                 ++ py ". Done.") = None) by (vm_compute; reflexivity).
  split; [exact H|].
  destruct (second_sentence_reason (py "Looks relevant") "."%char (py " ")
              (py "It extends the method") (py ". Done.") (VStr [])
              eq_refl eq_refl ltac:(discriminate) eq_refl eq_refl eq_refl
              (or_intror eq_refl) H) as [score E].
  assert (E' : parse_score (py "Looks relevant. It extends the method. Done.") = Ok 0%Q)
    by (vm_compute; reflexivity).
  change (py "Looks relevant" ++ "."%char :: py " " ++ py "It extends the method"
          ++ py ". Done.")
    with (py "Looks relevant. It extends the method. Done.") in E.
  unfold _parse_response in E |- *. rewrite E' in E |- *.
  cbn [mbind result_bind] in E |- *.
  destruct (parse_reason _) as [r|]; [|discriminate].
  cbn [mbind result_bind] in E |- *. inversion E; subst. reflexivity.
Defined.

(** * Further properties of a task *)

(** ** The throttling test *)

Lemma starts_with_spec p : forall s,
  starts_with p s = true <-> exists t, s = p ++ t.
Proof.
  induction p as [|a p IH]; intros s; simpl.
  - split; [by exists s | done].
  - destruct s as [|b s].
    + split; [discriminate | by intros [t Ht]].
    + rewrite andb_true_iff, IH. split.
      * intros [->%chr_eqb_eq [t ->]]. by exists t.
      * intros [t [= -> ->]]. split; [apply chr_eqb_refl | by exists t].
Qed.

Lemma contains_spec needle : forall hay,
  contains needle hay = true <-> part_of needle hay.
Proof.
  induction hay as [|c hay IH]; cbn [contains]; rewrite orb_true_iff, starts_with_spec.
  - split.
    + intros [[t ->]|Hf]; [by exists [], t | discriminate].
    + intros ([|x a] & b & E); [left; by exists b | discriminate].
  - rewrite IH. split.
    + intros [[t ->]|(a & b & ->)]; [by exists [], t | by exists (c :: a), b].
    + intros ([|x a] & b & E); [left; by exists b|].
      right. inversion E; subst. by exists a, b.
Qed.

Lemma any_case_lower w : forall v,
  any_case w v = true -> map lower v = map lower w.
Proof.
  induction w as [|a w IH]; intros [|x v]; simpl; try done.
  intros [Hx Hv]%andb_prop. rewrite (IH _ Hv). f_equal.
  apply orb_prop in Hx as [->%chr_eqb_eq | ->%chr_eqb_eq];
    [reflexivity | apply swap_case_lower].
Qed.

Lemma lower_any_case x :
  in_range 0 127 (lower x) = true ->
  chr_eqb x (lower x) || chr_eqb x (swap_case (lower x)) = true.
Proof. destruct x as [[] [] [] [] [] [] [] []]; vm_compute; congruence. Qed.

Lemma map_lower_any_case w : forall v,
  forallb (in_range 0 127) w = true -> map lower v = w -> any_case w v = true.
Proof.
  induction w as [|a w IH]; intros [|x v]; simpl; try done.
  intros [Ha Hw]%andb_prop [= <- E].
  by rewrite lower_any_case, (IH _ Hw E).
Qed.

Lemma part_of_map (f : ascii -> ascii) s t :
  part_of s t -> part_of (map f s) (map f t).
Proof.
  intros (a & b & ->). exists (map f a), (map f b). by rewrite !map_app.
Qed.

Lemma part_of_map_inv (f : ascii -> ascii) s t :
  part_of s (map f t) -> exists v, part_of v t /\ map f v = s.
Proof.
  intros (a & b & E).
  apply map_eq_app in E as (a' & r & -> & _ & E).
  apply map_eq_app in E as (v & b' & -> & Hv & _).
  exists v. split; [by exists a', b' | exact Hv].
Qed.

(** The test of line 180 accepts exactly the messages that name
    throttling. *)
Lemma is_rate_limit_names_throttling msg :
  is_rate_limit msg = true <-> names_throttling msg.
Proof.
  unfold is_rate_limit, names_throttling.
  rewrite orb_true_iff, !contains_spec. split.
  - intros [H|H]; [right | by left].
    apply part_of_map_inv in H as (v & Hv & E).
    exists v. split; [|exact Hv]. by apply map_lower_any_case.
  - intros [H|(v & Hv & H)]; [by right | left].
    apply (part_of_map lower) in H. by rewrite (any_case_lower _ _ Hv) in H.
Qed.

Lemma throttled_names_throttling self env prompt k :
  (exists msg, ask self env prompt k = Failure msg /\ names_throttling msg) ->
  throttled (ask self env prompt k) = true.
Proof.
  intros (msg & -> & H). by apply is_rate_limit_names_throttling.
Qed.

(** X7: the retry loop tells a throttling signal by the text of the failure
    alone.  A failure whose message holds 429 somewhere, or rate_limit in
    any case, is retried, whatever the failure was: when the five calls fail
    so, the task calls five times, sleeps four times and returns (0.0, "Rate
    limit exceeded").  A failure whose message holds neither ends the task at
    that call with (0.0, "Evaluation error"). *)
Theorem retry_decided_by_failure_text
    float_repr self env paper research_context user_interests prompt t :
  _build_prompt float_repr paper research_context user_interests = Ok prompt ->
  paper !! "title" = Some (VStr t) ->
  ((forall k, (k < 5)%nat ->
      exists msg, ask self env prompt k = Failure msg /\ names_throttling msg) ->
   _evaluate_single_paper float_repr self env paper research_context user_interests
   = (trace_until env 0 4, sample_count self,
      Ok (Evaluation 0 (py "Rate limit exceeded"))))
  /\ (forall k msg,
        (k < 5)%nat ->
        (forall j, (j < k)%nat ->
           exists m, ask self env prompt j = Failure m /\ names_throttling m) ->
        ask self env prompt k = Failure msg ->
        ~ names_throttling msg ->
        _evaluate_single_paper float_repr self env paper research_context
          user_interests
        = (trace_until env 0 k, sample_count self,
           Ok (Evaluation 0 (py "Evaluation error")))).
Proof.
  intros Hp Ht. split.
  - intros Hall.
    assert (Hth : forall k, (k < 5)%nat -> throttled (ask self env prompt k) = true).
    { intros k Hk. by apply throttled_names_throttling, Hall. }
    run_attempts Hth. reflexivity.
  - intros k msg Hk Hbefore Hfail Hnot.
    unfold trace_until. rewrite Nat.sub_0_r.
    apply (other_failure_not_retried float_repr self env paper research_context
             user_interests prompt t k msg); try done.
    + intros j Hj. by apply throttled_names_throttling, Hbefore.
    + destruct (is_rate_limit msg) eqn:E; [|done].
      by apply is_rate_limit_names_throttling in E.
Qed.

Lemma retry_decided_by_failure_text_witness :
  _build_prompt no_repr sample_paper [] [] = Ok sample_prompt
  /\ sample_paper !! "title" = Some (VStr (py "A title"))
  /\ names_throttling (py "Request id 14290 failed")
  /\ snd (_evaluate_single_paper no_repr sample_evaluator refusing_request_14290
            sample_paper [] [])
     = Ok (Evaluation 0 (py "Rate limit exceeded"))
  /\ ~ names_throttling (py "Connection error.")
  /\ _evaluate_single_paper no_repr sample_evaluator always_failing sample_paper [] []
     = ([Create 0], 0%nat, Ok (Evaluation 0 (py "Evaluation error"))).
Proof.
  assert (Ht : sample_paper !! "title" = Some (VStr (py "A title")))
    by (vm_compute; reflexivity).
  assert (Hn : names_throttling (py "Request id 14290 failed")).
  { left. by exists (py "Request id 1"), (py "0 failed"). }
  assert (Hc : ~ names_throttling (py "Connection error.")).
  { intros H. apply is_rate_limit_names_throttling in H. discriminate. }
  split; [exact sample_prompt_built|].
  split; [exact Ht|]. split; [exact Hn|].
  destruct (retry_decided_by_failure_text no_repr sample_evaluator
              refusing_request_14290 sample_paper [] [] sample_prompt (py "A title")
              sample_prompt_built Ht) as [Hretried _].
  destruct (retry_decided_by_failure_text no_repr sample_evaluator
              always_failing sample_paper [] [] sample_prompt (py "A title")
              sample_prompt_built Ht) as [_ Hended].
  split.
  { rewrite Hretried; [reflexivity|]. intros k _.
    exists (py "Request id 14290 failed"). split; [reflexivity | exact Hn]. }
  split; [exact Hc|].
  apply (Hended 0%nat (py "Connection error.")); [lia | | reflexivity | exact Hc].
  intros j Hj. lia.
Defined.

(** ** Every outcome of a task *)

Lemma creates_run env n : forall from,
  creates (flat_map (fun j => [Create j; Sleep (backoff env j)]) (seq from n)
           ++ [Create (from + n)])
  = seq from (S n).
Proof.
  induction n as [|n IH]; intros from.
  - simpl. by rewrite Nat.add_0_r.
  - cbn [seq flat_map]. rewrite <- app_assoc.
    change (creates ([Create from; Sleep (backoff env from)] ++ ?l))
      with (from :: creates l).
    rewrite <- Nat.add_succ_comm, IH. reflexivity.
Qed.

Lemma sleeps_run env n : forall from,
  sleeps (flat_map (fun j => [Create j; Sleep (backoff env j)]) (seq from n)
          ++ [Create (from + n)])
  = map (backoff env) (seq from n).
Proof.
  induction n as [|n IH]; intros from.
  - reflexivity.
  - cbn [seq flat_map map]. rewrite <- app_assoc.
    change (sleeps ([Create from; Sleep (backoff env from)] ++ ?l))
      with (backoff env from :: sleeps l).
    rewrite <- Nat.add_succ_comm, IH. reflexivity.
Qed.

Lemma creates_trace_until env from k :
  (from <= k)%nat -> creates (trace_until env from k) = seq from (S (k - from)).
Proof.
  intros Hle. unfold trace_until.
  replace k with (from + (k - from))%nat at 2 by lia. apply creates_run.
Qed.

Lemma sleeps_trace_until env from k :
  (from <= k)%nat ->
  sleeps (trace_until env from k) = map (backoff env) (seq from (k - from)).
Proof.
  intros Hle. unfold trace_until.
  replace k with (from + (k - from))%nat at 2 by lia. apply sleeps_run.
Qed.

Lemma type_error_not_rate_limit :
  is_rate_limit
    (exn_str (TypeError (py "expected string or bytes-like object, got 'NoneType'")))
  = false.
Proof. vm_compute. reflexivity. Qed.

(** The loop from attempt [from] on: it stops at the first attempt [k] that
    is not throttled, or at the fifth one, and what it returns is read off the
    reply of that attempt. *)
Lemma retry_loop_outcome self env paper prompt t n : forall from count,
  paper !! "title" = Some (VStr t) ->
  (1 <= n)%nat -> (from + n = 5)%nat ->
  exists k e count',
    (from <= k)%nat /\ (k <= 4)%nat
    /\ retry_loop self env paper prompt (seq from n) count
       = (trace_until env from k, count', Ok e)
    /\ (forall j, (from <= j)%nat -> (j < k)%nat ->
          throttled (ask self env prompt j) = true)
    /\ match ask self env prompt k with
       | Content (Some content) =>
           _parse_response content (VStr t) = Ok (score e, reason e)
           /\ count' = count_after self count
       | Content None =>
           e = Evaluation 0 (py "Evaluation error") /\ count' = count
       | Failure error_str =>
           count' = count
           /\ if is_rate_limit error_str
              then k = 4%nat /\ e = Evaluation 0 (py "Rate limit exceeded")
              else e = Evaluation 0 (py "Evaluation error")
       end.
Proof.
  intros from count Ht. revert from count.
  induction n as [|n IH]; intros from count Hn Hsum; [lia|].
  assert (Hstop : trace_until env from from = [Create from]).
  { unfold trace_until. by rewrite Nat.sub_diag. }
  destruct (ask self env prompt from) as [[content|]|error_str] eqn:Hask.
  - destruct (parse_response_total content (VStr t)) as (s & r & Hparse).
    exists from, (Evaluation s r), (count_after self count).
    cbn [seq]. rewrite (retry_loop_content _ _ _ _ _ _ _ content t s r) by done.
    rewrite Hstop, Hask. repeat split; try lia; done.
  - exists from, (Evaluation 0 (py "Evaluation error")), count.
    rewrite Hstop, Hask. repeat split; try lia.
    cbn [seq retry_loop]. unfold attempt_body. unfold ask in Hask. rewrite Hask.
    unfold getitem. rewrite Ht. cbn [mbind result_bind as_text].
    rewrite type_error_not_rate_limit. cbn [mbind result_bind slice50]. reflexivity.
  - destruct (is_rate_limit error_str) eqn:Hrl.
    + assert (Hth : throttled (ask self env prompt from) = true)
        by (rewrite Hask; exact Hrl).
      cbn [seq]. rewrite retry_loop_throttled by done.
      destruct (from <? max_retries - 1)%nat eqn:Hlt.
      * apply Nat.ltb_lt in Hlt. unfold max_retries in Hlt.
        destruct (IH (S from) count) as (k & e & count' & Hk & Hk4 & E & Hbefore & Hat);
          [lia | lia |].
        exists k, e, count'. rewrite E.
        split; [lia|]. split; [lia|]. split.
        { unfold trace_until. replace (k - from)%nat with (S (k - S from)) by lia.
          reflexivity. }
        split; [|exact Hat].
        intros j Hj Hjk. destruct (decide (j = from)) as [->|Hne]; [exact Hth|].
        apply Hbefore; lia.
      * apply Nat.ltb_ge in Hlt. unfold max_retries in Hlt.
        exists from, (Evaluation 0 (py "Rate limit exceeded")), count.
        rewrite Hstop, Hask, Hrl. repeat split; try lia.
    + exists from, (Evaluation 0 (py "Evaluation error")), count.
      cbn [seq]. rewrite (retry_loop_failed _ _ _ _ _ _ _ error_str t) by done.
      rewrite Hstop, Hask, Hrl. repeat split; try lia.
Qed.

(** X8: on a paper with a text title and an abstract the task never raises,
    whatever the endpoint does.  It stops at the first attempt [k] that is not
    throttled, or at the fifth attempt: it has then called the endpoint for
    the attempts 0 to [k] in turn and slept [k] times, once after each call
    but the last.  The result is the parsed reply when attempt [k] is
    answered with a text, (0.0, "Rate limit exceeded") when the fifth attempt
    is throttled too, and (0.0, "Evaluation error") for any other failure and
    for an answer without content; line 205 is never reached.  The sample
    counter moves only when a reply has been parsed. *)
Theorem task_outcome float_repr self env paper research_context user_interests t :
  paper !! "title" = Some (VStr t) ->
  is_Some (paper !! "abstract") ->
  exists prompt k e count',
    _build_prompt float_repr paper research_context user_interests = Ok prompt
    /\ (k <= 4)%nat
    /\ _evaluate_single_paper float_repr self env paper research_context user_interests
       = (trace_until env 0 k, count', Ok e)
    /\ creates (trace_until env 0 k) = seq 0 (S k)
    /\ sleeps (trace_until env 0 k) = map (backoff env) (seq 0 k)
    /\ (forall j, (j < k)%nat -> throttled (ask self env prompt j) = true)
    /\ match ask self env prompt k with
       | Content (Some content) =>
           _parse_response content (VStr t) = Ok (score e, reason e)
           /\ count' = count_after self (sample_count self)
       | Content None =>
           e = Evaluation 0 (py "Evaluation error") /\ count' = sample_count self
       | Failure error_str =>
           count' = sample_count self
           /\ if is_rate_limit error_str
              then k = 4%nat /\ e = Evaluation 0 (py "Rate limit exceeded")
              else e = Evaluation 0 (py "Evaluation error")
       end.
Proof.
  intros Ht [a Ha].
  destruct (_build_prompt float_repr paper research_context user_interests)
    as [prompt|e0] eqn:Hp.
  2: { unfold _build_prompt, getitem in Hp. rewrite Ht, Ha in Hp. discriminate. }
  destruct (retry_loop_outcome self env paper prompt t 5 0 (sample_count self) Ht)
    as (k & e & count' & _ & Hk4 & E & Hbefore & Hat); [lia | lia |].
  exists prompt, k, e, count'.
  split; [reflexivity|]. split; [exact Hk4|].
  split; [unfold _evaluate_single_paper; rewrite Hp; exact E|].
  split; [rewrite creates_trace_until by lia; by rewrite Nat.sub_0_r|].
  split; [rewrite sleeps_trace_until by lia; by rewrite Nat.sub_0_r|].
  split; [intros j Hj; apply Hbefore; lia | exact Hat].
Qed.

Lemma task_outcome_witness :
  sample_paper !! "title" = Some (VStr (py "A title"))
  /\ is_Some (sample_paper !! "abstract")
  /\ exists k e count',
       _evaluate_single_paper no_repr sample_evaluator throttled_four_times
         sample_paper [] []
       = (trace_until throttled_four_times 0 k, count', Ok e)
       /\ creates (trace_until throttled_four_times 0 k) = seq 0 (S k).
Proof.
  assert (Ht : sample_paper !! "title" = Some (VStr (py "A title")))
    by (vm_compute; reflexivity).
  assert (Ha : is_Some (sample_paper !! "abstract"))
    by (exists (VStr (py "An abstract")); vm_compute; reflexivity).
  split; [exact Ht|]. split; [exact Ha|].
  destruct (task_outcome no_repr sample_evaluator throttled_four_times sample_paper
              [] [] (py "A title") Ht Ha)
    as (prompt & k & e & count' & _ & _ & E & Hc & _).
  exists k, e, count'. split; [exact E | exact Hc].
Defined.

(** X9: answered with a text at attempt [k] after [k] throttled attempts, for
    any [k] from 0 to 4, the task returns the parsed reply after [k + 1]
    calls and [k] sleeps; answered at once ([k = 0]) it makes one call and
    does not sleep. *)
Theorem answered_at_attempt
    float_repr self env paper research_context user_interests prompt content t k :
  _build_prompt float_repr paper research_context user_interests = Ok prompt ->
  paper !! "title" = Some (VStr t) ->
  (k < 5)%nat ->
  (forall j, (j < k)%nat -> throttled (ask self env prompt j) = true) ->
  ask self env prompt k = Content (Some content) ->
  exists score reason,
    _parse_response content (VStr t) = Ok (score, reason)
    /\ _evaluate_single_paper float_repr self env paper research_context user_interests
       = (flat_map (fun j => [Create j; Sleep (backoff env j)]) (seq 0 k) ++ [Create k],
          count_after self (sample_count self),
          Ok (Evaluation score reason)).
Proof.
  intros Hp Ht Hk Hth Hok.
  destruct (parse_response_total content (VStr t)) as (score & reason & Hparse).
  exists score, reason. split; [exact Hparse|].
  do 5 (destruct k as [|k];
        [run_attempts Hth;
         by rewrite (retry_loop_content self env paper prompt _ _ _ content t score reason)|]).
  lia.
Qed.

Lemma answered_at_attempt_witness :
  _build_prompt no_repr sample_paper [] [] = Ok sample_prompt
  /\ sample_paper !! "title" = Some (VStr (py "A title"))
  /\ _evaluate_single_paper no_repr sample_evaluator (answering labelled_reply)
       sample_paper [] []
     = ([Create 0], 0%nat, Ok (Evaluation (17 # 2) (py "Directly extends prior work."))).
Proof.
  assert (Ht : sample_paper !! "title" = Some (VStr (py "A title")))
    by (vm_compute; reflexivity).
  split; [exact sample_prompt_built|].
  split; [exact Ht|].
  destruct (answered_at_attempt no_repr sample_evaluator (answering labelled_reply)
              sample_paper [] [] sample_prompt labelled_reply (py "A title") 0
              sample_prompt_built Ht ltac:(lia) ltac:(intros j Hj; lia) eq_refl)
    as (score & reason & Hparse & Hrun).
  rewrite Hrun.
  assert (E : _parse_response labelled_reply (VStr (py "A title"))
              = Ok ((17 # 2)%Q, py "Directly extends prior work."))
    by (vm_compute; reflexivity).
  rewrite E in Hparse. inversion Hparse; subst. reflexivity.
Defined.

(** X10: an answer without content ([message.content] is [None]) makes the
    interpreter raise inside the [try] block; the message is no throttling
    signal, so the task ends at that attempt with (0.0, "Evaluation error")
    and does not ask again. *)
Theorem answer_without_content
    float_repr self env paper research_context user_interests prompt t k :
  _build_prompt float_repr paper research_context user_interests = Ok prompt ->
  paper !! "title" = Some (VStr t) ->
  (k < 5)%nat ->
  (forall j, (j < k)%nat -> throttled (ask self env prompt j) = true) ->
  ask self env prompt k = Content None ->
  _evaluate_single_paper float_repr self env paper research_context user_interests
  = (flat_map (fun j => [Create j; Sleep (backoff env j)]) (seq 0 k) ++ [Create k],
     sample_count self,
     Ok (Evaluation 0 (py "Evaluation error"))).
Proof.
  intros Hp Ht Hk Hth Hnone.
  assert (Hstep : forall range count,
            retry_loop self env paper prompt (k :: range) count
            = ([Create k], count, Ok (Evaluation 0 (py "Evaluation error")))).
  { intros range count. cbn [retry_loop]. unfold attempt_body.
    unfold ask in Hnone. rewrite Hnone.
    unfold getitem. rewrite Ht. cbn [mbind result_bind as_text].
    rewrite type_error_not_rate_limit. reflexivity. }
  do 5 (destruct k as [|k]; [run_attempts Hth; by rewrite Hstep|]).
  lia.
Qed.

Lemma answer_without_content_witness :
  _build_prompt no_repr sample_paper [] [] = Ok sample_prompt
  /\ sample_paper !! "title" = Some (VStr (py "A title"))
  /\ _evaluate_single_paper no_repr sample_evaluator
       {| create := fun _ _ _ _ => Content None; uniform := fun _ => 0%Q |}
       sample_paper [] []
     = ([Create 0], 0%nat, Ok (Evaluation 0 (py "Evaluation error"))).
Proof.
  assert (Ht : sample_paper !! "title" = Some (VStr (py "A title")))
    by (vm_compute; reflexivity).
  split; [exact sample_prompt_built|].
  split; [exact Ht|].
  exact (answer_without_content no_repr sample_evaluator
           {| create := fun _ _ _ _ => Content None; uniform := fun _ => 0%Q |}
           sample_paper [] [] sample_prompt (py "A title") 0
           sample_prompt_built Ht ltac:(lia) ltac:(intros j Hj; lia) eq_refl).
Defined.

(** ** The time a task sleeps *)

(** X12: with a jitter between 0 and 1, a task never sleeps more than 19
    seconds in all, whatever the paper and whatever the endpoint answers: it
    sleeps at most four times, after the attempts 0 to 3, for 1, 2, 4 and 8
    seconds plus the jitter. *)
Theorem total_sleep_at_most_19
    float_repr self env paper research_context user_interests :
  (forall k, 0 <= uniform env k /\ uniform env k <= 1)%Q ->
  (0 <= total_delay (sleeps (fst (fst (_evaluate_single_paper float_repr self env paper
                                   research_context user_interests))))
   /\ total_delay (sleeps (fst (fst (_evaluate_single_paper float_repr self env paper
                                 research_context user_interests)))) <= 19)%Q.
Proof.
  intros Hu. unfold _evaluate_single_paper.
  destruct (_build_prompt float_repr paper research_context user_interests)
    as [prompt|e]; [|simpl; lra].
  destruct (retry_loop_trace self env paper prompt 5 0 (sample_count self))
    as (k & _ & Hk & E); [lia | lia |].
  change (seq 0 max_retries) with (seq 0 5). rewrite E.
  rewrite sleeps_trace_until by lia. rewrite Nat.sub_0_r.
  pose proof (Hu 0%nat) as [? ?]. pose proof (Hu 1%nat) as [? ?].
  pose proof (Hu 2%nat) as [? ?]. pose proof (Hu 3%nat) as [? ?].
  destruct (backoff_bounds env 0) as [L0 U0]; [lia | done | done |].
  destruct (backoff_bounds env 1) as [L1 U1]; [lia | done | done |].
  destruct (backoff_bounds env 2) as [L2 U2]; [lia | done | done |].
  destruct (backoff_bounds env 3) as [L3 U3]; [lia | done | done |].
  change (inject_Z (2 ^ Z.of_nat 0)) with 1%Q in L0, U0.
  change (inject_Z (2 ^ Z.of_nat 1)) with 2%Q in L1, U1.
  change (inject_Z (2 ^ Z.of_nat 2)) with 4%Q in L2, U2.
  change (inject_Z (2 ^ Z.of_nat 3)) with 8%Q in L3, U3.
  do 5 (destruct k as [|k]; [cbn [seq map total_delay fold_right]; lra|]).
  lia.
Qed.

Lemma total_sleep_at_most_19_witness :
  (forall k, 0 <= uniform throttled_four_times k
             /\ uniform throttled_four_times k <= 1)%Q
  /\ (total_delay (sleeps (fst (fst (_evaluate_single_paper no_repr sample_evaluator
                                  throttled_four_times sample_paper [] []))))
      == 17)%Q
  /\ (total_delay (sleeps (fst (fst (_evaluate_single_paper no_repr sample_evaluator
                                 throttled_four_times sample_paper [] [])))) <= 19)%Q.
Proof.
  assert (Hu : (forall k, 0 <= uniform throttled_four_times k
                          /\ uniform throttled_four_times k <= 1)%Q)
    by (intros k; split; vm_compute; congruence).
  split; [exact Hu|]. split; [vm_compute; reflexivity|].
  exact (proj2 (total_sleep_at_most_19 no_repr sample_evaluator throttled_four_times
                  sample_paper [] [] Hu)).
Defined.

(** * Further properties of the batch *)

(** ** The sample output does not change the results *)

Lemma attempt_body_verbose self env paper prompt attempt t b count count' :
  paper !! "title" = Some (VStr t) ->
  snd (attempt_body
         {| model := model self; threshold := threshold self;
            max_workers := max_workers self; verbose := b;
            sample_count := sample_count self |}
         env paper prompt attempt count')
  = snd (attempt_body self env paper prompt attempt count).
Proof.
  intros Ht. unfold attempt_body. cbn [model verbose].
  destruct (create env _ _ _ _) as [content|error_str]; [|reflexivity].
  unfold getitem. rewrite Ht. cbn [mbind result_bind slice50].
  destruct (c ← as_text content; _parse_response c (VStr t)) as [[s r]|e];
    [|reflexivity].
  destruct (b && _), (verbose self && _); reflexivity.
Qed.

Lemma retry_loop_verbose self env paper prompt t b range : forall count count',
  paper !! "title" = Some (VStr t) ->
  let self' := {| model := model self; threshold := threshold self;
                  max_workers := max_workers self; verbose := b;
                  sample_count := sample_count self |} in
  fst (fst (retry_loop self' env paper prompt range count'))
  = fst (fst (retry_loop self env paper prompt range count))
  /\ snd (retry_loop self' env paper prompt range count')
     = snd (retry_loop self env paper prompt range count).
Proof.
  intros count count' Ht self'. revert count count'.
  induction range as [|attempt range IH]; intros count count'; [done|].
  cbn [retry_loop].
  pose proof (attempt_body_verbose self env paper prompt attempt t b count count' Ht)
    as E.
  fold self' in E.
  destruct (attempt_body self' env paper prompt attempt count') as [c1 r1].
  destruct (attempt_body self env paper prompt attempt count) as [c2 r2].
  simpl in E. subst r2.
  destruct r1 as [r|e]; [done|].
  destruct (is_rate_limit (exn_str e)).
  - destruct (attempt <? max_retries - 1)%nat; [|done].
    destruct (IH c2 c1) as [E1 E2].
    destruct (retry_loop self' env paper prompt range c1) as [[ev1 n1] x1].
    destruct (retry_loop self env paper prompt range c2) as [[ev2 n2] x2].
    simpl in *. by subst.
  - by destruct (_ ≫= _).
Qed.

Lemma future_result_verbose float_repr self w h research_context user_interests
    b f i p :
  titled h p ->
  future_result float_repr
    {| model := model self; threshold := threshold self;
       max_workers := max_workers self; verbose := b;
       sample_count := sample_count self |}
    {| task_env := task_env w; task_count := f; completed := completed w |}
    h research_context user_interests i p
  = future_result float_repr self w h research_context user_interests i p.
Proof.
  intros [t Ht]. unfold future_result, _evaluate_single_paper.
  cbn [model threshold max_workers verbose sample_count task_env task_count].
  destruct (_build_prompt float_repr (deref h p) research_context user_interests)
    as [prompt|e]; [|reflexivity].
  exact (proj2 (retry_loop_verbose
                  {| model := model self; threshold := threshold self;
                     max_workers := max_workers self; verbose := verbose self;
                     sample_count := task_count w i |}
                  (task_env w i) (deref h p) prompt t b (seq 0 max_retries)
                  (task_count w i) (f i) Ht)).
Qed.

Lemma collect_ext float_repr self self' w w' h0 research_context user_interests
    (future_to_paper : gmap nat loc) : forall futures h relevant_papers,
  threshold self' = threshold self ->
  (forall i p, future_to_paper !! i = Some p ->
     future_result float_repr self' w' h0 research_context user_interests i p
     = future_result float_repr self w h0 research_context user_interests i p) ->
  collect float_repr self' w' h0 research_context user_interests future_to_paper
    futures h relevant_papers
  = collect float_repr self w h0 research_context user_interests future_to_paper
      futures h relevant_papers.
Proof.
  intros futures h rel Hthr Hfr. revert h rel.
  induction futures as [|i futures IH]; intros h rel; [done|].
  cbn [collect].
  destruct (future_to_paper !! i) as [p|] eqn:Hp; [|done].
  rewrite (Hfr i p Hp), Hthr.
  destruct (future_result float_repr self w h0 _ _ i p) as [e|exc].
  - destruct (Qleb _ _); apply IH.
  - destruct (_ ≫= _); [apply IH | done].
Qed.

(** X13: for a batch whose papers have a text title, neither the flag
    [verbose] nor the value of the sample counter changes what
    [evaluate_papers] returns or the fields it attaches: the sample output of
    lines 162-172 only prints. *)
Theorem verbose_changes_nothing
    float_repr self w h papers research_context user_interests b f :
  (forall p, p ∈ papers -> titled h p) ->
  evaluate_papers float_repr
    {| model := model self; threshold := threshold self;
       max_workers := max_workers self; verbose := b;
       sample_count := sample_count self |}
    {| task_env := task_env w; task_count := f; completed := completed w |}
    h papers research_context user_interests
  = evaluate_papers float_repr self w h papers research_context user_interests.
Proof.
  intros Htitled. unfold evaluate_papers.
  cbn [max_workers completed].
  destruct (max_workers self =? 0)%nat; [reflexivity|].
  rewrite (collect_ext float_repr self _ w _); [reflexivity | reflexivity |].
  intros i p Hp. apply future_result_verbose.
  rewrite future_to_paper_lookup in Hp.
  apply Htitled. by eapply list_elem_of_lookup_2.
Qed.

Lemma sample_papers_titled p : p ∈ sample_papers -> titled sample_heap p.
Proof.
  intros Hp. apply list_elem_of_In in Hp.
  repeat (destruct Hp as [<-|Hp]; [eexists; vm_compute; reflexivity|]).
  destruct Hp.
Qed.

Lemma verbose_changes_nothing_witness :
  (forall p, p ∈ sample_papers -> titled sample_heap p)
  /\ evaluate_papers no_repr
       {| model := py "gpt-4o-mini"; threshold := 7; max_workers := 10;
          verbose := true; sample_count := 0 |}
       {| task_env := task_env sample_world; task_count := fun i => i;
          completed := completed sample_world |}
       sample_heap sample_papers [] []
     = evaluate_papers no_repr sample_evaluator sample_world sample_heap
         sample_papers [] [].
Proof.
  split; [exact sample_papers_titled|].
  exact (verbose_changes_nothing no_repr sample_evaluator sample_world sample_heap
           sample_papers [] [] true (fun i => i) sample_papers_titled).
Defined.

(** ** Papers without a title or without an abstract *)

Lemma task_without_title float_repr self env paper research_context user_interests :
  paper !! "title" = None ->
  _evaluate_single_paper float_repr self env paper research_context user_interests
  = ([], sample_count self, Raise (KeyError "title")).
Proof.
  intros Ht. unfold _evaluate_single_paper, _build_prompt, getitem. by rewrite Ht.
Qed.

Lemma task_without_abstract float_repr self env paper research_context user_interests :
  is_Some (paper !! "title") ->
  paper !! "abstract" = None ->
  _evaluate_single_paper float_repr self env paper research_context user_interests
  = ([], sample_count self, Raise (KeyError "abstract")).
Proof.
  intros [t Ht] Ha. unfold _evaluate_single_paper, _build_prompt, getitem.
  by rewrite Ht, Ha.
Qed.

Lemma collect_without_title float_repr self w h0 research_context user_interests
    (future_to_paper : gmap nat loc) : forall futures h relevant_papers,
  (forall i, i ∈ futures -> is_Some (future_to_paper !! i)) ->
  (forall i p, future_to_paper !! i = Some p ->
     titled h0 p \/ deref h0 p !! "title" = None) ->
  (forall p, deref h p !! "title" = deref h0 p !! "title") ->
  (exists i p, i ∈ futures /\ future_to_paper !! i = Some p
     /\ deref h0 p !! "title" = None) ->
  snd (collect float_repr self w h0 research_context user_interests future_to_paper
         futures h relevant_papers)
  = Raise (KeyError "title").
Proof.
  induction futures as [|i futures IH]; intros h rel Hdom Hcase Hsame Hex.
  { destruct Hex as (i & p & Hi & _). by apply elem_of_nil in Hi. }
  cbn [collect].
  destruct (Hdom i) as [p Hp]; [by left|]. rewrite Hp.
  assert (Hdom' : forall j, j ∈ futures -> is_Some (future_to_paper !! j))
    by (intros j Hj; apply Hdom; by right).
  destruct (Hcase i p Hp) as [[t Ht]|Hnone].
  - assert (Hex' : exists j q, j ∈ futures /\ future_to_paper !! j = Some q
                     /\ deref h0 q !! "title" = None).
    { destruct Hex as (j & q & Hj & Hq & Hnone).
      apply elem_of_cons in Hj as [->|Hj]; [|by eauto].
      rewrite Hp in Hq. inversion Hq; subst. congruence. }
    destruct (future_result _ _ _ _ _ _ i p) as [e|exc].
    + destruct (Qleb _ _); [|by apply IH].
      apply IH; try done.
      intros q. rewrite !lookup_setitem_other by done. apply Hsame.
    + unfold getitem. rewrite Hsame, Ht. cbn [mbind result_bind slice50].
      by apply IH.
  - unfold future_result. rewrite task_without_title by done. cbn [snd].
    unfold getitem. rewrite Hsame, Hnone. reflexivity.
Qed.

(** X14: a paper without the key [title] makes the batch fail.  Its task
    raises [KeyError] when the prompt is built, and the handler of lines 93-97
    reads the same key to print its message, so the [KeyError] escapes from
    [evaluate_papers] and no list is returned, whatever the other papers (with
    a text title) are and whatever the endpoint answers. *)
Theorem missing_title_fails_batch
    float_repr self w h papers research_context user_interests :
  max_workers self <> 0%nat ->
  completed w ≡ₚ seq 0 (length papers) ->
  (forall p, p ∈ papers -> titled h p \/ deref h p !! "title" = None) ->
  (exists p, p ∈ papers /\ deref h p !! "title" = None) ->
  snd (evaluate_papers float_repr self w h papers research_context user_interests)
  = Raise (KeyError "title").
Proof.
  intros Hworkers Hperm Hcase (p & Hp & Hnone). unfold evaluate_papers.
  apply Nat.eqb_neq in Hworkers. rewrite Hworkers.
  assert (E : snd (collect float_repr self w h research_context user_interests
                     (list_to_map (zip (seq 0 (length papers)) papers))
                     (completed w) h [])
              = Raise (KeyError "title")).
  { apply collect_without_title.
    - intros i Hi. rewrite future_to_paper_lookup.
      apply lookup_lt_is_Some. rewrite Hperm in Hi.
      apply elem_of_seq in Hi. lia.
    - intros i q Hq. rewrite future_to_paper_lookup in Hq.
      apply Hcase. by eapply list_elem_of_lookup_2.
    - done.
    - apply list_elem_of_lookup_1 in Hp as [i Hi].
      exists i, p. rewrite future_to_paper_lookup. repeat split; try done.
      rewrite Hperm. apply elem_of_seq. apply lookup_lt_Some in Hi. lia. }
  destruct (collect _ _ _ _ _ _ _ _ _ _) as [h' [out|e]]; simpl in E |- *;
    [discriminate | exact E].
Qed.

Lemma missing_title_fails_batch_witness :
  max_workers sample_evaluator <> 0%nat
  /\ completed sample_world ≡ₚ seq 0 (length sample_papers)
  /\ (forall p, p ∈ sample_papers ->
        titled untitled_heap p \/ deref untitled_heap p !! "title" = None)
  /\ (exists p, p ∈ sample_papers /\ deref untitled_heap p !! "title" = None)
  /\ snd (evaluate_papers no_repr sample_evaluator sample_world untitled_heap
            sample_papers [] [])
     = Raise (KeyError "title").
Proof.
  assert (H1 : max_workers sample_evaluator <> 0%nat) by discriminate.
  assert (H2 : completed sample_world ≡ₚ seq 0 (length sample_papers)).
  { simpl. change [2; 0; 1]%nat with ([2%nat] ++ [0; 1]%nat).
    change [0; 1; 2]%nat with ([0; 1]%nat ++ [2%nat]). apply Permutation_app_comm. }
  assert (H3 : forall p, p ∈ sample_papers ->
                 titled untitled_heap p \/ deref untitled_heap p !! "title" = None).
  { intros p Hp. apply list_elem_of_In in Hp.
    destruct Hp as [<-|[<-|[<-|[]]]];
      [left; eexists; vm_compute; reflexivity
      | right; vm_compute; reflexivity
      | left; eexists; vm_compute; reflexivity]. }
  assert (H4 : exists p, p ∈ sample_papers /\ deref untitled_heap p !! "title" = None).
  { exists 2%positive. split; [|vm_compute; reflexivity].
    apply list_elem_of_In. simpl. tauto. }
  repeat (split; [assumption|]).
  exact (missing_title_fails_batch no_repr sample_evaluator sample_world untitled_heap
           sample_papers [] [] H1 H2 H3 H4).
Defined.

(** X15: a paper with a title but without the key [abstract] is dropped
    silently.  Its task raises [KeyError] before any call of the endpoint, the
    handler of the batch prints the message, and the paper is neither returned
    nor modified; the batch itself returns normally. *)
Theorem missing_abstract_dropped
    float_repr self w h papers research_context user_interests p :
  max_workers self <> 0%nat ->
  completed w ≡ₚ seq 0 (length papers) ->
  (forall q, q ∈ papers -> titled h q) ->
  deref h p !! "abstract" = None ->
  exists h' out,
    evaluate_papers float_repr self w h papers research_context user_interests
    = (h', Ok out)
    /\ (p ∉ out)
    /\ h' !! p = h !! p
    /\ (p ∈ papers ->
        forall self' env,
          _evaluate_single_paper float_repr self' env (deref h p)
            research_context user_interests
          = ([], sample_count self', Raise (KeyError "abstract"))).
Proof.
  intros Hworkers Hperm Htitled Ha.
  pose proof (evaluate_papers_closed float_repr self w h papers research_context
                user_interests Hworkers Hperm Htitled) as E.
  cbv zeta in E.
  set (fr := future_result float_repr self w h research_context user_interests) in *.
  set (K := kept self fr _ (completed w)) in *.
  set (h' := foldl attach h K) in *.
  set (keyed := map (fun p => (attached_score h' p, p)) K.*1) in *.
  assert (Hout : map snd (sort_desc keyed) ≡ₚ K.*1).
  { rewrite sort_desc_perm. unfold keyed. by rewrite map_snd_keyed. }
  assert (HK : p ∉ K.*1).
  { intros Hp. apply list_elem_of_fmap in Hp as ([p' e] & -> & He).
    apply kept_elem in He as (i & _ & Hlookup & Hfr & _).
    rewrite future_to_paper_lookup in Hlookup. simpl in *.
    destruct (Htitled p') as [t Ht]; [by eapply list_elem_of_lookup_2|].
    unfold fr, future_result in Hfr.
    rewrite task_without_abstract in Hfr by (rewrite ?Ht; done).
    discriminate. }
  exists h', (map snd (sort_desc keyed)).
  split; [exact E|]. split; [by rewrite Hout|].
  split; [by apply foldl_attach_other_loc|].
  intros Hp self' env. destruct (Htitled p Hp) as [t Ht].
  apply task_without_abstract; [by rewrite Ht | done].
Qed.

Lemma missing_abstract_dropped_witness :
  max_workers sample_evaluator <> 0%nat
  /\ completed sample_world ≡ₚ seq 0 (length sample_papers)
  /\ (forall q, q ∈ sample_papers -> titled no_abstract_heap q)
  /\ deref no_abstract_heap 2%positive !! "abstract" = None
  /\ exists h' out,
       evaluate_papers no_repr sample_evaluator sample_world no_abstract_heap
         sample_papers [] [] = (h', Ok out)
       /\ (2%positive ∉ out)
       /\ h' !! 2%positive = no_abstract_heap !! 2%positive.
Proof.
  assert (H1 : max_workers sample_evaluator <> 0%nat) by discriminate.
  assert (H2 : completed sample_world ≡ₚ seq 0 (length sample_papers)).
  { simpl. change [2; 0; 1]%nat with ([2%nat] ++ [0; 1]%nat).
    change [0; 1; 2]%nat with ([0; 1]%nat ++ [2%nat]). apply Permutation_app_comm. }
  assert (H3 : forall q, q ∈ sample_papers -> titled no_abstract_heap q).
  { intros q Hq. apply list_elem_of_In in Hq.
    destruct Hq as [<-|[<-|[<-|[]]]]; eexists; vm_compute; reflexivity. }
  assert (H4 : deref no_abstract_heap 2%positive !! "abstract" = None)
    by (vm_compute; reflexivity).
  repeat (split; [assumption|]).
  destruct (missing_abstract_dropped no_repr sample_evaluator sample_world
              no_abstract_heap sample_papers [] [] 2%positive H1 H2 H3 H4)
    as (h' & out & E & Hout & Hh & _).
  exists h', out. repeat split; assumption.
Defined.

(** ** Ties and repeated papers *)

Lemma insert_desc_filter (q : Q) x l :
  List.filter (fun y => Qeq_bool (fst y) q) (insert_desc x l)
  = List.filter (fun y => Qeq_bool (fst y) q) (x :: l).
Proof.
  induction l as [|y l IH]; [reflexivity|].
  cbn [insert_desc]. destruct (Qleb (fst y) (fst x)) eqn:Hle; [reflexivity|].
  cbn [List.filter] in *. rewrite IH.
  destruct (Qeq_bool (fst x) q) eqn:Hx, (Qeq_bool (fst y) q) eqn:Hy; try reflexivity.
  apply Qeq_bool_iff in Hx, Hy.
  assert (Hyx : (fst y <= fst x)%Q) by (rewrite Hx, Hy; apply Qle_refl).
  apply Qle_bool_iff in Hyx. unfold Qleb in Hle. congruence.
Qed.

Lemma sort_desc_filter (q : Q) l :
  List.filter (fun y => Qeq_bool (fst y) q) (sort_desc l)
  = List.filter (fun y => Qeq_bool (fst y) q) l.
Proof.
  induction l as [|x l IH]; [reflexivity|].
  change (sort_desc (x :: l)) with (insert_desc x (sort_desc l)).
  rewrite insert_desc_filter. cbn [List.filter]. by rewrite IH.
Qed.

Lemma filter_map_snd_keyed (key : loc -> Q) (q : Q) (l : list (Q * loc)) :
  Forall (fun x => fst x = key (snd x)) l ->
  List.filter (fun p => Qeq_bool (key p) q) (map snd l)
  = map snd (List.filter (fun y => Qeq_bool (fst y) q) l).
Proof.
  induction 1 as [|x l Hx Hl IH]; [reflexivity|].
  cbn [map List.filter]. rewrite <- Hx, IH. by destruct (Qeq_bool _ _).
Qed.

(** X16: the sort is stable.  Among the papers returned, those that carry the
    same score stand in the order in which their tasks completed. *)
Theorem ties_in_completion_order
    float_repr self w h papers research_context user_interests q :
  max_workers self <> 0%nat ->
  completed w ≡ₚ seq 0 (length papers) ->
  (forall p, p ∈ papers -> titled h p) ->
  exists h' out,
    evaluate_papers float_repr self w h papers research_context user_interests
    = (h', Ok out)
    /\ List.filter (scored h' q) out
       = List.filter (scored h' q)
           (kept self
              (future_result float_repr self w h research_context user_interests)
              (list_to_map (zip (seq 0 (length papers)) papers))
              (completed w)).*1.
Proof.
  intros Hworkers Hperm Htitled.
  pose proof (evaluate_papers_closed float_repr self w h papers research_context
                user_interests Hworkers Hperm Htitled) as E.
  cbv zeta in E.
  set (fr := future_result float_repr self w h research_context user_interests) in *.
  set (K := kept self fr _ (completed w)) in *.
  set (h' := foldl attach h K) in *.
  set (keyed := map (fun p => (attached_score h' p, p)) K.*1) in *.
  exists h', (map snd (sort_desc keyed)). split; [exact E|].
  unfold scored.
  rewrite (filter_map_snd_keyed (attached_score h')).
  - rewrite sort_desc_filter.
    rewrite <- (filter_map_snd_keyed (attached_score h')).
    + unfold keyed. by rewrite map_snd_keyed.
    + unfold keyed. apply Forall_forall. intros x Hx.
      apply in_map_iff in Hx as (p & <- & _). reflexivity.
  - apply Forall_forall. intros x Hx.
    apply list_elem_of_In in Hx. rewrite sort_desc_perm in Hx.
    unfold keyed in Hx. apply list_elem_of_In, in_map_iff in Hx as (p & <- & _).
    reflexivity.
Qed.

Lemma ties_in_completion_order_witness :
  max_workers sample_evaluator <> 0%nat
  /\ completed tied_world ≡ₚ seq 0 (length sample_papers)
  /\ (forall p, p ∈ sample_papers -> titled sample_heap p)
  /\ snd (evaluate_papers no_repr sample_evaluator tied_world sample_heap
            sample_papers [] []) = Ok [3; 1]%positive
  /\ exists h' out,
       evaluate_papers no_repr sample_evaluator tied_world sample_heap
         sample_papers [] [] = (h', Ok out)
       /\ List.filter (scored h' 8) out
          = List.filter (scored h' 8)
              (kept sample_evaluator
                 (future_result no_repr sample_evaluator tied_world sample_heap [] [])
                 (list_to_map (zip (seq 0 (length sample_papers)) sample_papers))
                 (completed tied_world)).*1.
Proof.
  assert (H1 : max_workers sample_evaluator <> 0%nat) by discriminate.
  assert (H2 : completed tied_world ≡ₚ seq 0 (length sample_papers)).
  { simpl. change [2; 0; 1]%nat with ([2%nat] ++ [0; 1]%nat).
    change [0; 1; 2]%nat with ([0; 1]%nat ++ [2%nat]). apply Permutation_app_comm. }
  assert (H3 : forall p, p ∈ sample_papers -> titled sample_heap p).
  { intros q Hq. apply list_elem_of_In in Hq.
    destruct Hq as [<-|[<-|[<-|[]]]]; eexists; vm_compute; reflexivity. }
  repeat (split; [assumption|]).
  split; [vm_compute; reflexivity|].
  exact (ties_in_completion_order no_repr sample_evaluator tied_world sample_heap
           sample_papers [] [] 8 H1 H2 H3).
Defined.

(** X17: papers are objects.  When one dictionary is retained more than once
    (it occurs several times in the batch), the fields it carries after the
    call are those of the evaluation that was retained last, in the order of
    completion; every occurrence of it in the list returned shows them. *)
Theorem repeated_paper_carries_last_evaluation
    float_repr self w h papers research_context user_interests p e K1 K2 :
  max_workers self <> 0%nat ->
  completed w ≡ₚ seq 0 (length papers) ->
  (forall q, q ∈ papers -> titled h q) ->
  kept self (future_result float_repr self w h research_context user_interests)
    (list_to_map (zip (seq 0 (length papers)) papers)) (completed w)
  = K1 ++ (p, e) :: K2 ->
  p ∉ K2.*1 ->
  exists h' out,
    evaluate_papers float_repr self w h papers research_context user_interests
    = (h', Ok out)
    /\ p ∈ out
    /\ deref h' p !! "relevance_score" = Some (VFloat (score e))
    /\ deref h' p !! "relevance_reason" = Some (VStr (reason e)).
Proof.
  intros Hworkers Hperm Htitled HK Hlast.
  pose proof (evaluate_papers_closed float_repr self w h papers research_context
                user_interests Hworkers Hperm Htitled) as E.
  cbv zeta in E. rewrite HK in E.
  set (h' := foldl attach h (K1 ++ (p, e) :: K2)) in *.
  set (keyed := map (fun p => (attached_score h' p, p)) (K1 ++ (p, e) :: K2).*1) in *.
  assert (Hout : map snd (sort_desc keyed) ≡ₚ (K1 ++ (p, e) :: K2).*1).
  { rewrite sort_desc_perm. unfold keyed. by rewrite map_snd_keyed. }
  assert (Hp : deref h' p = deref (attach (foldl attach h K1) (p, e)) p).
  { unfold h', deref. rewrite foldl_app. cbn [foldl].
    by rewrite foldl_attach_other_loc. }
  exists h', (map snd (sort_desc keyed)).
  split; [exact E|]. split; [|split].
  - rewrite Hout, fmap_app. apply elem_of_app. right. by left.
  - rewrite Hp. apply (attach_score _ (p, e)).
  - rewrite Hp. apply (attach_reason _ (p, e)).
Qed.

Lemma repeated_paper_carries_last_evaluation_witness :
  max_workers sample_evaluator <> 0%nat
  /\ completed twice_world ≡ₚ seq 0 (length [1; 1]%positive)
  /\ (forall q, q ∈ [1; 1]%positive -> titled sample_heap q)
  /\ kept sample_evaluator
       (future_result no_repr sample_evaluator twice_world sample_heap [] [])
       (list_to_map (zip (seq 0 (length [1; 1]%positive)) [1; 1]%positive))
       (completed twice_world)
     = [(1%positive, Evaluation 9 (py "Central."))]
       ++ (1%positive, Evaluation 8 (py "Relevant.")) :: []
  /\ exists h' out,
       evaluate_papers no_repr sample_evaluator twice_world sample_heap
         [1; 1]%positive [] [] = (h', Ok out)
       /\ 1%positive ∈ out
       /\ deref h' 1%positive !! "relevance_score" = Some (VFloat 8)
       /\ deref h' 1%positive !! "relevance_reason" = Some (VStr (py "Relevant.")).
Proof.
  assert (H1 : max_workers sample_evaluator <> 0%nat) by discriminate.
  assert (H2 : completed twice_world ≡ₚ seq 0 (length [1; 1]%positive)).
  { simpl. apply perm_swap. }
  assert (H3 : forall q, q ∈ [1; 1]%positive -> titled sample_heap q).
  { intros q Hq. apply list_elem_of_In in Hq.
    destruct Hq as [<-|[<-|[]]]; eexists; vm_compute; reflexivity. }
  assert (H4 : kept sample_evaluator
                 (future_result no_repr sample_evaluator twice_world sample_heap [] [])
                 (list_to_map (zip (seq 0 (length [1; 1]%positive)) [1; 1]%positive))
                 (completed twice_world)
               = [(1%positive, Evaluation 9 (py "Central."))]
                 ++ (1%positive, Evaluation 8 (py "Relevant.")) :: [])
    by (vm_compute; reflexivity).
  repeat (split; [assumption|]).
  exact (repeated_paper_carries_last_evaluation no_repr sample_evaluator twice_world
           sample_heap [1; 1]%positive [] [] 1%positive
           (Evaluation 8 (py "Relevant.")) [(1%positive, Evaluation 9 (py "Central."))] []
           H1 H2 H3 H4 ltac:(apply not_elem_of_nil)).
Defined.

(** ** The threshold *)

Lemma parse_response_nonneg content paper_title s r :
  _parse_response content paper_title = Ok (s, r) -> (0 <= s)%Q.
Proof.
  intros E. unfold _parse_response in E.
  destruct (parse_score content) as [s'|] eqn:Hs; [|discriminate].
  cbn [mbind result_bind] in E.
  destruct (parse_reason content) as [r'|]; [|discriminate].
  cbn [mbind result_bind] in E. inversion E; subst.
  by apply (parse_score_nonneg content).
Qed.

(** The task of a paper with a text title and an abstract returns an
    evaluation whose score is not negative; the score is 0 when no attempt was
    answered with a text. *)
Lemma task_score float_repr self env paper research_context user_interests t :
  paper !! "title" = Some (VStr t) ->
  is_Some (paper !! "abstract") ->
  exists e,
    snd (_evaluate_single_paper float_repr self env paper research_context
           user_interests) = Ok e
    /\ (0 <= score e)%Q
    /\ ((forall prompt k content,
           ask self env prompt k <> Content (Some content)) ->
        score e = 0%Q).
Proof.
  intros Ht [a Ha].
  destruct (_build_prompt float_repr paper research_context user_interests)
    as [prompt|e0] eqn:Hp.
  2: { unfold _build_prompt, getitem in Hp. rewrite Ht, Ha in Hp. discriminate. }
  destruct (retry_loop_outcome self env paper prompt t 5 0 (sample_count self) Ht)
    as (k & e & count' & _ & Hk4 & E & _ & Hat); [lia | lia |].
  exists e. unfold _evaluate_single_paper. rewrite Hp.
  change (seq 0 max_retries) with (seq 0 5). rewrite E.
  split; [reflexivity|].
  destruct (ask self env prompt k) as [[content|]|error_str] eqn:Hask.
  - destruct Hat as [Hparse _]. split.
    + by apply (parse_response_nonneg content (VStr t) _ (reason e)).
    + intros Hno. by destruct (Hno prompt k content).
  - destruct Hat as [-> _]. split; [apply Qle_refl | done].
  - destruct Hat as [_ Hat].
    destruct (is_rate_limit error_str); [destruct Hat as [_ ->] | subst e];
      (split; [apply Qle_refl | done]).
Qed.

Lemma omap_seq_lookup {A} (l : list A) : forall (g : nat -> option A) k,
  (forall i, (i < length l)%nat -> g (k + i)%nat = l !! i) ->
  omap g (seq k (length l)) = l.
Proof.
  induction l as [|x l IH]; intros g k Hg; [reflexivity|].
  pose proof (Hg 0%nat ltac:(simpl; lia)) as H0. rewrite Nat.add_0_r in H0.
  simpl in *. rewrite H0. f_equal. apply IH.
  intros i Hi. replace (S k + i)%nat with (k + S i)%nat by lia.
  apply (Hg (S i)). lia.
Qed.

Lemma relevant_all self fr (papers : list loc) :
  (forall i p, papers !! i = Some p -> is_Some (retain self (fr i p))) ->
  relevant self fr papers = papers.
Proof.
  intros Hall. unfold relevant. apply omap_seq_lookup.
  intros i Hi. cbn [Nat.add].
  destruct (papers !! i) as [p|] eqn:Hp; [|reflexivity].
  by destruct (Hall i p Hp) as [e ->].
Qed.

(** X18: with a threshold of 0 or less nothing is filtered.  For a batch
    whose papers have a text title and an abstract, every task returns an
    evaluation and no score is negative, so every paper comes back, those
    whose evaluation failed (score 0.0) included. *)
Theorem threshold_zero_returns_all
    float_repr self w h papers research_context user_interests :
  max_workers self <> 0%nat ->
  completed w ≡ₚ seq 0 (length papers) ->
  (forall p, p ∈ papers -> titled h p /\ is_Some (deref h p !! "abstract")) ->
  (threshold self <= 0)%Q ->
  exists h' out,
    evaluate_papers float_repr self w h papers research_context user_interests
    = (h', Ok out)
    /\ out ≡ₚ papers.
Proof.
  intros Hworkers Hperm Hwf Hthr.
  pose proof (evaluate_papers_closed float_repr self w h papers research_context
                user_interests Hworkers Hperm (fun p Hp => proj1 (Hwf p Hp))) as E.
  cbv zeta in E.
  set (fr := future_result float_repr self w h research_context user_interests) in *.
  set (K := kept self fr _ (completed w)) in *.
  set (h' := foldl attach h K) in *.
  set (keyed := map (fun p => (attached_score h' p, p)) K.*1) in *.
  exists h', (map snd (sort_desc keyed)). split; [exact E|].
  rewrite sort_desc_perm. unfold keyed. rewrite map_snd_keyed.
  unfold K. rewrite kept_relevant by done.
  rewrite relevant_all; [done|].
  intros i p Hp.
  destruct (Hwf p) as [[t Ht] Ha]; [by eapply list_elem_of_lookup_2|].
  destruct (task_score float_repr
              {| model := model self; threshold := threshold self;
                 max_workers := max_workers self; verbose := verbose self;
                 sample_count := task_count w i |}
              (task_env w i) (deref h p) research_context user_interests t Ht Ha)
    as (e & He & Hpos & _).
  unfold fr, future_result. rewrite He. cbn [retain].
  assert (Hle : Qleb (threshold self) (score e) = true).
  { apply Qle_bool_iff. by apply Qle_trans with 0%Q. }
  rewrite Hle. by exists e.
Qed.

Lemma sample_papers_complete p :
  p ∈ sample_papers ->
  titled sample_heap p /\ is_Some (deref sample_heap p !! "abstract").
Proof.
  intros Hp. apply list_elem_of_In in Hp.
  destruct Hp as [<-|[<-|[<-|[]]]];
    (split; [eexists; vm_compute; reflexivity | eexists; vm_compute; reflexivity]).
Qed.

Lemma threshold_zero_returns_all_witness :
  max_workers sample_evaluator <> 0%nat
  /\ completed sample_world ≡ₚ seq 0 (length sample_papers)
  /\ (forall p, p ∈ sample_papers ->
        titled sample_heap p /\ is_Some (deref sample_heap p !! "abstract"))
  /\ (0 <= 0)%Q
  /\ exists h' out,
       evaluate_papers no_repr
         {| model := py "gpt-4o-mini"; threshold := 0; max_workers := 10;
            verbose := false; sample_count := 0 |}
         sample_world sample_heap sample_papers [] [] = (h', Ok out)
       /\ out ≡ₚ sample_papers.
Proof.
  assert (H1 : max_workers sample_evaluator <> 0%nat) by discriminate.
  assert (H2 : completed sample_world ≡ₚ seq 0 (length sample_papers)).
  { simpl. change [2; 0; 1]%nat with ([2%nat] ++ [0; 1]%nat).
    change [0; 1; 2]%nat with ([0; 1]%nat ++ [2%nat]). apply Permutation_app_comm. }
  assert (H4 : (0 <= 0)%Q) by apply Qle_refl.
  split; [exact H1|]. split; [exact H2|].
  split; [exact sample_papers_complete|]. split; [exact H4|].
  exact (threshold_zero_returns_all no_repr
           {| model := py "gpt-4o-mini"; threshold := 0; max_workers := 10;
              verbose := false; sample_count := 0 |}
           sample_world sample_heap sample_papers [] [] H1 H2
           sample_papers_complete H4).
Defined.

(** X19: with a threshold above 0, a paper whose task is never answered with
    a text (every attempt fails, is throttled, or comes back without content)
    is dropped from the result and left as it was: the failure of an
    evaluation is not reported to the caller. *)
Theorem unanswered_paper_dropped
    float_repr self w h papers research_context user_interests i p :
  max_workers self <> 0%nat ->
  completed w ≡ₚ seq 0 (length papers) ->
  (forall q, q ∈ papers -> titled h q) ->
  base.NoDup papers ->
  papers !! i = Some p ->
  (forall prompt k content,
     ask self (task_env w i) prompt k <> Content (Some content)) ->
  (0 < threshold self)%Q ->
  exists h' out,
    evaluate_papers float_repr self w h papers research_context user_interests
    = (h', Ok out)
    /\ (p ∉ out)
    /\ h' !! p = h !! p.
Proof.
  intros Hworkers Hperm Htitled Hnodup Hi Hno Hthr.
  pose proof (evaluate_papers_closed float_repr self w h papers research_context
                user_interests Hworkers Hperm Htitled) as E.
  cbv zeta in E.
  set (fr := future_result float_repr self w h research_context user_interests) in *.
  set (K := kept self fr _ (completed w)) in *.
  set (h' := foldl attach h K) in *.
  set (keyed := map (fun p => (attached_score h' p, p)) K.*1) in *.
  assert (Hout : map snd (sort_desc keyed) ≡ₚ K.*1).
  { rewrite sort_desc_perm. unfold keyed. by rewrite map_snd_keyed. }
  assert (HK : p ∉ K.*1).
  { intros Hp. apply list_elem_of_fmap in Hp as ([p' e] & -> & He).
    apply kept_elem in He as (j & _ & Hlookup & Hfr & Hle).
    rewrite future_to_paper_lookup in Hlookup. simpl in *.
    assert (j = i) as -> by exact (NoDup_lookup _ _ _ _ Hnodup Hlookup Hi).
    destruct (Htitled p') as [t Ht]; [by eapply list_elem_of_lookup_2|].
    unfold fr, future_result in Hfr.
    destruct (deref h p' !! "abstract") as [a|] eqn:Ha.
    - destruct (task_score float_repr
                  {| model := model self; threshold := threshold self;
                     max_workers := max_workers self; verbose := verbose self;
                     sample_count := task_count w i |}
                  (task_env w i) (deref h p') research_context user_interests t Ht)
        as (e' & He' & _ & Hzero); [by rewrite Ha|].
      rewrite He' in Hfr. inversion Hfr; subst e'.
      rewrite Hzero in Hle by exact Hno.
      by apply Qlt_not_le in Hthr.
    - rewrite task_without_abstract in Hfr by (rewrite ?Ht; done).
      discriminate. }
  exists h', (map snd (sort_desc keyed)).
  split; [exact E|]. split; [by rewrite Hout|].
  by apply foldl_attach_other_loc.
Qed.

Lemma unanswered_paper_dropped_witness :
  max_workers sample_evaluator <> 0%nat
  /\ completed failing_world ≡ₚ seq 0 (length sample_papers)
  /\ (forall q, q ∈ sample_papers -> titled sample_heap q)
  /\ base.NoDup sample_papers
  /\ sample_papers !! 1%nat = Some 2%positive
  /\ (0 < threshold sample_evaluator)%Q
  /\ snd (evaluate_papers no_repr sample_evaluator failing_world sample_heap
            sample_papers [] []) = Ok [3; 1]%positive
  /\ exists h' out,
       evaluate_papers no_repr sample_evaluator failing_world sample_heap
         sample_papers [] [] = (h', Ok out)
       /\ (2%positive ∉ out)
       /\ h' !! 2%positive = sample_heap !! 2%positive.
Proof.
  assert (H1 : max_workers sample_evaluator <> 0%nat) by discriminate.
  assert (H2 : completed failing_world ≡ₚ seq 0 (length sample_papers)).
  { simpl. change [2; 0; 1]%nat with ([2%nat] ++ [0; 1]%nat).
    change [0; 1; 2]%nat with ([0; 1]%nat ++ [2%nat]). apply Permutation_app_comm. }
  assert (H3 : forall q, q ∈ sample_papers -> titled sample_heap q)
    by (intros q Hq; by apply sample_papers_complete).
  assert (H4 : base.NoDup sample_papers).
  { unfold sample_papers. repeat constructor; rewrite ?elem_of_cons, ?elem_of_nil;
      intros H; repeat (destruct H as [H|H]; [discriminate|]); done. }
  assert (H5 : sample_papers !! 1%nat = Some 2%positive) by reflexivity.
  assert (H6 : (0 < threshold sample_evaluator)%Q) by reflexivity.
  repeat (split; [assumption|]).
  split; [vm_compute; reflexivity|].
  exact (unanswered_paper_dropped no_repr sample_evaluator failing_world sample_heap
           sample_papers [] [] 1%nat 2%positive H1 H2 H3 H4 H5
           ltac:(intros prompt k content; discriminate) H6).
Defined.

(** * Properties of the Zotero library *)

(** ** The library summary *)

Lemma join_cons sep x l :
  join sep (x :: l) = match l with [] => x | _ :: _ => x ++ sep ++ join sep l end.
Proof. reflexivity. Qed.

Lemma join_part sep x l : In x l -> part_of x (join sep l).
Proof.
  induction l as [|y l IH]; [done|]. intros [->|Hx]; rewrite join_cons.
  - destruct l; [apply part_of_refl | apply part_of_app_r, part_of_refl].
  - destruct l as [|z l]; [done|].
    apply part_of_app_l, part_of_app_l. by apply IH.
Qed.

Lemma shown_abstract_text paper :
  (forall x, paper !! "abstract" <> Some (VFloat x)) ->
  exists s, shown_abstract (get paper "abstract" (VStr [])) = Ok s.
Proof.
  intros H. unfold get. destruct (paper !! "abstract") as [[s|x]|] eqn:E.
  - simpl. destruct (200 <? length s)%nat; eauto.
  - by destruct (H x).
  - simpl. eauto.
Qed.

Lemma detailed_lines_titles float_repr l : forall i,
  (forall p x, p ∈ l -> p !! "abstract" <> Some (VFloat x)) ->
  exists lines, detailed_lines float_repr i l = Ok lines
    /\ forall p, p ∈ l ->
         exists line, In line lines /\ part_of (shown_title float_repr p) line.
Proof.
  induction l as [|paper l IH]; intros i Htext.
  - exists []. split; [done|]. intros p Hp. by apply elem_of_nil in Hp.
  - destruct (shown_abstract_text paper) as [a Ha].
    { intros x. apply Htext. by left. }
    destruct (IH (i + 1)) as (lines & E & Hlines).
    { intros p x Hp. apply Htext. by right. }
    cbn [detailed_lines]. rewrite Ha, E. cbn [mbind result_bind].
    eexists. split; [reflexivity|].
    intros p [->|Hp]%elem_of_cons.
    + eexists. split; [by left|]. apply part_of_app_l, part_of_app_l, part_of_refl.
    + destruct (Hlines p Hp) as (line & Hin & Hpart).
      exists line. split; [|exact Hpart].
      cbn [app In]. rewrite in_app_iff. cbn [In]. tauto.
Qed.

Lemma slice_from_nonneg {A} (start : Z) (l : list A) :
  0 <= start -> slice_from start l = skipn (Z.to_nat start) l.
Proof.
  intros H. unfold slice_from.
  destruct (start <? 0) eqn:E; [apply Z.ltb_lt in E; lia | done].
Qed.

Lemma get_summary_titles float_repr papers detailed_papers :
  0 <= detailed_papers ->
  (forall p x, p ∈ papers -> p !! "abstract" <> Some (VFloat x)) ->
  exists summary,
    get_summary float_repr papers true detailed_papers = Ok summary
    /\ forall p, p ∈ papers -> part_of (shown_title float_repr p) summary.
Proof.
  intros Hd Htext.
  assert (Hlines : exists lines,
            summary_lines float_repr papers true detailed_papers = Ok lines
            /\ forall p, p ∈ papers ->
                 exists line, In line lines /\ part_of (shown_title float_repr p) line).
  { unfold summary_lines.
    destruct (detailed_lines_titles float_repr
                (firstn (Z.to_nat detailed_papers) papers) 1)
      as (lines & E & Hlines).
    { intros p x Hp. apply Htext.
      rewrite <- (firstn_skipn (Z.to_nat detailed_papers) papers).
      apply elem_of_app. by left. }
    rewrite slice_from_nonneg by done.
    destruct (0 <? detailed_papers) eqn:Hpos.
    - rewrite E. cbn [mbind result_bind andb].
      eexists. split; [reflexivity|].
      intros p Hp. rewrite <- (firstn_skipn (Z.to_nat detailed_papers) papers) in Hp.
      apply elem_of_app in Hp as [Hp|Hp].
      + destruct (Hlines p Hp) as (line & Hin & Hpart).
        exists line. split; [|exact Hpart].
        cbn [app In]. rewrite in_app_iff. tauto.
      + assert (Hlt : (detailed_papers <? Z.of_nat (length papers)) = true).
        { apply Z.ltb_lt. destruct (decide (detailed_papers < Z.of_nat (length papers)));
            [done|].
          rewrite skipn_all2 in Hp by lia. by apply elem_of_nil in Hp. }
        rewrite Hlt. exists (py "- " ++ shown_title float_repr p).
        split; [|apply part_of_app_l, part_of_refl].
        assert (Hin : In (py "- " ++ shown_title float_repr p)
                        (map (fun paper => py "- " ++ shown_title float_repr paper)
                           (skipn (Z.to_nat detailed_papers) papers))).
        { apply in_map_iff. exists p. split; [done | by apply list_elem_of_In]. }
        cbn [app In]. rewrite in_app_iff. cbn [In]. tauto.
    - apply Z.ltb_ge in Hpos. assert (detailed_papers = 0) as -> by lia.
      cbn [mbind result_bind andb].
      eexists. split; [reflexivity|].
      intros p Hp.
      assert (Hlt : (0 <? Z.of_nat (length papers)) = true).
      { apply Z.ltb_lt. destruct papers; [by apply elem_of_nil in Hp | simpl; lia]. }
      rewrite Hlt. exists (py "- " ++ shown_title float_repr p).
      split; [|apply part_of_app_l, part_of_refl].
      assert (Hin : In (py "- " ++ shown_title float_repr p)
                      (map (fun paper => py "- " ++ shown_title float_repr paper)
                         (skipn (Z.to_nat 0) papers))).
      { apply in_map_iff. exists p. split; [done | by apply list_elem_of_In]. }
      cbn [app In]. tauto. }
  destruct Hlines as (lines & E & Hlines).
  unfold get_summary. destruct papers as [|p0 papers'].
  - eexists. split; [reflexivity|]. intros p Hp. by apply elem_of_nil in Hp.
  - rewrite E. cbn [mbind result_bind].
    eexists. split; [reflexivity|]. intros p Hp.
    destruct (Hlines p Hp) as (line & Hin & Hpart).
    apply (part_of_trans _ line); [exact Hpart | by apply join_part].
Qed.

(** X20: with [include_all_titles] and a count [detailed_papers] that is not
    negative, no paper of the library is left out of the summary: the title of
    each (or "No title") stands in it.  The summary is built, and nothing is
    raised, when the abstract of every paper is a text or is missing. *)
Theorem summary_lists_every_title float_repr papers detailed_papers :
  0 <= detailed_papers ->
  (forall p, p ∈ papers -> text_abstract p) ->
  exists summary,
    get_summary float_repr papers true detailed_papers = Ok summary
    /\ forall p, p ∈ papers -> part_of (shown_title float_repr p) summary.
Proof.
  intros Hd Htext. apply get_summary_titles; [exact Hd|].
  intros p x Hp E. destruct (Htext p Hp) as [N|[s S]]; congruence.
Qed.

Lemma sample_library_text_abstracts p :
  p ∈ sample_library -> text_abstract p.
Proof.
  intros Hp. apply list_elem_of_In in Hp.
  destruct Hp as [<-|[<-|[<-|[]]]]; right; eexists; vm_compute; reflexivity.
Qed.

Lemma summary_lists_every_title_witness :
  0 <= 2
  /\ (forall p, p ∈ sample_library -> text_abstract p)
  /\ exists summary,
       get_summary no_repr sample_library true 2 = Ok summary
       /\ forall p, p ∈ sample_library -> part_of (shown_title no_repr p) summary.
Proof.
  split; [lia|]. split; [exact sample_library_text_abstracts|].
  exact (summary_lists_every_title no_repr sample_library 2 ltac:(lia)
           sample_library_text_abstracts).
Defined.

(** ** What the summary reads *)

Lemma shown_abstract_excerpt a a' :
  same_excerpt a a' -> shown_abstract a = shown_abstract a'.
Proof.
  intros [->|(s & s' & -> & -> & Hs & Hs' & E)]; [reflexivity|].
  apply Nat.ltb_lt in Hs, Hs'. unfold shown_abstract, slice_to.
  by rewrite Hs, Hs', E.
Qed.

Lemma shown_title_view float_repr paper paper' :
  same_view paper paper' -> shown_title float_repr paper = shown_title float_repr paper'.
Proof. intros [Ht _]. unfold shown_title, get. by rewrite Ht. Qed.

Lemma detailed_lines_view float_repr l l' :
  Forall2 same_view l l' ->
  forall i, detailed_lines float_repr i l = detailed_lines float_repr i l'.
Proof.
  induction 1 as [|p p' l l' Hp Hl IH]; intros i; [reflexivity|].
  cbn [detailed_lines].
  rewrite (shown_abstract_excerpt _ _ (proj2 Hp)), (IH (i + 1)).
  by rewrite (shown_title_view float_repr p p').
Qed.

(** X21: the summary reads, of each paper, the title and the first 200
    characters of the abstract (and whether there are more); authors, year and
    keywords never reach it.  Two libraries that agree on these have the same
    summary. *)
Theorem summary_reads_titles_and_excerpts
    float_repr papers papers' include_all_titles detailed_papers :
  Forall2 same_view papers papers' ->
  get_summary float_repr papers include_all_titles detailed_papers
  = get_summary float_repr papers' include_all_titles detailed_papers.
Proof.
  intros Hview.
  assert (Hlen : length papers = length papers') by (by eapply Forall2_length).
  assert (Hlines : summary_lines float_repr papers include_all_titles detailed_papers
                   = summary_lines float_repr papers' include_all_titles detailed_papers).
  { unfold summary_lines, slice_from. rewrite Hlen.
    rewrite (detailed_lines_view float_repr _ (firstn (Z.to_nat detailed_papers) papers'))
      by (by apply Forall2_take).
    set (start := Z.to_nat _).
    assert (Hmap : map (fun paper => py "- " ++ shown_title float_repr paper)
                     (skipn start papers)
                   = map (fun paper => py "- " ++ shown_title float_repr paper)
                       (skipn start papers')).
    { assert (H2 : Forall2 same_view (skipn start papers) (skipn start papers'))
        by (by apply Forall2_drop).
      induction H2 as [|p p' l l' Hp Hl IH]; [reflexivity|].
      cbn [map]. by rewrite IH, (shown_title_view float_repr p p'). }
    by rewrite Hmap. }
  unfold get_summary. rewrite Hlines.
  by destruct Hview.
Qed.

Lemma summary_reads_titles_and_excerpts_witness :
  Forall2 same_view [excerpt_paper "Ada" "bcd"] [excerpt_paper "Bob" "e"]
  /\ excerpt_paper "Ada" "bcd" <> excerpt_paper "Bob" "e"
  /\ get_summary no_repr [excerpt_paper "Ada" "bcd"] true 30
     = get_summary no_repr [excerpt_paper "Bob" "e"] true 30.
Proof.
  assert (H : Forall2 same_view [excerpt_paper "Ada" "bcd"] [excerpt_paper "Bob" "e"]).
  { constructor; [|constructor]. split; [vm_compute; reflexivity|].
    right. exists (repeat "a"%char 200 ++ py "bcd"), (repeat "a"%char 200 ++ py "e").
    split; [vm_compute; reflexivity|]. split; [vm_compute; reflexivity|].
    split; [apply Nat.ltb_lt; vm_compute; reflexivity|].
    split; [apply Nat.ltb_lt; vm_compute; reflexivity|].
    vm_compute. reflexivity. }
  split; [exact H|]. split.
  - intros E. apply (f_equal (fun d : dict => d !! "author")) in E.
    vm_compute in E. discriminate.
  - exact (summary_reads_titles_and_excerpts no_repr _ _ true 30 H).
Defined.

(** ** A negative count *)

(** X22: a negative [detailed_papers] is not refused.  The section of the
    detailed papers is left out, and the section of the additional papers
    lists only the last papers of the library (as many as the count says, at
    most), while its heading announces more papers than the library holds. *)
Theorem negative_count_summary float_repr papers detailed_papers :
  detailed_papers < 0 ->
  papers <> [] ->
  let count := Z.of_nat (length papers) in
  let listed := skipn (length papers - Z.to_nat (- detailed_papers)) papers in
  get_summary float_repr papers true detailed_papers
  = Ok (join [nl]
          ([py "Research Background from Zotero library ("
            ++ str_of_Z count ++ py " papers):"; [];
            []; py "Additional papers in library ("
                ++ str_of_Z (count - detailed_papers) ++ py " more):"; []]
           ++ map (fun paper => py "- " ++ shown_title float_repr paper) listed))
  /\ length listed = Nat.min (length papers) (Z.to_nat (- detailed_papers))
  /\ Z.of_nat (length listed) < count - detailed_papers.
Proof.
  intros Hd Hne.
  assert (Hsum : get_summary float_repr papers true detailed_papers
                 = lines ← summary_lines float_repr papers true detailed_papers;
                   Ok (join [nl] lines))
    by (by destruct papers).
  rewrite Hsum. clear Hsum Hne. intros count listed.
  assert (Hlen : length listed
                 = Nat.min (length papers) (Z.to_nat (- detailed_papers))).
  { unfold listed. rewrite length_skipn. lia. }
  split; [|split; [exact Hlen | unfold count; lia]].
  unfold summary_lines, slice_from.
  assert (H0 : (0 <? detailed_papers) = false) by (apply Z.ltb_ge; lia).
  assert (H1 : (detailed_papers <? Z.of_nat (length papers)) = true)
    by (apply Z.ltb_lt; lia).
  assert (H2 : (detailed_papers <? 0) = true) by (by apply Z.ltb_lt).
  rewrite H0, H1, H2. cbn [mbind result_bind andb app].
  replace (Z.to_nat (Z.max 0 (Z.of_nat (length papers) + detailed_papers)))
    with (length papers - Z.to_nat (- detailed_papers))%nat by lia.
  reflexivity.
Qed.

Lemma negative_count_summary_witness :
  -1 < 0
  /\ sample_library <> []
  /\ get_summary no_repr sample_library true (-1)
     = Ok (py "Research Background from Zotero library (3 papers):"
           ++ [nl] ++ [nl] ++ [nl]
           ++ py "Additional papers in library (4 more):" ++ [nl] ++ [nl]
           ++ py "- Third").
Proof.
  split; [lia|]. split; [discriminate|].
  destruct (negative_count_summary no_repr sample_library (-1) ltac:(lia)
              ltac:(discriminate)) as [E _].
  rewrite E. vm_compute. reflexivity.
Defined.

(** ** A library read from BibTeX *)

Lemma parse_bibtex_app entries : forall papers,
  _parse_bibtex papers entries = papers ++ map bib_paper entries.
Proof.
  unfold _parse_bibtex.
  induction entries as [|e entries IH]; intros papers; simpl.
  - by rewrite app_nil_r.
  - by rewrite IH, <- app_assoc.
Qed.

Lemma bib_paper_keys entry key :
  is_Some (bib_paper entry !! key)
  <-> key ∈ ["title"; "abstract"; "author"; "year"; "keywords"]%string.
Proof.
  rewrite !elem_of_cons, elem_of_nil. unfold bib_paper. split.
  - intros [v Hv].
    repeat (apply lookup_insert_Some in Hv as [[<- _]|[_ Hv]]; [tauto|]).
    by rewrite lookup_empty in Hv.
  - intros [->|[->|[->|[->|[->|[]]]]]];
      rewrite ?lookup_insert_ne by done; rewrite lookup_insert_eq; eauto.
Qed.

(** X23: the papers [_parse_bibtex] builds have exactly the five keys title,
    abstract, author, year and keywords, a field the entry lacks being the
    empty text.  So the summary of a library read from BibTeX is always built
    (for a count that is not negative), and it lists an entry without a title
    under the empty title: the default "No title" of [get_summary] is never
    used for such a library. *)
Theorem bibtex_library_summary float_repr entries detailed_papers :
  0 <= detailed_papers ->
  (forall e, e ∈ entries -> text_valued e) ->
  (forall p key, p ∈ _parse_bibtex [] entries ->
     is_Some (p !! key)
     <-> key ∈ ["title"; "abstract"; "author"; "year"; "keywords"]%string)
  /\ exists summary,
       get_summary float_repr (_parse_bibtex [] entries) true detailed_papers
       = Ok summary
       /\ forall e, e ∈ entries ->
            shown_title float_repr (bib_paper e)
            = format_value float_repr (get e "title" (VStr []))
            /\ part_of (format_value float_repr (get e "title" (VStr []))) summary.
Proof.
  intros Hd Htext. rewrite parse_bibtex_app, app_nil_l. split.
  { intros p key (e & -> & _)%list_elem_of_fmap. apply bib_paper_keys. }
  destruct (get_summary_titles float_repr (map bib_paper entries) detailed_papers Hd)
    as (summary & E & Htitles).
  { intros p x (e & -> & He)%list_elem_of_fmap.
    unfold bib_paper. rewrite lookup_insert_ne, lookup_insert_eq by done.
    unfold get. destruct (e !! "abstract") as [v|] eqn:Ha; [|done].
    intros [= ->]. by apply (Htext e He "abstract" x). }
  exists summary. split; [exact E|].
  intros e He.
  assert (Ht : shown_title float_repr (bib_paper e)
               = format_value float_repr (get e "title" (VStr []))).
  { unfold shown_title, bib_paper. unfold get at 1. by rewrite lookup_insert_eq. }
  split; [exact Ht|]. rewrite <- Ht. apply Htitles.
  apply list_elem_of_fmap. by exists e.
Qed.

Lemma bibtex_library_summary_witness :
  0 <= 30
  /\ (forall e, e ∈ [(∅ : dict); paper_titled "Second"] -> text_valued e)
  /\ get_summary no_repr (_parse_bibtex [] [∅; paper_titled "Second"]) true 30
     = Ok (py "Research Background from Zotero library (2 papers):" ++ [nl] ++ [nl]
           ++ py "Recent papers with details (most recent 30):" ++ [nl] ++ [nl]
           ++ py "1. " ++ [nl] ++ [nl]
           ++ py "2. Second" ++ [nl]
           ++ py "   Abstract: An abstract" ++ [nl])
  /\ exists summary,
       get_summary no_repr (_parse_bibtex [] [∅; paper_titled "Second"]) true 30
       = Ok summary
       /\ forall e, e ∈ [(∅ : dict); paper_titled "Second"] ->
            shown_title no_repr (bib_paper e)
            = format_value no_repr (get e "title" (VStr []))
            /\ part_of (format_value no_repr (get e "title" (VStr []))) summary.
Proof.
  assert (Htext : forall e, e ∈ [(∅ : dict); paper_titled "Second"] -> text_valued e).
  { intros e He key x. apply list_elem_of_In in He.
    destruct He as [<-|[<-|[]]].
    - by rewrite lookup_empty.
    - unfold paper_titled. intros H.
      do 2 (apply lookup_insert_Some in H as [[_ H]|[_ H]]; [discriminate|]).
      by rewrite lookup_empty in H. }
  split; [lia|]. split; [exact Htext|].
  split; [vm_compute; reflexivity|].
  exact (proj2 (bibtex_library_summary no_repr [∅; paper_titled "Second"] 30
                  ltac:(lia) Htext)).
Defined.

(** ** The library read from JSON *)

Lemma texts_plain tags :
  Forall (fun x => exists s, x = JStr s) tags -> exists ts, texts tags = Done ts.
Proof.
  induction 1 as [|x tags [s ->] _ [ts IH]]; [by exists []|].
  exists (s :: ts). cbn [texts]. by rewrite IH.
Qed.

Lemma texts_fail tags : not_all_texts tags -> texts tags = Fails NotText.
Proof.
  intros (x & Hx & Hnot). induction tags as [|y tags IH]; [by apply elem_of_nil in Hx|].
  apply elem_of_cons in Hx as [<-|Hx].
  - destruct x; try reflexivity. by destruct (Hnot s).
  - destruct y; try reflexivity. cbn [texts]. by rewrite IH.
Qed.

Lemma author_names_plain json_str cs :
  Forall (fun c => exists dc, c = JDict dc) cs ->
  exists names, author_names json_str cs = Done names.
Proof.
  induction 1 as [|c cs [dc ->] _ [names IH]]; [by exists []|].
  cbn [author_names has_last_name jget mbind parsed_bind]. rewrite IH.
  destruct (bool_decide _); cbn [mbind parsed_bind]; eauto.
Qed.

Lemma paper_keys (title abstract author year keywords : json) key :
  is_Some ((<["title" := title]>
              (<["abstract" := abstract]>
                 (<["author" := author]>
                    (<["year" := year]>
                       (<["keywords" := keywords]> (∅ : jdict)))))) !! key)
  <-> key ∈ ["title"; "abstract"; "author"; "year"; "keywords"]%string.
Proof.
  rewrite !elem_of_cons, elem_of_nil. split.
  - intros [v Hv].
    repeat (apply lookup_insert_Some in Hv as [[<- _]|[_ Hv]]; [tauto|]).
    by rewrite lookup_empty in Hv.
  - intros [->|[->|[->|[->|[->|[]]]]]];
      rewrite ?lookup_insert_ne by done; rewrite lookup_insert_eq; eauto.
Qed.

Lemma json_paper_plain json_str item :
  plain_item item ->
  exists paper, json_paper json_str item = Done paper /\ built_from item paper.
Proof.
  intros (d & -> & Hc & Hd & Ht).
  unfold json_paper. cbn [jget mbind parsed_bind].
  assert (Hnames : exists names,
            (cs ← iterate (match d !! "creators" with
                           | Some x => x
                           | None => JList []
                           end);
             author_names json_str cs) = Done names).
  { unfold plain_creators in Hc. destruct (d !! "creators") as [[]|]; try done.
    - cbn [iterate mbind parsed_bind]. by apply author_names_plain.
    - by exists []. }
  destruct Hnames as [names Hnames].
  destruct (iterate _) as [cs|]; [|discriminate].
  cbn [mbind parsed_bind] in Hnames |- *. rewrite Hnames. cbn [mbind parsed_bind].
  assert (Hyear : match d !! "date" with
                  | Some date => slice4 date
                  | None => Done (JStr [])
                  end
                  = Done (JStr (match d !! "date" with
                                | Some (JStr s) => firstn 4 s
                                | _ => []
                                end))).
  { unfold plain_date in Hd. by destruct (d !! "date") as [[]|]. }
  rewrite Hyear. cbn [mbind parsed_bind].
  assert (Hkw : exists keywords,
            match d !! "tags" with
            | Some (JList tags) => ts ← texts tags; Done (JStr (join (py ", ") ts))
            | _ => Done (JStr [])
            end = Done (JStr keywords)).
  { unfold plain_tags in Ht. destruct (d !! "tags") as [[]|]; eauto.
    destruct (texts_plain l Ht) as [ts ->]. cbn [mbind parsed_bind]. eauto. }
  destruct Hkw as [keywords ->]. cbn [mbind parsed_bind].
  eexists. split; [reflexivity|].
  exists d. split; [reflexivity|].
  split; [by rewrite lookup_insert_eq|].
  split; [by rewrite lookup_insert_ne, lookup_insert_eq|].
  split; [rewrite !lookup_insert_ne by done; by rewrite lookup_insert_eq|].
  split; [exists (join (py ", ") names);
          rewrite !lookup_insert_ne by done; by rewrite lookup_insert_eq|].
  split; [exists keywords;
          rewrite !lookup_insert_ne by done; by rewrite lookup_insert_eq|].
  apply paper_keys.
Qed.

Lemma parse_items_plain json_str items : forall papers,
  Forall plain_item items ->
  exists new,
    Forall2 built_from items new
    /\ forall rest,
         parse_items json_str papers (items ++ rest)
         = parse_items json_str (papers ++ new) rest.
Proof.
  induction items as [|item items IH]; intros papers Hall.
  { exists []. split; [constructor|]. intros rest. by rewrite app_nil_r. }
  apply Forall_cons_iff in Hall as [Hitem Hall].
  destruct (json_paper_plain json_str item Hitem) as (paper & E & Hbuilt).
  destruct (IH (papers ++ [paper]) Hall) as (new & Hnew & Hrest).
  exists (paper :: new). split; [by constructor|].
  intros rest. cbn [app parse_items]. rewrite E, Hrest.
  by rewrite <- app_assoc.
Qed.

(** X24: a library whose items are as Zotero writes them is read without
    an exception: [_parse_json] appends one paper for each item, in the order
    of the items; each paper has the five keys title, abstract, author, year
    and keywords, with the title and the abstract of the item (the empty text
    when missing) and the first four characters of its date as the year. *)
Theorem plain_library_parsed json_str papers data items :
  items_of data = Done items ->
  Forall plain_item items ->
  exists new,
    _parse_json json_str papers data = (papers ++ new, Done tt)
    /\ Forall2 built_from items new.
Proof.
  intros Hitems Hall. unfold _parse_json. rewrite Hitems.
  destruct (parse_items_plain json_str items papers Hall) as (new & Hnew & Hrest).
  exists new. split; [|exact Hnew].
  specialize (Hrest []). by rewrite app_nil_r in Hrest.
Qed.

(** X25: Zotero writes the tags of an item as a list of dictionaries.  An
    item whose [tags] is a list that holds anything but texts makes
    [_parse_json] raise TypeError at line 88, after the papers of the items
    before it have been appended, and the items after it are not read. *)
Theorem tags_of_objects_fail json_str papers data pre d post tags :
  items_of data = Done (pre ++ JDict d :: post) ->
  Forall plain_item pre ->
  plain_creators d -> plain_date d ->
  d !! "tags" = Some (JList tags) ->
  not_all_texts tags ->
  exists new,
    _parse_json json_str papers data = (papers ++ new, Fails NotText)
    /\ Forall2 built_from pre new.
Proof.
  intros Hitems Hall Hc Hd Htags Hnot. unfold _parse_json. rewrite Hitems.
  destruct (parse_items_plain json_str pre papers Hall) as (new & Hnew & Hrest).
  exists new. split; [|exact Hnew].
  rewrite Hrest. cbn [parse_items].
  assert (E : json_paper json_str (JDict d) = Fails NotText).
  { unfold json_paper. cbn [jget mbind parsed_bind].
    assert (Hnames : exists names,
              (cs ← iterate (match d !! "creators" with
                             | Some x => x
                             | None => JList []
                             end);
               author_names json_str cs) = Done names).
    { unfold plain_creators in Hc. destruct (d !! "creators") as [[]|]; try done.
      - cbn [iterate mbind parsed_bind]. by apply author_names_plain.
      - by exists []. }
    destruct Hnames as [names Hnames].
    destruct (iterate _) as [cs|]; [|discriminate].
    cbn [mbind parsed_bind] in Hnames |- *. rewrite Hnames. cbn [mbind parsed_bind].
    assert (Hyear : exists y, match d !! "date" with
                              | Some date => slice4 date
                              | None => Done (JStr [])
                              end = Done y).
    { unfold plain_date in Hd. destruct (d !! "date") as [[]|]; try done; eauto. }
    destruct Hyear as [y ->]. cbn [mbind parsed_bind].
    rewrite Htags, (texts_fail tags Hnot). reflexivity. }
  by rewrite E.
Qed.

Lemma untagged_item_plain : plain_item untagged_item.
Proof.
  eexists. split; [reflexivity|]. split; [|split].
  - unfold plain_creators. rewrite lookup_insert_ne, lookup_insert_eq by done.
    repeat constructor; eexists; reflexivity.
  - unfold plain_date. by rewrite !lookup_insert_ne, lookup_insert_eq by done.
  - unfold plain_tags. by rewrite !lookup_insert_ne, lookup_empty by done.
Qed.

Lemma plain_library_parsed_witness :
  items_of (JDict (<["items" := JList [untagged_item]]> ∅)) = Done [untagged_item]
  /\ Forall plain_item [untagged_item]
  /\ (exists paper,
        _parse_json no_str [] (JDict (<["items" := JList [untagged_item]]> ∅))
        = ([paper], Done tt)
        /\ paper !! "author" = Some (JStr (py "Ada Lovelace"))
        /\ paper !! "year" = Some (JStr (py "2020")))
  /\ exists new,
       _parse_json no_str [] (JDict (<["items" := JList [untagged_item]]> ∅))
       = ([] ++ new, Done tt)
       /\ Forall2 built_from [untagged_item] new.
Proof.
  assert (H1 : items_of (JDict (<["items" := JList [untagged_item]]> ∅))
               = Done [untagged_item]) by reflexivity.
  assert (H2 : Forall plain_item [untagged_item])
    by (repeat constructor; exact untagged_item_plain).
  split; [exact H1|]. split; [exact H2|]. split.
  - eexists. split; [vm_compute; reflexivity|].
    split; vm_compute; reflexivity.
  - exact (plain_library_parsed no_str [] _ _ H1 H2).
Defined.

Lemma tags_of_objects_fail_witness :
  (exists d tags,
     tagged_item = JDict d
     /\ items_of (JList [untagged_item; tagged_item; untagged_item])
        = Done ([untagged_item] ++ JDict d :: [untagged_item])
     /\ plain_creators d /\ plain_date d
     /\ d !! "tags" = Some (JList tags)
     /\ not_all_texts tags)
  /\ exists new,
       _parse_json no_str [] (JList [untagged_item; tagged_item; untagged_item])
       = ([] ++ new, Fails NotText)
       /\ Forall2 built_from [untagged_item] new.
Proof.
  set (d := <["title" := JStr (py "A title")]>
              (<["creators" := JList [JDict (<["firstName" := JStr (py "Ada")]>
                                               (<["lastName" := JStr (py "Lovelace")]> ∅))]]>
                 (<["date" := JStr (py "2020-01-31")]>
                    (<["tags" := JList [JDict (<["tag" := JStr (py "methods")]> ∅)]]>
                       (∅ : jdict))))).
  set (tags := [JDict (<["tag" := JStr (py "methods")]> ∅)]).
  assert (H1 : items_of (JList [untagged_item; tagged_item; untagged_item])
               = Done ([untagged_item] ++ JDict d :: [untagged_item])) by reflexivity.
  assert (H2 : Forall plain_item [untagged_item])
    by (repeat constructor; exact untagged_item_plain).
  assert (H3 : plain_creators d).
  { unfold plain_creators, d. rewrite lookup_insert_ne, lookup_insert_eq by done.
    repeat constructor; eexists; reflexivity. }
  assert (H4 : plain_date d).
  { unfold plain_date, d. by rewrite !lookup_insert_ne, lookup_insert_eq by done. }
  assert (H5 : d !! "tags" = Some (JList tags)).
  { unfold d. by rewrite !lookup_insert_ne, lookup_insert_eq by done. }
  assert (H6 : not_all_texts tags).
  { eexists. split; [by left | discriminate]. }
  split; [exists d, tags; done|].
  exact (tags_of_objects_fail no_str [] _ [untagged_item] d [untagged_item] tags
           H1 H2 H3 H4 H5 H6).
Defined.
